(** * forms.Validation: a model of form-validation.js and its properties

    The script validates an HTML form from the class names of its error
    message elements.  The model below follows the script function by
    function.  JavaScript values, strings and regular expressions are
    modelled in [JS] and [RegExp], the part of the page the script reads
    and writes in [DOM], and the validator itself after that, under the
    names the script gives its methods.  The statements about the model
    come last: facts about the string operations, then the properties of
    the validator, then their instances on worked examples.

    Conventions of the model:
    - a string is a sequence of 8-bit code units (the Latin-1 range, which
      holds every character the script's own patterns mention);
    - a thrown exception (every one here is a TypeError raised by reading a
      property of [undefined] or [null]) is the outcome [Throw];
    - the conversion of a string to a number is the runtime's, and is a
      parameter of the model ([StringToNumber]);
    - the error messages are the descendants of the form, a list that the
      script reads and updates through references (indices);
    - the controls of the form are looked up by names that are not names
      of properties of the collection of controls itself, and the error
      class and the prefix are words the pattern of the error messages
      reads as literal text. *)

From Stdlib Require Import String Ascii ZArith QArith Bool Lia.
From stdpp Require Import gmap strings list.

Local Open Scope string_scope.
Local Open Scope list_scope.

(** ** JavaScript values and string operations *)

Module JS.

(** The result of running a piece of script: a value, or an exception. *)
Inductive outcome (A : Type) : Type :=
| Ok (a : A)
| Throw.
Arguments Ok {A} a.
Arguments Throw {A}.

#[global] Instance outcome_ret : MRet outcome := fun A a => Ok a.
#[global] Instance outcome_bind : MBind outcome := fun A B f m =>
  match m with
  | Ok a => f a
  | Throw => Throw
  end.

(** The string of one double-quote character. *)
Definition doubleQuote : string := String "034" EmptyString.

(** [s.length] *)
Definition len (s : string) : Z := Z.of_nat (String.length s).

(** Index arguments of [substring] are clamped to [0 .. s.length]. *)
Definition clamp (s : string) (n : Z) : Z := Z.max 0 (Z.min n (len s)).

(** [s.substring(a, b)]: the arguments are clamped, and swapped when
    [a > b]. *)
Definition substring (s : string) (a b : Z) : string :=
  let lo := Z.min (clamp s a) (clamp s b) in
  let hi := Z.max (clamp s a) (clamp s b) in
  String.substring (Z.to_nat lo) (Z.to_nat (hi - lo)) s.

(** [s.substring(a)] *)
Definition substringFrom (s : string) (a : Z) : string :=
  substring s a (len s).

(** [s.charAt(i)]: the empty string when [i] is out of range. *)
Definition charAt (s : string) (i : Z) : string :=
  if (i <? 0)%Z then ""
  else match String.get (Z.to_nat i) s with
       | Some c => String c ""
       | None => ""
       end.

Fixpoint indexOf_from (pat s : string) (i : Z) : Z :=
  if String.prefix pat s then i
  else match s with
       | EmptyString => (-1)%Z
       | String _ s' => indexOf_from pat s' (i + 1)%Z
       end.

(** [s.indexOf(pat)] *)
Definition indexOf (s pat : string) : Z := indexOf_from pat s 0.

Fixpoint lastIndexOf_from (pat s : string) (i : Z) : Z :=
  match s with
  | EmptyString => if String.prefix pat EmptyString then i else (-1)%Z
  | String _ s' =>
      let later := lastIndexOf_from pat s' (i + 1)%Z in
      if (0 <=? later)%Z then later
      else if String.prefix pat s then i else (-1)%Z
  end.

(** [s.lastIndexOf(pat)] *)
Definition lastIndexOf (s pat : string) : Z := lastIndexOf_from pat s 0.

(** [s.split(sep)] for a separator of one character: the pieces between
    the separators, empty pieces included, so never an empty array. *)
Fixpoint split (sep : ascii) (s : string) : list string :=
  match s with
  | EmptyString => [EmptyString]
  | String c s' =>
      if Ascii.eqb c sep then EmptyString :: split sep s'
      else match split sep s' with
           | [] => [String c EmptyString]
           | w :: ws => String c w :: ws
           end
  end.

(** [toLowerCase] on the Latin-1 range: A-Z and the accented capitals
    (all of 0xC0-0xDE but the multiplication sign 0xD7). *)
Definition lowerChar (c : ascii) : ascii :=
  let n := N_of_ascii c in
  if ((65 <=? n) && (n <=? 90) ||
      (192 <=? n) && (n <=? 222) && negb (n =? 215))%N
  then ascii_of_N (n + 32) else c.

Fixpoint toLowerCase (s : string) : string :=
  match s with
  | EmptyString => EmptyString
  | String c s' => String (lowerChar c) (toLowerCase s')
  end.

(** Numbers: the doubles are among the rationals, the two infinities and
    NaN, and are compared as such. *)
Inductive number : Type :=
| NaN
| NegInf
| Fin (q : Q)
| PosInf.

(** The values the script passes around as rule arguments. *)
Inductive value : Type :=
| Undefined
| Null
| Num (n : number)
| Str (s : string).

(** [a[i]] on an array of values: [undefined] out of range. *)
Definition index (a : list value) (i : nat) : value :=
  default Undefined (a !! i).

(** The property name an optional string is used as: [o[undefined]]
    reads the property called "undefined". *)
Definition propertyKey (k : option string) : string :=
  default "undefined" k.

(** The property names a plain object inherits from [Object.prototype]:
    the standard ones, and those of the language's annex for browsers.
    Reading one of them from an object that has no such key of its own
    gives a function (the prototype itself for "__proto__"), not
    [undefined]. *)
Definition objectPrototype : list string :=
  ["constructor"; "hasOwnProperty"; "isPrototypeOf";
   "propertyIsEnumerable"; "toLocaleString"; "toString"; "valueOf";
   "__proto__"; "__defineGetter__"; "__defineSetter__";
   "__lookupGetter__"; "__lookupSetter__"].

Definition inherited (key : string) : bool :=
  existsb (String.eqb key) objectPrototype.

(** [!v] *)
Definition falsy (v : value) : bool :=
  match v with
  | Undefined | Null => true
  | Num NaN => true
  | Num (Fin q) => Qeq_bool q 0
  | Num _ => false
  | Str s => String.eqb s ""
  end.

(** [a < b] on numbers; [None] is the "undefined" answer that a NaN
    operand gives. *)
Definition num_lt (a b : number) : option bool :=
  match a, b with
  | NaN, _ | _, NaN => None
  | _, NegInf => Some false
  | NegInf, _ => Some true
  | PosInf, _ => Some false
  | _, PosInf => Some true
  | Fin x, Fin y => Some (negb (Qle_bool y x))
  end.

Section Relational.

(** The runtime's conversion of a string to a number. *)
Variable StringToNumber : string -> number.

Definition ToNumber (v : value) : number :=
  match v with
  | Undefined => NaN
  | Null => Fin 0
  | Num n => n
  | Str s => StringToNumber s
  end.

(** The abstract relational comparison [x < y]: two strings are compared
    by code units, anything else as numbers. *)
Definition lessThan (x y : value) : option bool :=
  match x, y with
  | Str a, Str b => Some (String.ltb a b)
  | _, _ => num_lt (ToNumber x) (ToNumber y)
  end.

(** [x <= y] is "not [y < x]", and false when that is undefined. *)
Definition le (x y : value) : bool :=
  match lessThan y x with
  | Some false => true
  | _ => false
  end.

(** [x >= y] is "not [x < y]", and false when that is undefined. *)
Definition ge (x y : value) : bool :=
  match lessThan x y with
  | Some false => true
  | _ => false
  end.

End Relational.

(** A conversion that reads the decimal integer literals of the
    documented class names (len-0-10); every other string is NaN here.
    It instantiates [StringToNumber] in the worked examples. *)
Definition digitValue (c : ascii) : option Z :=
  let n := N_of_ascii c in
  if ((48 <=? n) && (n <=? 57))%N then Some (Z.of_N n - 48)%Z else None.

Fixpoint decimalDigits (s : string) (acc : Z) : option Z :=
  match s with
  | EmptyString => Some acc
  | String c s' =>
      match digitValue c with
      | Some d => decimalDigits s' (10 * acc + d)%Z
      | None => None
      end
  end.

Definition decimalToNumber (s : string) : number :=
  match s with
  | EmptyString => Fin 0
  | _ => match decimalDigits s 0 with
         | Some n => Fin (inject_Z n)
         | None => NaN
         end
  end.

End JS.

Abbreviation Ok := JS.Ok.
Abbreviation Throw := JS.Throw.

(** ** Regular expressions

    A pattern is kept as its syntax tree.  [test] decides whether some
    substring of the input matches, as [RegExp.prototype.test] does for a
    pattern without flags: the patterns of the script have neither
    back-references nor look-ahead, so this is membership in the regular
    language, computed here on sets of input positions (bit [i] of a set
    stands for the position before character [i]). *)

Module RegExp.

Inductive regex : Type :=
| Eps                                       (* the empty pattern *)
| Bol                                       (* ^ *)
| Eol                                       (* $ *)
| Dot                                       (* . *)
| Chr (c : ascii)                           (* a literal character *)
| Cls (ranges : list (ascii * ascii))       (* [a-z...] *)
| Seq (r1 r2 : regex)
| Alt (r1 r2 : regex)                       (* r1|r2 *)
| Rep (r : regex) (lo : nat) (hi : option nat).  (* r{lo,hi}; r{lo,} *)

Definition star (r : regex) : regex := Rep r 0 None.
Definition plus (r : regex) : regex := Rep r 1 None.
Definition opt (r : regex) : regex := Rep r 0 (Some 1).

Fixpoint lit (s : string) : regex :=
  match s with
  | EmptyString => Eps
  | String c s' => Seq (Chr c) (lit s')
  end.

Fixpoint seqs (rs : list regex) : regex :=
  match rs with
  | [] => Eps
  | [r] => r
  | r :: rs' => Seq r (seqs rs')
  end.

Fixpoint alts (rs : list regex) : regex :=
  match rs with
  | [] => Cls []
  | [r] => r
  | r :: rs' => Alt r (alts rs')
  end.

(** [.] matches anything but a line terminator. *)
Definition lineTerminator (c : ascii) : bool :=
  Ascii.eqb c "010" || Ascii.eqb c "013".

Definition inRange (c : ascii) (r : ascii * ascii) : bool :=
  (N_of_ascii (fst r) <=? N_of_ascii c)%N &&
  (N_of_ascii c <=? N_of_ascii (snd r))%N.

(** The positions of [s] whose character satisfies [p]. *)
Fixpoint mask (p : ascii -> bool) (s : string) : N :=
  match s with
  | EmptyString => 0%N
  | String c s' => N.lor (N.b2n (p c)) (N.double (mask p s'))
  end.

(** From every position of [X] whose character satisfies [p], move one
    character on. *)
Definition advance (p : ascii -> bool) (s : string) (X : N) : N :=
  N.double (N.land X (mask p s)).

(** [Y], then [f Y], then [f (f Y)], ... joined, for at most [fuel]
    rounds, stopping once a round adds nothing. *)
Fixpoint closure (f : N -> N) (fuel : nat) (Y : N) : N :=
  match fuel with
  | O => Y
  | S fuel' =>
      let Y' := N.lor Y (f Y) in
      if N.eqb Y' Y then Y else closure f fuel' Y'
  end.

(** [step r s X]: the positions where a match of [r] that starts at a
    position of [X] can end. *)
Fixpoint step (r : regex) (s : string) (X : N) {struct r} : N :=
  match r with
  | Eps => X
  | Bol => N.land X 1
  | Eol => N.land X (N.shiftl 1 (N.of_nat (String.length s)))
  | Dot => advance (fun c => negb (lineTerminator c)) s X
  | Chr a => advance (Ascii.eqb a) s X
  | Cls rs => advance (fun c => existsb (inRange c) rs) s X
  | Seq r1 r2 => step r2 s (step r1 s X)
  | Alt r1 r2 => N.lor (step r1 s X) (step r2 s X)
  | Rep r1 lo hi =>
      let more := match hi with
                  | Some h => (h - lo)%nat
                  | None => S (String.length s)
                  end in
      closure (step r1 s) more (Nat.iter lo (step r1 s) X)
  end.

(** [r.test(s)]: a match may start and end anywhere. *)
Definition test (r : regex) (s : string) : bool :=
  negb (N.eqb (step r s (N.ones (N.of_nat (S (String.length s))))) 0).

End RegExp.

(** ** The part of the page the script works on *)

Module DOM.

(** A form control, with the properties the script reads.  [readonly] is
    the truth value of the property of that (lower-case) name. *)
Record control : Type := {
  type : string;
  value : string;
  disabled : bool;
  readonly : bool;
  checked : bool;
  options : list string;      (* the value of each option of a select *)
  selectedIndex : Z;
}.

(** What [form.elements[name]] gives: one control, or the list of the
    controls that share the name, which has a [value] of its own and no
    [type], [disabled], [readonly] or [checked]. *)
Inductive node : Type :=
| Single (c : control)
| Group (items : list control) (value : string).

(** A descendant element of the form, a candidate error message. *)
Record element : Type := {
  id : string;
  className : string;
  tagName : string;
  display : string;           (* style.display *)
}.

Record document : Type := {
  elements : gmap string node;        (* form.elements *)
  descendants : list element;         (* in document order *)
  activeElement : option control;     (* the control that has the focus *)
  location : string;                  (* what window.location is set to *)
}.

Definition setDisplay (d : string) (e : element) : element :=
  {| id := id e; className := className e; tagName := tagName e;
     display := d |}.

Definition setDescendants (l : list element) (doc : document) : document :=
  {| elements := elements doc; descendants := l;
     activeElement := activeElement doc; location := location doc |}.

Definition setActiveElement (c : control) (doc : document) : document :=
  {| elements := elements doc; descendants := descendants doc;
     activeElement := Some c; location := location doc |}.

(** A control that [focus()] can move the focus to: not a disabled one,
    and not a hidden input (the other controls are taken to be
    rendered). *)
Definition focusable (c : control) : bool :=
  negb (disabled c) && negb (String.eqb (type c) "hidden").

(** [c.focus()]: the focus moves to a control that can take it, and
    stays where it is otherwise; the call does not throw. *)
Definition focus (c : control) (doc : document) : document :=
  if focusable c then setActiveElement c doc else doc.

Definition setLocation (l : string) (doc : document) : document :=
  {| elements := elements doc; descendants := descendants doc;
     activeElement := activeElement doc; location := l |}.

(** [form.getElementsByTagName(tagName)] on the descendants of the form:
    references (indices into the list) to the elements of that tag, all
    of them for "*". *)
Definition getElementsByTagName (descendants : list element) (tag : string)
  : list nat :=
  List.filter
    (fun i => match descendants !! i with
              | Some e => String.eqb tag "*" ||
                          String.eqb (JS.toLowerCase (tagName e))
                                     (JS.toLowerCase tag)
              | None => false
              end)
    (seq 0 (length descendants)).

End DOM.

(** ** The validator *)

(** The properties of a [forms.Validation] object.  [errorTag] is [None]
    for [null]; the two tables are the objects [fileTypes] and
    [validationExp], read by key. *)
Record Validation : Type := {
  anchor : string;
  errorTag : option string;
  errorClass : string;
  errorDisplay : string;
  jump : bool;
  multiClass : string;
  prefix : string;
  suffix : string;
  fileTypes : gmap string (list string);
  validationExp : gmap string RegExp.regex;
}.

(** What [splitClassName_] returns. *)
Record classNameParts : Type := {
  method : string;
  args : list string;
}.

(** The local variables of the loop of [isValid]. *)
Record loopVars : Type := {
  valid : bool;
  firstErrorId : string;
  lastFailedField : string;
}.

(** What the loop of [isValid] did with an error message, in order: it
    passed it over, or called [check_] for its field, with that result.
    The log is kept beside the loop and is not read by it. *)
Inductive event : Type :=
| Skipped (field : string)
| Checked (field : string) (passed : bool).

Module Patterns.
Import RegExp.

Definition topLevelDomains_ : string :=
  "ac|ad|ae|aero|af|ag|ai|al|am|an|ao|aq|ar|arpa|as|asia|at|au|aw|ax|" +:+
  "az|ba|bb|bd|be|bf|bg|bh|bi|biz|bj|bm|bn|bo|br|bs|bt|bv|bw|by|bz|ca|" +:+
  "cat|cc|cd|cf|cg|ch|ci|ck|cl|cm|cn|co|com|coop|cr|cu|cv|cx|cy|cz|de|" +:+
  "dj|dk|dm|do|dz|ec|edu|ee|eg|er|es|et|eu|fi|fj|fk|fm|fo|fr|ga|gb|gd|" +:+
  "ge|gf|gg|gh|gi|gl|gm|gn|gov|gp|gq|gr|gs|gt|gu|gw|gy|hk|hm|hn|hr|ht|" +:+
  "hu|id|ie|il|im|in|info|int|io|iq|ir|is|it|je|jm|jo|jobs|jp|ke|kg|" +:+
  "kh|ki|km|kn|kp|kr|kw|ky|kz|la|lb|lc|li|lk|lr|ls|lt|lu|lv|ly|ma|mc|" +:+
  "md|me|mg|mh|mil|mk|ml|mm|mn|mo|mobi|mp|mq|mr|ms|mt|mu|museum|mv|mw|" +:+
  "mx|my|mz|na|name|nc|ne|net|nf|ng|ni|nl|no|np|nr|nu|nz|om|org|pa|pe|" +:+
  "pf|pg|ph|pk|pl|pm|pn|pr|pro|ps|pt|pw|py|qa|re|ro|rs|ru|rw|sa|sb|sc|" +:+
  "sd|se|sg|sh|si|sj|sk|sl|sm|sn|so|sr|st|su|sv|sy|sz|tc|td|tel|tf|tg|" +:+
  "th|tj|tk|tl|tm|tn|to|tp|tr|travel|tt|tv|tw|tz|ua|ug|uk|us|uy|uz|va|" +:+
  "vc|ve|vg|vi|vn|vu|wf|ws|xn|ye|yt|yu|za|zm|zw".

Definition one (c : ascii) : ascii * ascii := (c, c).

(** a-zA-Z *)
Definition letters : list (ascii * ascii) := [("a", "z"); ("A", "Z")]%char.
(** 0-9 *)
Definition digits : list (ascii * ascii) := [("0", "9")]%char.
(** \u00c0-\u00ff *)
Definition accented : list (ascii * ascii) := [("192", "255")]%char.

(** ^[a-zA-Z\u00c0-\u00ff]+$ *)
Definition alpha : regex :=
  seqs [Bol; plus (Cls (letters ++ accented)); Eol].

(** ^[a-zA-Z0-9\u00c0-\u00ff]+$ *)
Definition alphanum : regex :=
  seqs [Bol; plus (Cls (letters ++ digits ++ accented)); Eol].

(** ^(?:[a-zA-Z0-9_-]*.)*(?:[a-zA-Z0-9](?:[a-zA-Z0-9-]*[a-zA-Z0-9])?)+.(?:ac|ad|...|zw)$

    The script writes the dot before the top-level domain as '\.' inside
    a string literal, where the backslash is dropped: the pattern has a
    plain [.] there. *)
Definition domain : regex :=
  seqs [Bol;
        star (Seq (star (Cls (letters ++ digits ++ [one "_"; one "-"]%char)))
                  Dot);
        plus (Seq (Cls (letters ++ digits))
                  (opt (Seq (star (Cls (letters ++ digits ++ [one "-"%char])))
                            (Cls (letters ++ digits)))));
        Dot;
        alts (lit <$> JS.split "|" topLevelDomains_);
        Eol].

(** ^.{1,255}$ *)
Definition email_local : regex :=
  seqs [Bol; Rep Dot 1 (Some 255); Eol].

(** ^\d+$ *)
Definition num : regex :=
  seqs [Bol; plus (Cls digits); Eol].

(** ^[0-9.()+ -]{10,25}$ *)
Definition phone : regex :=
  seqs [Bol;
        Rep (Cls (digits ++ [one "."; one "("; one ")"; one "+"; one " ";
                             one "-"]%char)) 10 (Some 25);
        Eol].

(** ^https?://.+$ *)
Definition url : regex :=
  seqs [Bol; lit "http"; opt (Chr "s"); lit "://"; plus Dot; Eol].

(** [a-zA-Z0-9 -] *)
Definition classChars : list (ascii * ascii) :=
  letters ++ digits ++ [one " "; one "-"]%char.

(** The pattern [getElementsByClass_] builds:
    '^[a-zA-Z0-9 -]*' + classes.join('|') + '[a-zA-Z0-9 -]*$'.
    The bar of the join is the alternation of the pattern, so the first
    name carries the head and the last one the tail.  The names are read
    as literal text. *)
Fixpoint joined (head : regex) (classes : list string) (tail : regex)
  : regex :=
  match classes with
  | [] => Seq head tail
  | [c] => seqs [head; lit c; tail]
  | c :: rest => Alt (Seq head (lit c)) (joined Eps rest tail)
  end.

Definition classExpr (classes : list string) : regex :=
  joined (Seq Bol (star (Cls classChars))) classes
         (Seq (star (Cls classChars)) Eol).

End Patterns.

(** The constructor [forms.Validation]: the defaults of the prototype and
    the two tables it fills in. *)
Definition forms_Validation : Validation := {|
  anchor := "";
  errorTag := None;
  errorClass := "error";
  errorDisplay := "block";
  jump := false;
  multiClass := "m";
  prefix := "v-";
  suffix := "-err";
  fileTypes :=
    <["audio" := ["mp3"; "mp4"; "flac"; "ogg"; "wma"; "wav"]]>
    (<["image" := ["bmp"; "gif"; "jpg"; "jpeg"; "png"; "tif"; "raw"]]>
    (<["pdf" := ["pdf"]]>
    (<["text" := ["txt"]]>
    (<["html" := ["html"; "htm"]]>
    (<["video" := ["mov"; "mpeg"; "mpg"; "avi"; "ogm"; "wmv"]]> ∅)))));
  validationExp :=
    <["alpha" := Patterns.alpha]>
    (<["alphanum" := Patterns.alphanum]>
    (<["domain" := Patterns.domain]>
    (<["email-local" := Patterns.email_local]>
    (<["num" := Patterns.num]>
    (<["phone" := Patterns.phone]>
    (<["url" := Patterns.url]> ∅))))));
|}.

Section Methods.

(** The runtime's conversion of a string to a number. *)
Variable StringToNumber : string -> JS.number.

(** *** Field names and class names *)

Fixpoint getFieldName_loop (multiClass : string) (classArr : list string)
  (field : string) : string :=
  match classArr with
  | [] => field
  | c :: rest =>
      if String.eqb c multiClass
      then JS.substring field 0 (JS.lastIndexOf field "-")
      else getFieldName_loop multiClass rest field
  end.

(** [className] is optional: [isValid] leaves it out in its last call. *)
Definition getFieldName_ (this : Validation) (errorId : string)
  (className : option string) : string :=
  let className := default "" className in
  let field :=
    JS.substring errorId 0 (JS.len errorId - JS.len this.(suffix)) in
  let classArr := JS.split " " className in
  let multiClass := this.(prefix) +:+ this.(multiClass) in
  getFieldName_loop multiClass classArr field.

Definition splitClassName_ (this : Validation) (className : string)
  : classNameParts :=
  let className :=
    if (0 <=? JS.indexOf className this.(prefix))%Z
    then JS.substringFrom className (JS.len this.(prefix))
    else className in
  let classArgs := JS.split "-" className in
  let cleanArgs :=
    List.filter (fun a => negb (JS.len a =? 0)%Z) classArgs in
  match cleanArgs with
  | [] => {| method := ""; args := [] |}
  | [m] => {| method := m; args := [] |}
  | m :: rest => {| method := m; args := rest |}
  end.

(** *** The rules *)

Definition isEqual_ (firstValue secondValue : string) : bool :=
  String.eqb firstValue secondValue.

(** [this.validationExp[expression].test(value)]: a key that is not in
    the table gives [undefined] (or a member of [Object.prototype], which
    has no [test] either), and the call of [test] on it throws. *)
Definition isValidRegExp_ (this : Validation) (value expression : string)
  : JS.outcome bool :=
  match this.(validationExp) !! expression with
  | Some re => Ok (RegExp.test re value)
  | None => Throw
  end.

Definition isValidEmail_ (this : Validation) (value : string)
  : JS.outcome bool :=
  if (JS.indexOf value "@" =? -1)%Z then Ok false
  else
    let sep := JS.lastIndexOf value "@" in
    d ← isValidRegExp_ this (JS.substringFrom value (sep + 1)) "domain";
    if negb d then Ok false
    else
      let local := JS.substring value 0 sep in
      isValidRegExp_ this local "email-local".

Definition isValidLength_ (value : string) (min max : JS.value) : bool :=
  let length := JS.Num (JS.Fin (inject_Z (JS.len value))) in
  if JS.falsy max then JS.ge StringToNumber length min
  else JS.le StringToNumber min max
       && JS.ge StringToNumber length min
       && JS.le StringToNumber length max.

Definition getFileExtension_ (value : string) : string :=
  JS.substringFrom value (JS.lastIndexOf value "." + 1).

(** [filetype] is [args[0]], absent when the class name has no argument.
    The loop over the extensions returns true at the first equal one.
    [this.fileTypes[filetype]] is read from a plain object.  For a name
    the table does not have but every object inherits, it gives a
    function, or the prototype: the loop runs over its [length] (none for
    the prototype), finds [undefined] at every index, and the result is
    false.  For any other name it gives [undefined], whose [length]
    cannot be read. *)
Definition isValidFileExtension_ (this : Validation) (value : string)
  (filetype : option string) : JS.outcome bool :=
  let value := JS.toLowerCase (getFileExtension_ value) in
  match this.(fileTypes) !! JS.propertyKey filetype with
  | Some filetype => Ok (existsb (String.eqb value) filetype)
  | None =>
      if JS.inherited (JS.propertyKey filetype) then Ok false else Throw
  end.

Definition hasValue_ (value : string) : bool :=
  negb (JS.len value =? 0)%Z.

(** *** Form controls *)

(** [form] is [this.form_.elements], as the map from the names of the
    controls to what the collection gives under them.  The properties of
    the collection itself (item, namedItem, length, and what every object
    inherits) are not controls and are not in the map: a field name is
    taken not to be one of them. *)
Definition formGet_ (form : gmap string DOM.node) (fieldName : string)
  : option DOM.node :=
  match form !! fieldName with
  | Some field => Some field
  | None =>
      match form !! (fieldName +:+ "[]") with
      | Some field => Some field
      | None => None
      end
  end.

(** [field.value] of what [formGet_] returned; [null.value] throws. *)
Definition fieldValue (field : option DOM.node) : JS.outcome string :=
  match field with
  | Some (DOM.Single c) => Ok (DOM.value c)
  | Some (DOM.Group _ v) => Ok v
  | None => Throw
  end.

(** The truth value of [field.disabled == 'disabled' || field.disabled];
    a list of controls has no such property. *)
Definition isDisabled_ (field : option DOM.node) : JS.outcome bool :=
  match field with
  | Some (DOM.Single c) => Ok (DOM.disabled c)
  | Some (DOM.Group _ _) => Ok false
  | None => Throw
  end.

Definition isReadOnly_ (field : option DOM.node) : JS.outcome bool :=
  match field with
  | Some (DOM.Single c) => Ok (DOM.readonly c)
  | Some (DOM.Group _ _) => Ok false
  | None => Throw
  end.

(** *** Rule dispatch *)

(** The body of the switch of [validateHandler_] for one class name:
    the verdict, and [value] as the case leaves it for the class names
    that follow (the file case assigns to it). *)
Definition validateHandler_switch (this : Validation)
  (form : gmap string DOM.node) (classNameParts : classNameParts) (value : string)
  : JS.outcome (bool * string) :=
  let m := classNameParts.(method) in
  let args := classNameParts.(args) in
  if String.eqb m "email" then
    valid ← isValidEmail_ this value; Ok (valid, value)
  else if String.eqb m "file" || String.eqb m "upload" then
    let value :=
      if String.eqb (JS.charAt value (JS.len value - 1)) JS.doubleQuote
      then JS.substring value 0 (JS.len value - 2)
      else value in
    valid ← isValidFileExtension_ this value (args !! 0%nat);
    Ok (valid, value)
  else if String.eqb m "len" then
    let args :=
      (JS.Str <$> args) ++
      (if (length args =? 1)%nat then [JS.Null] else []) in
    Ok (isValidLength_ value (JS.index args 0) (JS.index args 1), value)
  else if String.eqb m "match" || String.eqb m "eq" || String.eqb m "equal"
  then
    other ← fieldValue (formGet_ form (JS.propertyKey (args !! 0%nat)));
    Ok (isEqual_ value other, value)
  else if String.eqb m "required" || String.eqb m "error"
          || String.eqb m this.(errorClass) then
    Ok (hasValue_ value, value)
  else if String.eqb m this.(multiClass) then
    Ok (true, value)
  else
    valid ← isValidRegExp_ this value m; Ok (valid, value).

(** The loop [for (var i = 0, className; className = classArr[i]; i++)]:
    it ends at the end of the array and also at the first empty class
    name, which is falsy. *)
Fixpoint validateHandler_loop (this : Validation)
  (form : gmap string DOM.node) (classArr : list string) (value : string) : JS.outcome bool :=
  match classArr with
  | [] => Ok true
  | className :: rest =>
      if String.eqb className "" then Ok true
      else if String.eqb
                (JS.substring className 0 (JS.len this.(prefix)))
                this.(prefix)
      then
        '(valid, value) ←
          validateHandler_switch this form (splitClassName_ this className)
                                 value;
        if negb valid then Ok false
        else validateHandler_loop this form rest value
      else validateHandler_loop this form rest value
  end.

Definition validateHandler_ (this : Validation)
  (form : gmap string DOM.node) (className value : string)
  : JS.outcome bool :=
  validateHandler_loop this form (JS.split " " className) value.

(** *** Checks by control type *)

Definition checkFileUpload_ (this : Validation)
  (form : gmap string DOM.node) (fieldName className : string)
  : JS.outcome bool :=
  let field := formGet_ form fieldName in
  d ← isDisabled_ field;
  if d : bool then Ok true
  else value ← fieldValue field; validateHandler_ this form className value.

(** A list of controls has a [length]; a single input has none, and an
    empty list has the falsy length 0. *)
Definition checkCheckbox_ (form : gmap string DOM.node)
  (fieldName : string) : JS.outcome bool :=
  match formGet_ form fieldName with
  | None => Throw
  | Some (DOM.Group [] _) => Ok false
  | Some (DOM.Group items _) =>
      Ok (existsb (fun c => negb (DOM.disabled c) && DOM.checked c) items)
  | Some (DOM.Single c) => Ok (DOM.disabled c || DOM.checked c)
  end.

(** The loop runs while [i < radioGroup.length]; for a single input the
    length is [undefined] and the comparison is false at once. *)
Definition checkRadio_ (form : gmap string DOM.node)
  (fieldName : string) : JS.outcome bool :=
  match formGet_ form fieldName with
  | None => Throw
  | Some (DOM.Group items _) => Ok (existsb DOM.checked items)
  | Some (DOM.Single _) => Ok false
  end.

Definition checkText_ (this : Validation)
  (form : gmap string DOM.node) (fieldName className : string)
  : JS.outcome bool :=
  let field := formGet_ form fieldName in
  d ← isDisabled_ field;
  if d : bool then Ok true
  else
    r ← isReadOnly_ field;
    if r : bool then Ok true
    else value ← fieldValue field;
         validateHandler_ this form className value.

(** [field.options[field.selectedIndex].value]: a list of controls has no
    [options], and an index outside the options gives [undefined]; the
    read of [value] throws in both cases. *)
Definition checkSelect_ (form : gmap string DOM.node)
  (fieldName : string) : JS.outcome bool :=
  let field := formGet_ form fieldName in
  d ← isDisabled_ field;
  if d : bool then Ok true
  else
    match field with
    | Some (DOM.Single c) =>
        if (DOM.selectedIndex c <? 0)%Z then Throw
        else match DOM.options c !! Z.to_nat (DOM.selectedIndex c) with
             | Some value => Ok (hasValue_ value)
             | None => Throw
             end
    | _ => Throw
    end.

Definition checkTextArea_ (form : gmap string DOM.node)
  (fieldName : string) : JS.outcome bool :=
  let field := formGet_ form fieldName in
  d ← isDisabled_ field;
  if d : bool then Ok true
  else
    r ← isReadOnly_ field;
    if r : bool then Ok true
    else value ← fieldValue field; Ok (hasValue_ value).

(** [formGet_(fieldName).type], and the type of the first control when
    that is [undefined] (a list of controls). *)
Definition controlType (field : option DOM.node) : JS.outcome string :=
  match field with
  | None => Throw
  | Some (DOM.Single c) => Ok (DOM.type c)
  | Some (DOM.Group [] _) => Throw
  | Some (DOM.Group (c :: _) _) => Ok (DOM.type c)
  end.

Definition check_ (this : Validation)
  (form : gmap string DOM.node) (fieldName className : string)
  : JS.outcome bool :=
  type ← controlType (formGet_ form fieldName);
  if String.eqb type "checkbox" then checkCheckbox_ form fieldName
  else if String.eqb type "text" || String.eqb type "password" then
    checkText_ this form fieldName className
  else if String.eqb type "select-one" || String.eqb type "select-multiple"
  then checkSelect_ form fieldName
  else if String.eqb type "textarea" then checkTextArea_ form fieldName
  else if String.eqb type "file" then
    checkFileUpload_ this form fieldName className
  else if String.eqb type "radio" then checkRadio_ form fieldName
  else Ok true.

(** *** Error messages *)

(** [element.style.display = show ? this.errorDisplay : 'none'], on the
    element that the reference [element] stands for among the
    descendants of the form. *)
Definition display_ (this : Validation) (element : nat) (show : bool)
  (descendants : list DOM.element) : list DOM.element :=
  alter (M := list DOM.element)
        (DOM.setDisplay (if show then this.(errorDisplay) else "none"))
        element descendants.

(** References to the descendants of the form with tag [tagName] (any
    tag when there is none, or an empty one: [tagName || '*']) whose
    class name the pattern matches. *)
Definition getElementsByClass_ (classes : list string)
  (descendants : list DOM.element) (tagName : option string) : list nat :=
  let tagName :=
    match tagName with
    | Some tag => if String.eqb tag "" then "*" else tag
    | None => "*"
    end in
  let children := DOM.getElementsByTagName descendants tagName in
  let expr := Patterns.classExpr classes in
  List.filter
    (fun i => match descendants !! i with
              | Some child => RegExp.test expr (DOM.className child)
              | None => false
              end)
    children.

Fixpoint hideAllErrors_loop (this : Validation) (elements : list nat)
  (descendants : list DOM.element) : list DOM.element :=
  match elements with
  | [] => descendants
  | element :: rest =>
      hideAllErrors_loop this rest (display_ this element false descendants)
  end.

Definition hideAllErrors (this : Validation) (doc : DOM.document)
  : DOM.document :=
  let elements :=
    getElementsByClass_ [this.(errorClass); this.(prefix)]
                        (DOM.descendants doc) this.(errorTag) in
  DOM.setDescendants
    (hideAllErrors_loop this elements (DOM.descendants doc)) doc.

(** [field.focus()], and [field[0].focus()] when that throws, which it
    does for a list of controls (no [focus]) and for [null]; [null[0]]
    throws again, and so does [focus] on the missing first control of an
    empty list. *)
Definition focus_ (field : option DOM.node) (doc : DOM.document)
  : JS.outcome unit * DOM.document :=
  match field with
  | Some (DOM.Single c) => (Ok tt, DOM.focus c doc)
  | Some (DOM.Group (c :: _) _) => (Ok tt, DOM.focus c doc)
  | Some (DOM.Group [] _) => (Throw, doc)
  | None => (Throw, doc)
  end.

(** *** isValid *)

Definition isValid_fail (vars : loopVars) (errorId formElementId : string)
  : loopVars :=
  {| valid := false;
     firstErrorId := if vars.(valid) then errorId else vars.(firstErrorId);
     lastFailedField := formElementId |}.

(** The loop over the error messages.  It returns the local variables (or
    [Throw]), the log of what it did, and the descendants of the form as
    it leaves them. *)
Fixpoint isValid_loop (this : Validation) (form : gmap string DOM.node)
  (errorMsgs : list nat) (vars : loopVars) (log : list event)
  (descendants : list DOM.element)
  : JS.outcome loopVars * list event * list DOM.element :=
  match errorMsgs with
  | [] => (Ok vars, log, descendants)
  | i :: rest =>
      match descendants !! i with
      | None => (Throw, log, descendants)
      | Some errorMsg =>
          let formElementId :=
            getFieldName_ this (DOM.id errorMsg)
                          (Some (DOM.className errorMsg)) in
          if negb (String.eqb formElementId "")
             && negb (String.eqb formElementId vars.(lastFailedField))
          then
            match check_ this form formElementId (DOM.className errorMsg)
            with
            | Throw => (Throw, log, descendants)
            | Ok true =>
                isValid_loop this form rest vars
                  (log ++ [Checked formElementId true])
                  (display_ this i false descendants)
            | Ok false =>
                isValid_loop this form rest
                  (isValid_fail vars (DOM.id errorMsg) formElementId)
                  (log ++ [Checked formElementId false])
                  (display_ this i true descendants)
            end
          else isValid_loop this form rest vars
                            (log ++ [Skipped formElementId]) descendants
      end
  end.

(** [isValid()], called without a form: the validator keeps the one it
    has.  The result is the returned boolean (or [Throw]), the log of the
    loop, and the document after the call. *)
Definition isValid (this : Validation) (doc : DOM.document)
  : JS.outcome bool * list event * DOM.document :=
  let doc := hideAllErrors this doc in
  let errorMsgs :=
    getElementsByClass_ [this.(errorClass); this.(prefix)]
                        (DOM.descendants doc) this.(errorTag) in
  match isValid_loop this (DOM.elements doc) errorMsgs
          {| valid := true; firstErrorId := ""; lastFailedField := "" |}
          [] (DOM.descendants doc) with
  | (Throw, log, descendants) =>
      (Throw, log, DOM.setDescendants descendants doc)
  | (Ok vars, log, descendants) =>
      let doc := DOM.setDescendants descendants doc in
      if vars.(valid) then (Ok true, log, doc)
      else
        let doc :=
          if this.(jump)
          then DOM.setLocation
                 (if negb (JS.len this.(anchor) =? 0)%Z then this.(anchor)
                  else "#" +:+ vars.(firstErrorId))
                 doc
          else doc in
        match focus_ (formGet_ (DOM.elements doc)
                        (getFieldName_ this vars.(firstErrorId) None))
                     doc with
        | (Throw, doc) => (Throw, log, doc)
        | (Ok _, doc) => (Ok false, log, doc)
        end
  end.

End Methods.

(** ** Vocabulary of the statements *)

(** [c] occurs in [s]. *)
Fixpoint occurs (c : ascii) (s : string) : bool :=
  match s with
  | EmptyString => false
  | String c' s' => Ascii.eqb c' c || occurs c s'
  end.

(** The string of the one character [c]. *)
Definition char (c : ascii) : string := String c EmptyString.

(** The last character of [s]. *)
Fixpoint lastChar (s : string) : option ascii :=
  match s with
  | EmptyString => None
  | String c EmptyString => Some c
  | String _ s' => lastChar s'
  end.

(** A class name is a rule token when it begins with the prefix. *)
Definition isRuleToken (this : Validation) (token : string) : bool :=
  String.prefix this.(prefix) token.


(** The length rule as the specification states it, for bounds that are
    numbers and a maximum that is not zero: the bounds are in order and
    the length of the value lies between them. *)
Definition lengthInBounds (value : string) (min max : Z) : bool :=
  (min <=? max)%Z && (min <=? JS.len value)%Z && (JS.len value <=? max)%Z.

(** The methods the switch of [validateHandler_] has a case for. *)
Definition builtinMethod (this : Validation) (m : string) : bool :=
  existsb (String.eqb m)
    ["email"; "file"; "upload"; "len"; "match"; "eq"; "equal";
     "required"; "error"; this.(errorClass); this.(multiClass)].

(** Space, tab, line feed, vertical tab, form feed, carriage return. *)
Definition whitespace (c : ascii) : bool :=
  existsb (N.eqb (N_of_ascii c)) [32; 9; 10; 11; 12; 13]%N.

(** The pieces of [s] between its whitespace characters. *)
Fixpoint splitWhitespace (s : string) : list string :=
  match s with
  | EmptyString => [EmptyString]
  | String c s' =>
      if whitespace c then EmptyString :: splitWhitespace s'
      else match splitWhitespace s' with
           | [] => [String c EmptyString]
           | w :: ws => String c w :: ws
           end
  end.

(** No class name from the first empty one on is a rule token. *)
Fixpoint rulesBeforeEmpty (this : Validation) (classArr : list string)
  : bool :=
  match classArr with
  | [] => true
  | c :: rest =>
      if String.eqb c ""
      then forallb (fun t => negb (isRuleToken this t)) classArr
      else rulesBeforeEmpty this rest
  end.

(** Position [n] is in the set [X]. *)
Definition bit (X : N) (n : nat) : bool := N.testbit X (N.of_nat n).

(** The first [n] characters of [s] are there and satisfy [p]. *)
Fixpoint goodPrefix (p : ascii -> bool) (n : nat) (s : string) : bool :=
  match n with
  | O => true
  | S n' => match s with
            | EmptyString => false
            | String c s' => p c && goodPrefix p n' s'
            end
  end.

(** [Y] is the set of the positions [1 .. j] that a run of characters
    satisfying [p] reaches from the start of [s]. *)
Definition reached (p : ascii -> bool) (s : string) (j : nat) (Y : N)
  : Prop :=
  forall n : nat,
    bit Y n = (1 <=? n)%nat && (n <=? j)%nat && goodPrefix p n s.

(** The field an entry of the log is about. *)
Definition fieldOf (e : event) : string :=
  match e with
  | Skipped f => f
  | Checked f _ => f
  end.

Definition isSkipped (e : event) : bool :=
  match e with
  | Skipped _ => true
  | Checked _ _ => false
  end.

(** The rule of the specification: an error message is passed over
    whenever the message processed just before it was for the same
    field. *)
Definition skipsRepeats (log : list event) : Prop :=
  forall (i : nat) (e e' : event),
    log !! i = Some e -> log !! S i = Some e' ->
    fieldOf e = fieldOf e' -> isSkipped e' = true.

(** The field of the last failed check of a log, the empty string when
    none failed. *)
Definition lastFailedIn (log : list event) : string :=
  foldl (fun acc e => match e with
                      | Checked f false => f
                      | _ => acc
                      end) "" log.

(** The rule of the script: a message is passed over exactly when its
    field name is empty or is the field of the last failed check before
    it. *)
Definition followsSkipRule (log : list event) : Prop :=
  forall (before after : list event) (e : event),
    log = before ++ e :: after ->
    isSkipped e = true <->
    fieldOf e = "" \/ fieldOf e = lastFailedIn before.

(** The field name [isValid] derives for an error message. *)
Definition fieldNameOf (this : Validation) (e : DOM.element) : string :=
  getFieldName_ this (DOM.id e) (Some (DOM.className e)).

(** The field names of the error messages behind the references [refs],
    in order. *)
Fixpoint fieldNames (this : Validation) (store : list DOM.element)
  (refs : list nat) : list string :=
  match refs with
  | [] => []
  | i :: rest =>
      match store !! i with
      | Some e => fieldNameOf this e :: fieldNames this store rest
      | None => []
      end
  end.

(** What the script reads of an element: all but its display. *)
Definition shape (e : DOM.element) : string * string * string :=
  (DOM.id e, DOM.className e, DOM.tagName e).

(** Unfolds the accessors and updates of a document record. *)
Ltac dom_simpl :=
  cbn [DOM.descendants DOM.elements DOM.setDescendants DOM.activeElement
       DOM.location].

Section Readings.

Variable StringToNumber : string -> JS.number.

(** Every rule token passes, in order, each on the value as the rule
    tokens before it leave it; the first that fails ends the evaluation
    with false. *)
Fixpoint everyRulePasses (this : Validation) (form : gmap string DOM.node)
  (ruleTokens : list string) (value : string) : JS.outcome bool :=
  match ruleTokens with
  | [] => Ok true
  | token :: rest =>
      '(valid, value) ←
        validateHandler_switch StringToNumber this form
                               (splitClassName_ this token) value;
      if valid : bool then everyRulePasses this form rest value
      else Ok false
  end.

(** The rule token passes on [value], and leaves it as it is. *)
Definition rulePasses (this : Validation) (form : gmap string DOM.node)
  (value token : string) : Prop :=
  validateHandler_switch StringToNumber this form
                         (splitClassName_ this token) value
  = Ok (true, value).

(** The rule token fails on [value]. *)
Definition ruleFails (this : Validation) (form : gmap string DOM.node)
  (value token : string) : Prop :=
  validateHandler_switch StringToNumber this form
                         (splitClassName_ this token) value
  = Ok (false, value).

(** The evaluator as the specification words it: split on whitespace,
    keep the rule tokens, every one of them must pass. *)
Definition evaluate (this : Validation) (form : gmap string DOM.node)
  (classNameString value : string) : JS.outcome bool :=
  everyRulePasses this form
    (List.filter (isRuleToken this) (splitWhitespace classNameString))
    value.

End Readings.

(** *** Worked examples *)

Module Examples.

Definition tab : string := String "009" EmptyString.

Definition input (type value : string) (checked : bool) : DOM.control :=
  {| DOM.type := type; DOM.value := value; DOM.disabled := false;
     DOM.readonly := false; DOM.checked := checked; DOM.options := [];
     DOM.selectedIndex := (-1)%Z |}.

Definition message (id className : string) : DOM.element :=
  {| DOM.id := id; DOM.className := className; DOM.tagName := "INS";
     DOM.display := "" |}.

(** A checked radio button that is alone under its name. *)
Definition agreeForm : gmap string DOM.node :=
  <["agree" := DOM.Single (input "radio" "yes" true)]> ∅.

(** The serial number field of the script's own comment, with two of its
    messages: the field holds "abc", which is not empty and not numeric. *)
Definition serialPage : DOM.document :=
  {| DOM.elements := <["serial" := DOM.Single (input "text" "abc" false)]> ∅;
     DOM.descendants :=
       [message "serial-0-err" "v-error v-m";
        message "serial-1-err" "v-error v-m v-num"];
     DOM.activeElement := None;
     DOM.location := "" |}.

(** The same field left empty, so that its first message fails. *)
Definition emptySerialPage : DOM.document :=
  {| DOM.elements := <["serial" := DOM.Single (input "text" "" false)]> ∅;
     DOM.descendants :=
       [message "serial-0-err" "v-error v-m";
        message "serial-1-err" "v-error v-m v-num"];
     DOM.activeElement := None;
     DOM.location := "" |}.

End Examples.

(** ** Vocabulary of the further statements *)

(** The error messages of a document: what both [hideAllErrors] and
    [isValid] ask [getElementsByClass_] for. *)
Definition errorMessages (this : Validation) (doc : DOM.document)
  : list nat :=
  getElementsByClass_ [this.(errorClass); this.(prefix)]
                      (DOM.descendants doc) this.(errorTag).


Module MoreExamples.

(** A numeric serial number: both messages of the field pass. *)
Definition numericSerialPage : DOM.document :=
  {| DOM.elements :=
       <["serial" := DOM.Single (Examples.input "text" "123" false)]> ∅;
     DOM.descendants :=
       [Examples.message "serial-0-err" "v-error v-m";
        Examples.message "serial-1-err" "v-error v-m v-num"];
     DOM.activeElement := None;
     DOM.location := "" |}.

(** An e-mail field that holds no address, with its one message and an
    element that is no message. *)
Definition emailPage : DOM.document :=
  {| DOM.elements :=
       <["email" := DOM.Single (Examples.input "text" "nobody" false)]> ∅;
     DOM.descendants :=
       [Examples.message "intro" "note";
        Examples.message "email-err" "v-error v-email"];
     DOM.activeElement := None;
     DOM.location := "" |}.

End MoreExamples.

(** *** Further worked examples *)

Module Controls.

Definition control (type value : string) (disabled checked : bool)
  (options : list string) (selectedIndex : Z) : DOM.control :=
  {| DOM.type := type; DOM.value := value; DOM.disabled := disabled;
     DOM.readonly := false; DOM.checked := checked;
     DOM.options := options; DOM.selectedIndex := selectedIndex |}.

(** A disabled checkbox that is not checked. *)
Definition disabledBox : DOM.control :=
  control "checkbox" "on" true false [] (-1).

(** A disabled checkbox that is checked. *)
Definition disabledCheckedBox : DOM.control :=
  control "checkbox" "on" true true [] (-1).

(** A dropdown whose second option is selected. *)
Definition dropdown : DOM.control :=
  control "select-one" "fr" false false [""; "fr"; "de"] 1.

Definition form : gmap string DOM.node :=
  <["agree" := DOM.Single disabledBox]>
  (<["topics[]" := DOM.Group [disabledCheckedBox; disabledBox] ""]>
  (<["country" := DOM.Single dropdown]>
  (<["nickname" := DOM.Single (Examples.input "text" "" false)]>
  (<["password" := DOM.Single (Examples.input "password" "secret" false)]>
   ∅)))).

End Controls.

(** [segments.join('-')] *)
Fixpoint hyphenated (segments : list string) : string :=
  match segments with
  | [] => ""
  | [s] => s
  | s :: rest => s +:+ String "-" (hyphenated rest)
  end.

(** A segment of a class name: not empty, and without a hyphen. *)
Definition isSegment (s : string) : bool :=
  negb (String.eqb s "") && negb (occurs "-" s).

(** No check of the log failed. *)
Definition allPassed (log : list event) : bool :=
  forallb (fun e => match e with
                    | Checked _ false => false
                    | _ => true
                    end) log.

(** The code of [c] is between [lo] and [hi]. *)
Definition between (lo hi : N) (c : ascii) : bool :=
  (lo <=? N_of_ascii c)%N && (N_of_ascii c <=? hi)%N.

(** 0-9 *)
Definition isDigit (c : ascii) : bool := between 48 57 c.

(** a-z and A-Z *)
Definition isLetter (c : ascii) : bool := between 97 122 c || between 65 90 c.

(** The Latin-1 characters from 0xC0 on: the accented letters, and with
    them the multiplication and the division sign. *)
Definition isAccented (c : ascii) : bool := between 192 255 c.

(** A digit, or one of [.()+ -]. *)
Definition isPhoneChar (c : ascii) : bool :=
  isDigit c || existsb (Ascii.eqb c) ["."; "("; ")"; "+"; " "; "-"]%char.

(** Every character of [s] satisfies [p]. *)
Definition allChars (p : ascii -> bool) (s : string) : bool :=
  forallb p (list_ascii_of_string s).

(** [Y] is the set of the positions [lo .. hi] that a run of characters
    satisfying [p] reaches from the start of [s]. *)
Definition run (p : ascii -> bool) (s : string) (lo hi : nat) (Y : N)
  : Prop :=
  forall n : nat,
    bit Y n = (lo <=? n)%nat && (n <=? hi)%nat && goodPrefix p n s.

(** The references of [l] come in ascending order. *)
Definition ascending (l : list nat) : Prop :=
  forall (a b x y : nat),
    l !! a = Some x -> l !! b = Some y -> (a < b)%nat -> (x < y)%nat.

Section Passing.

Variable StringToNumber : string -> JS.number.

(** The error message [e] has nothing to show: it names no field, or the
    check of its field under its class names returns true. *)
Definition messagePasses (this : Validation) (form : gmap string DOM.node)
  (e : DOM.element) : Prop :=
  fieldNameOf this e = "" \/
  check_ StringToNumber this form (fieldNameOf this e) (DOM.className e)
  = Ok true.

End Passing.

(** The character of [s] at position [i] is there and satisfies [p]. *)
Definition charOk (p : ascii -> bool) (s : string) (i : nat) : bool :=
  match String.get i s with
  | Some c => p c
  | None => false
  end.

(** The [d] characters of [s] from position [m] on are there and satisfy
    [p]. *)
Fixpoint rangeOk (p : ascii -> bool) (s : string) (m d : nat) : bool :=
  match d with
  | O => true
  | S d' => charOk p s m && rangeOk p s (S m) d'
  end.

(** [s] has the characters of [w] from position [i] on. *)
Fixpoint occursAt (w s : string) (i : nat) : bool :=
  match w with
  | EmptyString => true
  | String a w' => charOk (Ascii.eqb a) s i && occursAt w' s (S i)
  end.

(** A letter, a digit, a space or a hyphen: [a-zA-Z0-9 -]. *)
Definition isClassChar (c : ascii) : bool :=
  isLetter c || isDigit c || Ascii.eqb c " " || Ascii.eqb c "-".

(** ** Facts about the string operations *)

Lemma len_nonneg (s : string) : (0 <= JS.len s)%Z.
Proof. unfold JS.len. lia. Qed.

Lemma len_String (c : ascii) (s : string) :
  JS.len (String c s) = (JS.len s + 1)%Z.
Proof. unfold JS.len. cbn [String.length]. lia. Qed.

Lemma append_nil (b : string) : EmptyString +:+ b = b.
Proof. reflexivity. Qed.

Lemma append_String (c : ascii) (a b : string) :
  String c a +:+ b = String c (a +:+ b).
Proof. reflexivity. Qed.

Lemma len_append (a b : string) :
  JS.len (a +:+ b) = (JS.len a + JS.len b)%Z.
Proof.
  induction a as [|c a IH]; rewrite ?append_nil, ?append_String.
  - unfold JS.len. cbn [String.length]. lia.
  - rewrite !len_String, IH. lia.
Qed.

Lemma substring_0 (s : string) (n : Z) :
  JS.substring s 0 n = String.substring 0 (Z.to_nat (JS.clamp s n)) s.
Proof.
  unfold JS.substring.
  assert (H0 : JS.clamp s 0 = 0%Z).
  { unfold JS.clamp. pose proof (len_nonneg s). lia. }
  assert (Hn : (0 <= JS.clamp s n)%Z) by (unfold JS.clamp; lia).
  rewrite H0.
  replace (Z.min 0 (JS.clamp s n)) with 0%Z by lia.
  replace (Z.max 0 (JS.clamp s n) - 0)%Z with (JS.clamp s n) by lia.
  reflexivity.
Qed.

Lemma substringFrom_eq (s : string) (a : Z) :
  JS.substringFrom s a =
  String.substring (Z.to_nat (JS.clamp s a))
                   (String.length s - Z.to_nat (JS.clamp s a)) s.
Proof.
  unfold JS.substringFrom, JS.substring.
  assert (Hl : JS.clamp s (JS.len s) = JS.len s).
  { unfold JS.clamp. pose proof (len_nonneg s). lia. }
  assert (Ha : (0 <= JS.clamp s a <= JS.len s)%Z).
  { unfold JS.clamp. pose proof (len_nonneg s). lia. }
  rewrite Hl.
  replace (Z.min (JS.clamp s a) (JS.len s)) with (JS.clamp s a) by lia.
  replace (Z.max (JS.clamp s a) (JS.len s)) with (JS.len s) by lia.
  f_equal. unfold JS.len in *. lia.
Qed.

Lemma take_append (a b : string) :
  String.substring 0 (String.length a) (a +:+ b) = a.
Proof.
  induction a as [|c a IH]; rewrite ?append_nil, ?append_String; cbn.
  - destruct b; reflexivity.
  - now rewrite IH.
Qed.

Lemma take_all (s : string) (n : nat) :
  String.length s <= n -> String.substring 0 n s = s.
Proof.
  revert n. induction s as [|c s IH]; intros n Hn.
  - destruct n; reflexivity.
  - destruct n; cbn in *; [lia|]. rewrite IH by lia. reflexivity.
Qed.

Lemma drop_append (a b : string) :
  String.substring (String.length a) (String.length b) (a +:+ b) = b.
Proof.
  induction a as [|c a IH]; rewrite ?append_nil, ?append_String; cbn.
  - apply take_all. lia.
  - exact IH.
Qed.

(** The first [a.length] characters of [a + b] are [a]. *)
Lemma substring_append_l (a b : string) :
  JS.substring (a +:+ b) 0 (JS.len a) = a.
Proof.
  rewrite substring_0.
  replace (Z.to_nat (JS.clamp (a +:+ b) (JS.len a))) with (String.length a).
  - apply take_append.
  - unfold JS.clamp. rewrite len_append.
    pose proof (len_nonneg a). pose proof (len_nonneg b).
    unfold JS.len in *. lia.
Qed.

(** What follows the first [a.length] characters of [a + b] is [b]. *)
Lemma substringFrom_append (a b : string) :
  JS.substringFrom (a +:+ b) (JS.len a) = b.
Proof.
  rewrite substringFrom_eq.
  assert (H : Z.to_nat (JS.clamp (a +:+ b) (JS.len a)) = String.length a).
  { unfold JS.clamp. rewrite len_append.
    pose proof (len_nonneg a). pose proof (len_nonneg b).
    unfold JS.len in *. lia. }
  rewrite H.
  replace (String.length (a +:+ b) - String.length a)
    with (String.length b).
  - apply drop_append.
  - pose proof (len_append a b) as L. unfold JS.len in L. lia.
Qed.

Lemma prefix_char (c : ascii) (s : string) :
  String.prefix (char c) s =
  match s with
  | EmptyString => false
  | String c' _ => Ascii.eqb c' c
  end.
Proof.
  destruct s as [|c' s]; cbn; [reflexivity|].
  rewrite Ascii.eqb_sym.
  destruct (ascii_dec c c') as [->|Hne].
  - rewrite Ascii.eqb_refl. destruct s; reflexivity.
  - apply Ascii.eqb_neq in Hne. now rewrite Hne.
Qed.

Lemma indexOf_from_absent (c : ascii) (s : string) (i : Z) :
  occurs c s = false -> JS.indexOf_from (char c) s i = (-1)%Z.
Proof.
  revert i. induction s as [|c' s IH]; intros i H; cbn [JS.indexOf_from].
  - reflexivity.
  - cbn in H. apply orb_false_iff in H as [H1 H2].
    rewrite prefix_char, H1. now apply IH.
Qed.

Lemma indexOf_from_present (c : ascii) (s : string) (i : Z) :
  occurs c s = true -> (i <= JS.indexOf_from (char c) s i)%Z.
Proof.
  revert i. induction s as [|c' s IH]; intros i H; cbn [JS.indexOf_from].
  - discriminate.
  - rewrite prefix_char. cbn in H.
    destruct (Ascii.eqb c' c); [lia|].
    cbn in H. specialize (IH (i + 1)%Z H). lia.
Qed.

Lemma lastIndexOf_from_absent (c : ascii) (s : string) (i : Z) :
  occurs c s = false -> JS.lastIndexOf_from (char c) s i = (-1)%Z.
Proof.
  revert i. induction s as [|c' s IH]; intros i H; cbn [JS.lastIndexOf_from].
  - reflexivity.
  - cbn in H. apply orb_false_iff in H as [H1 H2].
    rewrite (IH _ H2). cbn [Z.leb]. rewrite prefix_char, H1. reflexivity.
Qed.

Lemma lastIndexOf_from_append (c : ascii) (a e : string) (i : Z) :
  (0 <= i)%Z -> occurs c e = false ->
  JS.lastIndexOf_from (char c) (a +:+ String c e) i = (i + JS.len a)%Z.
Proof.
  revert i. induction a as [|c' a IH]; intros i Hi H;
    rewrite ?append_nil, ?append_String; cbn [JS.lastIndexOf_from].
  - rewrite (lastIndexOf_from_absent _ _ _ H). cbn [Z.leb].
    rewrite prefix_char, Ascii.eqb_refl. unfold JS.len. cbn. lia.
  - rewrite IH by (lia || assumption). rewrite len_String.
    pose proof (len_nonneg a).
    destruct (0 <=? i + 1 + JS.len a)%Z eqn:E; [lia|].
    apply Z.leb_gt in E. lia.
Qed.

(** The last [c] of [a + c + e] is at [a.length] when [e] has no [c]. *)
Lemma lastIndexOf_append (c : ascii) (a e : string) :
  occurs c e = false ->
  JS.lastIndexOf (a +:+ String c e) (char c) = JS.len a.
Proof.
  intros H. unfold JS.lastIndexOf.
  rewrite lastIndexOf_from_append by (lia || assumption). lia.
Qed.

Lemma lastIndexOf_absent (c : ascii) (s : string) :
  occurs c s = false -> JS.lastIndexOf s (char c) = (-1)%Z.
Proof. apply lastIndexOf_from_absent. Qed.

Lemma split_absent (sep : ascii) (s : string) :
  occurs sep s = false -> JS.split sep s = [s].
Proof.
  induction s as [|c s IH]; intros H; cbn [JS.split]; [reflexivity|].
  cbn in H. apply orb_false_iff in H as [H1 H2].
  rewrite H1, (IH H2). reflexivity.
Qed.

(** [s.substring(0, p.length) === p] says that [s] begins with [p]. *)
Lemma substring_eqb_prefix (p s : string) :
  String.eqb (JS.substring s 0 (JS.len p)) p = String.prefix p s.
Proof.
  rewrite substring_0.
  assert (H : Z.to_nat (JS.clamp s (JS.len p)) =
              Nat.min (String.length p) (String.length s)).
  { unfold JS.clamp, JS.len. lia. }
  rewrite H. clear H.
  revert s. induction p as [|c p IH]; intros s.
  - cbn. destruct s; reflexivity.
  - destruct s as [|c' s].
    + reflexivity.
    + cbn [String.length Nat.min String.substring String.prefix String.eqb].
      rewrite IH.
      destruct (ascii_dec c c') as [->|Hne].
      * rewrite Ascii.eqb_refl. reflexivity.
      * assert (Ascii.eqb c' c = false) by (apply Ascii.eqb_neq; congruence).
        rewrite H. reflexivity.
Qed.

(** ** Properties of the validator *)

Section Properties.

Variable StringToNumber : string -> JS.number.

(** *** Field names *)

Lemma getFieldName_loop_spec (marker : string) (classArr : list string)
  (field : string) :
  getFieldName_loop marker classArr field =
  if existsb (fun c => String.eqb c marker) classArr
  then JS.substring field 0 (JS.lastIndexOf field "-")
  else field.
Proof.
  induction classArr as [|c rest IH]; cbn; [reflexivity|].
  destruct (String.eqb c marker); cbn; [reflexivity | exact IH].
Qed.

Lemma existsb_eqb_elem_of (marker : string) (l : list string) :
  existsb (fun c => String.eqb c marker) l = true <-> marker ∈ l.
Proof.
  rewrite existsb_exists. split.
  - intros (c & Hin & Heq). apply String.eqb_eq in Heq. subst c.
    now apply list_elem_of_In.
  - intros Hin. exists marker. split; [now apply list_elem_of_In|].
    apply String.eqb_refl.
Qed.

Lemma suffix_stripped (name suffix : string) :
  JS.substring (name +:+ suffix) 0
    (JS.len (name +:+ suffix) - JS.len suffix) = name.
Proof.
  rewrite len_append.
  replace (JS.len name + JS.len suffix - JS.len suffix)%Z
    with (JS.len name) by lia.
  apply substring_append_l.
Qed.

Lemma last_hyphen_cut (base index : string) :
  occurs "-" index = false ->
  let field := base +:+ String "-" index in
  JS.substring field 0 (JS.lastIndexOf field "-") = base.
Proof.
  intros H field. unfold field.
  change "-" with (char "-").
  rewrite (lastIndexOf_append "-" base index H).
  apply substring_append_l.
Qed.

(** C6.  The field name of an error message: the suffix is stripped from
    the identifier first (the last [suffix.length] characters go), and
    then, only when the prefixed multi-class marker is one of the
    space-separated class names of the message, everything from the last
    hyphen on is cut.  So an identifier [name + suffix] without the
    marker gives [name], an identifier [base + "-" + index + suffix] with
    the marker gives [base] (the index holds no hyphen), and
    serial-0-err, serial-1-err, serial-2-err with the marker all give
    serial. *)
Theorem getFieldName_strips_then_cuts (this : Validation)
  (className : string) :
  let marker := this.(prefix) +:+ this.(multiClass) in
  (forall errorId : string,
      let stripped :=
        JS.substring errorId 0 (JS.len errorId - JS.len this.(suffix)) in
      getFieldName_ this errorId (Some className) =
      if bool_decide (marker ∈ JS.split " " className)
      then JS.substring stripped 0 (JS.lastIndexOf stripped "-")
      else stripped) /\
  (forall name : string,
      marker ∉ JS.split " " className ->
      getFieldName_ this (name +:+ this.(suffix)) (Some className) = name) /\
  (forall base index : string,
      marker ∈ JS.split " " className ->
      occurs "-" index = false ->
      getFieldName_ this (base +:+ String "-" index +:+ this.(suffix))
                    (Some className) = base) /\
  (getFieldName_ forms_Validation "serial-0-err" (Some "v-error v-m")
     = "serial" /\
   getFieldName_ forms_Validation "serial-1-err" (Some "v-error v-m v-caps")
     = "serial" /\
   getFieldName_ forms_Validation "serial-2-err"
                 (Some "v-error v-m v-alphanum") = "serial").
Proof.
  intros marker.
  assert (Hall : forall errorId : string,
    getFieldName_ this errorId (Some className) =
    if bool_decide (marker ∈ JS.split " " className)
    then JS.substring
           (JS.substring errorId 0 (JS.len errorId - JS.len this.(suffix)))
           0 (JS.lastIndexOf
                (JS.substring errorId 0
                   (JS.len errorId - JS.len this.(suffix))) "-")
    else JS.substring errorId 0 (JS.len errorId - JS.len this.(suffix))).
  { intros errorId. unfold getFieldName_.
    change (default "" (Some className)) with className.
    rewrite getFieldName_loop_spec. fold marker.
    destruct (existsb _ _) eqn:E.
    - apply existsb_eqb_elem_of in E. now rewrite bool_decide_eq_true_2.
    - rewrite bool_decide_eq_false_2; [reflexivity|].
      intros Hin. apply existsb_eqb_elem_of in Hin. congruence. }
  split; [exact Hall|split; [|split]].
  - intros name Hnot. rewrite Hall, suffix_stripped.
    now rewrite bool_decide_eq_false_2.
  - intros base index Hin Hidx. rewrite Hall.
    replace ((base +:+ String "-" index +:+ this.(suffix)))
      with ((base +:+ String "-" index) +:+ this.(suffix)).
    2:{ clear. induction base as [|c b IH];
        rewrite ?append_nil, ?append_String; [reflexivity|].
        now rewrite IH. }
    rewrite suffix_stripped, bool_decide_eq_true_2 by exact Hin.
    now apply last_hyphen_cut.
  - vm_compute. repeat split.
Qed.

(** *** Class names *)

Lemma len_zero_eqb (a : string) :
  (JS.len a =? 0)%Z = String.eqb a "".
Proof.
  destruct a as [|c a]; [reflexivity|].
  rewrite len_String. pose proof (len_nonneg a). cbn [String.eqb].
  apply Z.eqb_neq. lia.
Qed.



(** *** Length *)

(** C5.  The bounds of a length rule reach [isValidLength_] as the
    strings of the class name, and [min <= max] between two strings
    compares them by their characters, not as numbers: "10" sorts before
    "2", so under the class name "v-len-2-10" the bounds count as out of
    order and every value fails, among them "abcde", whose length 5 lies
    between 2 and 10. *)
Theorem len_rule_fails_within_bounds (form : gmap string DOM.node) :
  (forall value : string,
      validateHandler_ StringToNumber forms_Validation form
                       "v-len-2-10" value = Ok false) /\
  validateHandler_ StringToNumber forms_Validation form
                   "v-len-2-10" "abcde" = Ok false /\
  lengthInBounds "abcde" 2 10 = true /\
  (forall value : string,
      isValidLength_ StringToNumber value (JS.Str "2") (JS.Str "10")
      = false).
Proof.
  assert (H : forall value : string,
             isValidLength_ StringToNumber value (JS.Str "2") (JS.Str "10")
             = false) by reflexivity.
  split; [|split; [|split]].
  - intros value. unfold validateHandler_.
    change (JS.split " " "v-len-2-10") with ["v-len-2-10"].
    cbn [validateHandler_loop].
    change ("v-len-2-10" =? "") with false.
    change (JS.substring "v-len-2-10" 0 (JS.len forms_Validation.(prefix))
            =? forms_Validation.(prefix)) with true.
    change (splitClassName_ forms_Validation "v-len-2-10")
      with {| method := "len"; args := ["2"; "10"] |}.
    cbv iota.
    change (validateHandler_switch StringToNumber forms_Validation form
              {| method := "len"; args := ["2"; "10"] |} value)
      with (Ok (isValidLength_ StringToNumber value (JS.Str "2")
                               (JS.Str "10"), value)
            : JS.outcome (bool * string)).
    rewrite H. reflexivity.
  - reflexivity.
  - reflexivity.
  - exact H.
Qed.

(** *** Controls *)

(** C10.  A field of type radio that is a single control, not a list of
    controls, never validates, checked or not. *)
Theorem lone_radio_never_valid (this : Validation)
  (form : gmap string DOM.node) (fieldName className : string)
  (c : DOM.control) :
  formGet_ form fieldName = Some (DOM.Single c) ->
  DOM.type c = "radio" ->
  checkRadio_ form fieldName = Ok false /\
  check_ StringToNumber this form fieldName className = Ok false.
Proof.
  intros Hget Htype.
  assert (Hr : checkRadio_ form fieldName = Ok false).
  { unfold checkRadio_. now rewrite Hget. }
  split; [exact Hr|].
  unfold check_. rewrite Hget. cbn [controlType mbind JS.outcome_bind].
  rewrite Htype. cbn. exact Hr.
Qed.

(** *** Rules *)

Lemma append_assoc (a b c : string) :
  (a +:+ b) +:+ c = a +:+ (b +:+ c).
Proof.
  induction a as [|x a IH]; rewrite ?append_nil, ?append_String;
    [reflexivity|]. now rewrite IH.
Qed.

Lemma occurs_append (c : ascii) (a b : string) :
  occurs c (a +:+ b) = occurs c a || occurs c b.
Proof.
  induction a as [|x a IH]; rewrite ?append_nil, ?append_String;
    [reflexivity|]. cbn. now rewrite IH, orb_assoc.
Qed.

Lemma charAt_last (s : string) :
  JS.charAt s (JS.len s - 1) =
  match lastChar s with
  | Some c => char c
  | None => EmptyString
  end.
Proof.
  induction s as [|c s IH]; [reflexivity|].
  rewrite len_String. unfold JS.charAt in *.
  pose proof (len_nonneg s) as Hs.
  replace (JS.len s + 1 - 1 <? 0)%Z with false by (symmetry; apply Z.ltb_ge; lia).
  destruct s as [|c' s]; [reflexivity|].
  rewrite len_String in *. pose proof (len_nonneg s).
  replace (JS.len s + 1 - 1 <? 0)%Z with false in IH
    by (symmetry; apply Z.ltb_ge; lia).
  replace (Z.to_nat (JS.len s + 1 + 1 - 1))
    with (S (Z.to_nat (JS.len s + 1 - 1))) by lia.
  cbn [String.get lastChar] in *. exact IH.
Qed.

Lemma quote_artifact_stripped (body : string) (a : ascii) :
  let value := body +:+ String a JS.doubleQuote in
  lastChar value = Some "034"%char /\
  JS.substring value 0 (JS.len value - 2) = body.
Proof.
  intros value. unfold value. split.
  - induction body as [|c b IH]; rewrite ?append_nil, ?append_String;
      [reflexivity|].
    cbn [lastChar]. destruct (b +:+ String a JS.doubleQuote) eqn:E; [|exact IH].
    destruct b; discriminate E.
  - rewrite len_append.
    replace (JS.len body + JS.len (String a JS.doubleQuote) - 2)%Z
      with (JS.len body) by (unfold JS.len; cbn; lia).
    apply substring_append_l.
Qed.

Lemma existsb_eqb_bool_decide (x : string) (l : list string) :
  existsb (String.eqb x) l = bool_decide (x ∈ l).
Proof.
  induction l as [|y l IH]; cbn.
  - symmetry. apply bool_decide_eq_false. apply not_elem_of_nil.
  - rewrite IH. destruct (String.eqb x y) eqn:E; cbn.
    + apply String.eqb_eq in E. subst y. symmetry.
      apply bool_decide_eq_true. apply elem_of_cons. now left.
    + apply String.eqb_neq in E.
      apply bool_decide_ext. rewrite elem_of_cons. tauto.
Qed.

Lemma getFileExtension_after_last_dot (name ext : string) :
  occurs "." ext = false ->
  getFileExtension_ (name +:+ String "." ext) = ext.
Proof.
  intros H. unfold getFileExtension_.
  change "." with (char ".").
  rewrite (lastIndexOf_append "." name ext H).
  replace (name +:+ String "." ext) with ((name +:+ char ".") +:+ ext)
    by (rewrite append_assoc; reflexivity).
  replace (JS.len name + 1)%Z with (JS.len (name +:+ char "."))
    by (rewrite len_append; reflexivity).
  apply substringFrom_append.
Qed.

Lemma getFileExtension_no_dot (value : string) :
  occurs "." value = false -> getFileExtension_ value = value.
Proof.
  intros H. unfold getFileExtension_.
  change "." with (char ".").
  rewrite (lastIndexOf_absent "." value H).
  change (-1 + 1)%Z with (JS.len EmptyString).
  apply (substringFrom_append EmptyString value).
Qed.

(** C7.  The file (or upload) rule, whose first argument names a group
    of the table of file types.  A value whose last character is a
    double quote loses its last two characters, the escaped quote, (a
    value that is only the quote becomes empty) and any other value is
    kept.  The extension is what follows the last dot (the whole value
    when it has no dot), and the rule holds exactly when the extension
    in lower case is one of the extensions of the group, which are
    compared as they are.  Under a name that the table does not have
    the rule finds no extension at all when the name is one that every
    object inherits ("constructor", "toString", ...), and is false; under
    any other such name it throws.  So "photo.JPG" is an image and
    "doc.txt" is not. *)
Theorem file_rule_checks_extension (this : Validation)
  (form : gmap string DOM.node) (m group : string) (rest : list string)
  (value : string) :
  m = "file" \/ m = "upload" ->
  let rule :=
    validateHandler_switch StringToNumber this form
                           {| method := m; args := group :: rest |} in
  let verdict (v : string) : JS.outcome (bool * string) :=
    match this.(fileTypes) !! group with
    | Some exts =>
        Ok (bool_decide (JS.toLowerCase (getFileExtension_ v) ∈ exts), v)
    | None => if JS.inherited group then Ok (false, v) else Throw
    end in
  (forall (body : string) (a : ascii),
      value = body +:+ String a JS.doubleQuote ->
      rule value = verdict body) /\
  (value = JS.doubleQuote -> rule value = verdict "") /\
  (lastChar value <> Some "034"%char -> rule value = verdict value) /\
  (forall name ext : string,
      occurs "." ext = false ->
      getFileExtension_ (name +:+ String "." ext) = ext) /\
  (forall name : string,
      occurs "." name = false -> getFileExtension_ name = name) /\
  (validateHandler_ StringToNumber forms_Validation form
                    "v-file-image" "photo.JPG" = Ok true /\
   validateHandler_ StringToNumber forms_Validation form
                    "v-file-image" "doc.txt" = Ok false /\
   validateHandler_ StringToNumber forms_Validation form
                    "v-file-constructor" "photo.jpg" = Ok false /\
   validateHandler_ StringToNumber forms_Validation form
                    "v-file-photos" "photo.jpg" = Throw).
Proof.
  intros Hm rule verdict.
  assert (Hrule : forall v,
             rule v =
             verdict
               (if String.eqb (JS.charAt v (JS.len v - 1)) JS.doubleQuote
                then JS.substring v 0 (JS.len v - 2) else v)).
  { intros v. unfold rule, verdict, validateHandler_switch.
    cbn [method args].
    assert (E : String.eqb m "email" = false /\
                (String.eqb m "file" || String.eqb m "upload") = true)
      by (destruct Hm; subst m; split; reflexivity).
    destruct E as [-> ->].
    unfold isValidFileExtension_.
    change ((group :: rest) !! 0%nat) with (Some group).
    change (JS.propertyKey (Some group)) with group.
    destruct (this.(fileTypes) !! group) as [exts|];
      [|now destruct (JS.inherited group)].
    cbn [mbind JS.outcome_bind].
    now rewrite existsb_eqb_bool_decide. }
  split; [|split; [|split; [|split; [|split]]]].
  - intros body a ->. rewrite Hrule.
    destruct (quote_artifact_stripped body a) as [Hl Hs].
    rewrite charAt_last, Hl.
    change (String.eqb (char "034") JS.doubleQuote) with true.
    cbv iota. now rewrite Hs.
  - intros ->. rewrite Hrule. reflexivity.
  - intros Hlast. rewrite Hrule, charAt_last.
    destruct (lastChar value) as [c|] eqn:E.
    + assert (Hc : String.eqb (char c) JS.doubleQuote = false).
      { apply String.eqb_neq. intros H. injection H as ->. now apply Hlast. }
      now rewrite Hc.
    + reflexivity.
  - apply getFileExtension_after_last_dot.
  - apply getFileExtension_no_dot.
  - repeat split; vm_compute; reflexivity.
Qed.

Lemma builtinMethod_false (this : Validation) (m : string) :
  builtinMethod this m = false ->
  String.eqb m "email" = false /\
  (String.eqb m "file" || String.eqb m "upload") = false /\
  String.eqb m "len" = false /\
  (String.eqb m "match" || String.eqb m "eq" || String.eqb m "equal")
    = false /\
  (String.eqb m "required" || String.eqb m "error"
   || String.eqb m this.(errorClass)) = false /\
  String.eqb m this.(multiClass) = false.
Proof.
  unfold builtinMethod. cbn [existsb].
  repeat (destruct (String.eqb m _); cbn; try discriminate).
  intros _. repeat split.
Qed.

(** C8.  A rule token whose parsed method is none of the methods of the
    switch and is no key of the table of validation expressions: the
    evaluation of the token throws (the table gives [undefined], and the
    call of [test] on it fails); it does not return true.  A class name
    that is this one token makes [validateHandler_] throw. *)
Theorem unknown_rule_throws (this : Validation)
  (form : gmap string DOM.node) (token value : string) :
  let m := (splitClassName_ this token).(method) in
  builtinMethod this m = false ->
  this.(validationExp) !! m = None ->
  validateHandler_switch StringToNumber this form
                         (splitClassName_ this token) value = Throw /\
  (token <> "" -> occurs " " token = false ->
   isRuleToken this token = true ->
   validateHandler_ StringToNumber this form token value = Throw).
Proof.
  intros m Hb Hnone.
  assert (Hs : validateHandler_switch StringToNumber this form
                 (splitClassName_ this token) value = Throw).
  { unfold validateHandler_switch. fold m.
    destruct (builtinMethod_false this m Hb) as (-> & -> & -> & -> & -> & ->).
    unfold isValidRegExp_. now rewrite Hnone. }
  split; [exact Hs|].
  intros Hne Hsp Hrule. unfold validateHandler_.
  rewrite (split_absent " " token Hsp). cbn [validateHandler_loop].
  assert (E : String.eqb token "" = false) by now apply String.eqb_neq.
  rewrite E, substring_eqb_prefix. unfold isRuleToken in Hrule.
  rewrite Hrule, Hs. reflexivity.
Qed.

(** C4.  A value without an at sign is no e-mail address.  Any other
    value is split at its last at sign, and is valid exactly when what
    follows matches the domain pattern and what precedes matches the
    email-local pattern, both read from the table.  With the table of
    the constructor, "user@example.com" and "a@b@example.com" are valid,
    "user@" and "userexample.com" are not. *)
Theorem isValidEmail_splits_at_last_at (this : Validation) :
  (forall value : string,
      occurs "@" value = false -> isValidEmail_ this value = Ok false) /\
  (forall (domainExp localExp : RegExp.regex) (local domain : string),
      this.(validationExp) !! "domain" = Some domainExp ->
      this.(validationExp) !! "email-local" = Some localExp ->
      occurs "@" domain = false ->
      isValidEmail_ this (local +:+ String "@" domain) =
      Ok (RegExp.test domainExp domain && RegExp.test localExp local)) /\
  (isValidEmail_ forms_Validation "user@example.com" = Ok true /\
   isValidEmail_ forms_Validation "a@b@example.com" = Ok true /\
   isValidEmail_ forms_Validation "user@" = Ok false /\
   isValidEmail_ forms_Validation "userexample.com" = Ok false).
Proof.
  split; [|split].
  - intros value H. unfold isValidEmail_, JS.indexOf.
    change "@" with (char "@").
    now rewrite (indexOf_from_absent "@" value 0 H).
  - intros domainExp localExp local domain Hd Hl Hno.
    unfold isValidEmail_. set (value := local +:+ String "@" domain).
    assert (Hocc : occurs "@" value = true).
    { unfold value. rewrite occurs_append. cbn. apply orb_true_r. }
    pose proof (indexOf_from_present "@" value 0 Hocc) as Hidx.
    change (char "@") with "@" in Hidx. fold (JS.indexOf value "@") in Hidx.
    replace (JS.indexOf value "@" =? -1)%Z with false
      by (symmetry; apply Z.eqb_neq; lia).
    assert (Hlast : JS.lastIndexOf value "@" = JS.len local)
      by (apply (lastIndexOf_append "@" local domain Hno)).
    rewrite Hlast.
    assert (Hdom : JS.substringFrom value (JS.len local + 1) = domain).
    { unfold value.
      replace (local +:+ String "@" domain)
        with ((local +:+ char "@") +:+ domain)
        by (rewrite append_assoc; reflexivity).
      replace (JS.len local + 1)%Z with (JS.len (local +:+ char "@"))
        by (rewrite len_append; reflexivity).
      apply substringFrom_append. }
    assert (Hloc : JS.substring value 0 (JS.len local) = local)
      by apply substring_append_l.
    rewrite Hdom, Hloc. unfold isValidRegExp_. rewrite Hd, Hl.
    cbn [mbind JS.outcome_bind].
    now destruct (RegExp.test domainExp domain).
  - repeat split; vm_compute; reflexivity.
Qed.

(** *** The evaluator *)

Lemma filter_none {A : Type} (p : A -> bool) (l : list A) :
  forallb (fun a => negb (p a)) l = true -> List.filter p l = [].
Proof.
  induction l as [|a l IH]; cbn; [reflexivity|].
  intros H. apply andb_true_iff in H as [Ha Hl].
  apply negb_true_iff in Ha. rewrite Ha. now apply IH.
Qed.

Lemma validateHandler_loop_everyRulePasses (this : Validation)
  (form : gmap string DOM.node) (classArr : list string) (value : string) :
  rulesBeforeEmpty this classArr = true ->
  validateHandler_loop StringToNumber this form classArr value =
  everyRulePasses StringToNumber this form
                  (List.filter (isRuleToken this) classArr) value.
Proof.
  revert value. induction classArr as [|c rest IH]; intros value H.
  - reflexivity.
  - cbn [validateHandler_loop rulesBeforeEmpty] in *.
    destruct (String.eqb c "") eqn:Ec.
    + now rewrite (filter_none _ _ H).
    + rewrite substring_eqb_prefix. cbn [List.filter].
      fold (isRuleToken this c).
      destruct (isRuleToken this c); [|now apply IH].
      cbn [everyRulePasses].
      destruct (validateHandler_switch _ _ _ _ _) as [[valid value']|];
        [|reflexivity].
      cbn [mbind JS.outcome_bind].
      destruct valid; cbn [negb]; [now apply IH | reflexivity].
Qed.

(** Only the file rule on a value that ends with a double quote changes
    the value. *)
Lemma validateHandler_switch_keeps_value (this : Validation)
  (form : gmap string DOM.node) (parts : classNameParts)
  (value value' : string) (valid : bool) :
  lastChar value <> Some "034"%char ->
  validateHandler_switch StringToNumber this form parts value
  = Ok (valid, value') ->
  value' = value.
Proof.
  intros Hlast. unfold validateHandler_switch.
  assert (Hq : String.eqb (JS.charAt value (JS.len value - 1))
                          JS.doubleQuote = false).
  { rewrite charAt_last. destruct (lastChar value) as [c|]; [|reflexivity].
    apply String.eqb_neq. intros H. injection H as ->. now apply Hlast. }
  rewrite Hq.
  repeat match goal with
         | |- context [if ?b then _ else _] => destruct b
         end;
    try (destruct (isValidEmail_ _ _)
         || destruct (isValidFileExtension_ _ _ _)
         || destruct (fieldValue _)
         || destruct (isValidRegExp_ _ _ _));
    cbn [mbind JS.outcome_bind]; intros H;
    try discriminate H; now injection H.
Qed.

Lemma everyRulePasses_true (this : Validation)
  (form : gmap string DOM.node) (ruleTokens : list string)
  (value : string) :
  lastChar value <> Some "034"%char ->
  everyRulePasses StringToNumber this form ruleTokens value = Ok true <->
  Forall (rulePasses StringToNumber this form value) ruleTokens.
Proof.
  intros Hlast. induction ruleTokens as [|t ts IH]; cbn [everyRulePasses].
  - split; [constructor | reflexivity].
  - rewrite Forall_cons. unfold rulePasses at 1.
    destruct (validateHandler_switch _ _ _ _ _) as [[valid value']|] eqn:E.
    + pose proof (validateHandler_switch_keeps_value _ _ _ _ _ _ Hlast E)
        as ->.
      cbn [mbind JS.outcome_bind]. destruct valid.
      * rewrite IH. tauto.
      * split; [discriminate | intros [H _]; discriminate H].
    + cbn [mbind JS.outcome_bind].
      split; [discriminate | intros [H _]; discriminate H].
Qed.

Lemma everyRulePasses_first_failure (this : Validation)
  (form : gmap string DOM.node) (before after : list string)
  (token value : string) :
  Forall (rulePasses StringToNumber this form value) before ->
  ruleFails StringToNumber this form value token ->
  everyRulePasses StringToNumber this form (before ++ token :: after) value
  = Ok false.
Proof.
  intros Hbefore Hfail.
  induction Hbefore as [|t ts Ht _ IH]; cbn [app everyRulePasses].
  - unfold ruleFails in Hfail. now rewrite Hfail.
  - unfold rulePasses in Ht. rewrite Ht. exact IH.
Qed.

(** C2, as amended.  The class name string is split at its space
    characters.  A class name is a rule token exactly when it begins with
    the prefix, and the others are passed over.  When no rule token
    stands at or after an empty class name, the handler returns what the
    rule tokens give in order, each on the value as the ones before it
    left it.  On a value that no rule changes (it does not end with a
    double quote) that is true exactly when every rule token passes; and
    once the rule tokens before one that fails have passed, it is false
    whatever the rule tokens after it would give. *)
Theorem validateHandler_every_rule_token (this : Validation)
  (form : gmap string DOM.node) (className value : string) :
  rulesBeforeEmpty this (JS.split " " className) = true ->
  let ruleTokens :=
    List.filter (isRuleToken this) (JS.split " " className) in
  validateHandler_ StringToNumber this form className value =
  everyRulePasses StringToNumber this form ruleTokens value /\
  (lastChar value <> Some "034"%char ->
   validateHandler_ StringToNumber this form className value = Ok true <->
   Forall (rulePasses StringToNumber this form value) ruleTokens) /\
  (forall (before after : list string) (token : string),
      ruleTokens = before ++ token :: after ->
      Forall (rulePasses StringToNumber this form value) before ->
      ruleFails StringToNumber this form value token ->
      validateHandler_ StringToNumber this form className value = Ok false).
Proof.
  intros H ruleTokens.
  assert (E : validateHandler_ StringToNumber this form className value =
              everyRulePasses StringToNumber this form ruleTokens value)
    by now apply validateHandler_loop_everyRulePasses.
  split; [exact E|split].
  - intros Hlast. rewrite E. now apply everyRulePasses_true.
  - intros before after token Htokens Hbefore Hfail.
    rewrite E, Htokens. now apply everyRulePasses_first_failure.
Qed.

(** *** Error messages and their display *)

Lemma setDisplay_shape (d : string) (e e' : DOM.element) :
  shape e = shape e' -> DOM.setDisplay d e = DOM.setDisplay d e'.
Proof.
  destruct e, e'. unfold shape, DOM.setDisplay. cbn.
  intros H. injection H as -> -> ->. reflexivity.
Qed.

Lemma display_lookup (this : Validation) (i : nat) (show : bool)
  (store : list DOM.element) (j : nat) :
  display_ this i show store !! j =
  if decide (i = j)
  then DOM.setDisplay (if show then this.(errorDisplay) else "none")
       <$> store !! j
  else store !! j.
Proof.
  unfold display_. rewrite list_lookup_alter.
  destruct (decide (i = j)) as [->|Hne]; reflexivity.
Qed.

Lemma display_shapes (this : Validation) (i : nat) (show : bool)
  (store : list DOM.element) :
  shape <$> display_ this i show store = shape <$> store.
Proof.
  apply list_eq. intros j. rewrite !list_lookup_fmap, display_lookup.
  destruct (decide (i = j)); [|reflexivity].
  destruct (store !! j); reflexivity.
Qed.

Lemma shapes_lookup (s s' : list DOM.element) (j : nat) :
  shape <$> s = shape <$> s' ->
  shape <$> (s !! j) = shape <$> (s' !! j).
Proof. intros H. rewrite <- !list_lookup_fmap. now rewrite H. Qed.

Lemma shapes_length (s s' : list DOM.element) :
  shape <$> s = shape <$> s' -> length s = length s'.
Proof.
  intros H. rewrite <- (length_fmap shape s), H. apply length_fmap.
Qed.

(** The error messages found depend on the shapes only. *)
Lemma getElementsByClass_shapes (classes : list string)
  (s s' : list DOM.element) (tagName : option string) :
  shape <$> s = shape <$> s' ->
  getElementsByClass_ classes s tagName =
  getElementsByClass_ classes s' tagName.
Proof.
  intros H. unfold getElementsByClass_, DOM.getElementsByTagName.
  rewrite (shapes_length _ _ H).
  assert (E : forall j (f : DOM.element -> bool),
             (forall e e', shape e = shape e' -> f e = f e') ->
             match s !! j with Some e => f e | None => false end =
             match s' !! j with Some e => f e | None => false end).
  { intros j f Hf. pose proof (shapes_lookup s s' j H) as Hj.
    destruct (s !! j) as [e|], (s' !! j) as [e'|]; cbn in Hj;
      try discriminate; [|reflexivity].
    apply Hf. congruence. }
  erewrite (filter_ext
    (fun i => match s !! i with
              | Some child => RegExp.test _ (DOM.className child)
              | None => false
              end)).
  2:{ intros j. apply (E j (fun e => RegExp.test _ (DOM.className e))).
      intros [] [] Hs. injection Hs as -> -> ->. reflexivity. }
  f_equal. apply filter_ext. intros j.
  apply (E j (fun e => String.eqb _ "*" || String.eqb _ _)).
  intros [] [] Hs. injection Hs as -> -> ->. reflexivity.
Qed.

Lemma hideAllErrors_loop_lookup (this : Validation) (refs : list nat)
  (store : list DOM.element) (j : nat) :
  hideAllErrors_loop this refs store !! j =
  if bool_decide (j ∈ refs)
  then DOM.setDisplay "none" <$> store !! j
  else store !! j.
Proof.
  revert store. induction refs as [|i rest IH]; intros store.
  - cbn. rewrite bool_decide_eq_false_2; [reflexivity|apply not_elem_of_nil].
  - cbn [hideAllErrors_loop]. rewrite IH, display_lookup.
    destruct (decide (i = j)) as [->|Hne].
    + rewrite (bool_decide_eq_true_2 (j ∈ j :: rest))
        by (apply elem_of_cons; now left).
      destruct (bool_decide (j ∈ rest)); [|reflexivity].
      destruct (store !! j); reflexivity.
    + apply (f_equal (fun b : bool => if b then _ else _)).
      apply bool_decide_ext. rewrite elem_of_cons. intuition congruence.
Qed.

Lemma hideAllErrors_loop_shapes (this : Validation) (refs : list nat)
  (store : list DOM.element) :
  shape <$> hideAllErrors_loop this refs store = shape <$> store.
Proof.
  revert store. induction refs as [|i rest IH]; intros store;
    [reflexivity|].
  cbn [hideAllErrors_loop]. now rewrite IH, display_shapes.
Qed.

(** Hiding the messages wipes out what was displayed on them before. *)
Lemma hideAllErrors_loop_absorbs (this : Validation) (refs : list nat)
  (s s' : list DOM.element) :
  shape <$> s' = shape <$> s ->
  (forall j, j ∉ refs -> s' !! j = s !! j) ->
  hideAllErrors_loop this refs s' = hideAllErrors_loop this refs s.
Proof.
  intros Hshape Hout. apply list_eq. intros j.
  rewrite !hideAllErrors_loop_lookup.
  destruct (bool_decide (j ∈ refs)) eqn:E.
  - pose proof (shapes_lookup s' s j Hshape) as Hj.
    destruct (s' !! j) as [e'|], (s !! j) as [e|]; cbn in Hj;
      try discriminate; [|reflexivity].
    cbn. f_equal. apply setDisplay_shape. congruence.
  - apply Hout. now apply bool_decide_eq_false in E.
Qed.

(** The loop of [isValid] changes the display of the messages it is
    given, and nothing else. *)
Lemma isValid_loop_store (this : Validation) (form : gmap string DOM.node)
  (refs : list nat) (vars : loopVars) (log : list event)
  (store : list DOM.element) :
  let store' := (isValid_loop StringToNumber this form refs vars log store).2
  in
  shape <$> store' = shape <$> store /\
  (forall j, j ∉ refs -> store' !! j = store !! j).
Proof.
  revert vars log store. induction refs as [|i rest IH];
    intros vars log store; cbn zeta; [now split|].
  cbn [isValid_loop].
  assert (Hstep : forall vars' log' show,
    shape <$> (isValid_loop StringToNumber this form rest vars' log'
                 (display_ this i show store)).2 = shape <$> store /\
    (forall j, j ∉ i :: rest ->
       (isValid_loop StringToNumber this form rest vars' log'
          (display_ this i show store)).2 !! j = store !! j)).
  { intros vars' log' show.
    destruct (IH vars' log' (display_ this i show store)) as [H1 H2].
    split; [now rewrite H1, display_shapes|].
    intros j Hj. rewrite not_elem_of_cons in Hj. destruct Hj as [Hne Hj].
    rewrite (H2 j Hj), display_lookup.
    destruct (decide (i = j)); [congruence | reflexivity]. }
  destruct (store !! i) as [errorMsg|]; [|now split].
  destruct (negb _ && negb _).
  - destruct (check_ _ _ _ _ _) as [[|]|]; [apply Hstep .. | now split].
  - destruct (IH vars (log ++ [Skipped (getFieldName_ this (DOM.id errorMsg)
                         (Some (DOM.className errorMsg)))]) store)
      as [H1 H2].
    split; [exact H1|]. intros j Hj. apply H2.
    rewrite not_elem_of_cons in Hj. tauto.
Qed.

(** C9.  A second call of [isValid] right after a first, with nothing
    changed in between, returns what the first returned (the same
    boolean, or the same exception), does the same to the same messages,
    and leaves the document as the first call left it: the same messages
    are displayed. *)
Theorem isValid_twice (this : Validation) (doc : DOM.document) :
  isValid StringToNumber this (isValid StringToNumber this doc).2 =
  isValid StringToNumber this doc.
Proof.
  destruct doc as [form d0 active loc].
  set (classes := [this.(errorClass); this.(prefix)]).
  set (R := getElementsByClass_ classes d0 this.(errorTag)).
  set (d1 := hideAllErrors_loop this R d0).
  assert (HR1 : getElementsByClass_ classes d1 this.(errorTag) = R).
  { apply getElementsByClass_shapes, hideAllErrors_loop_shapes. }
  set (vars0 :=
         {| valid := true; firstErrorId := ""; lastFailedField := "" |}).
  pose proof (isValid_loop_store this form R vars0 [] d1) as [Hshape Hout].
  destruct (isValid_loop StringToNumber this form R vars0 [] d1)
    as [[o log] d2] eqn:Eloop.
  cbn [snd] in Hshape, Hout.
  assert (HR2 : getElementsByClass_ classes d2 this.(errorTag) = R).
  { rewrite <- HR1. now apply getElementsByClass_shapes. }
  assert (Hhide : hideAllErrors_loop this R d2 = d1).
  { apply hideAllErrors_loop_absorbs.
    - rewrite Hshape. apply hideAllErrors_loop_shapes.
    - intros j Hj. rewrite (Hout j Hj). unfold d1.
      rewrite hideAllErrors_loop_lookup.
      rewrite bool_decide_eq_false_2; [reflexivity | exact Hj]. }
  assert (Hcall : forall d active' loc',
    getElementsByClass_ classes d this.(errorTag) = R ->
    hideAllErrors_loop this R d = d1 ->
    isValid StringToNumber this
      {| DOM.elements := form; DOM.descendants := d;
         DOM.activeElement := active'; DOM.location := loc' |} =
    let doc :=
      {| DOM.elements := form; DOM.descendants := d2;
         DOM.activeElement := active'; DOM.location := loc' |} in
    match o with
    | Throw => (Throw, log, doc)
    | Ok vars =>
        if vars.(valid) then (Ok true, log, doc)
        else
          let doc :=
            if this.(jump)
            then DOM.setLocation
                   (if negb (JS.len this.(anchor) =? 0)%Z then this.(anchor)
                    else "#" +:+ vars.(firstErrorId)) doc
            else doc in
          match focus_ (formGet_ (DOM.elements doc)
                          (getFieldName_ this vars.(firstErrorId) None))
                       doc with
          | (Throw, doc) => (Throw, log, doc)
          | (Ok _, doc) => (Ok false, log, doc)
          end
    end).
  { intros d active' loc' Hd1 Hd2. unfold isValid, hideAllErrors.
    dom_simpl.
    fold classes. rewrite Hd1, Hd2, HR1. fold vars0. rewrite Eloop.
    destruct o; reflexivity. }
  rewrite (Hcall d0 active loc eq_refl eq_refl). cbn zeta.
  destruct o as [vars|]; cbn [snd]; [|now apply Hcall].
  destruct (valid vars) eqn:Ev; cbn [snd].
  { now rewrite (Hcall d2 active loc HR2 Hhide). }
  unfold DOM.setLocation, focus_, DOM.focus, DOM.setActiveElement.
  dom_simpl.
  destruct (jump this) eqn:Ej;
    dom_simpl;
    destruct (formGet_ form (getFieldName_ this (firstErrorId vars) None))
      as [[c|[|c items] v]|] eqn:Eg;
    try destruct (DOM.focusable c) eqn:Ef; cbn [snd];
    rewrite (Hcall d2 _ _ HR2 Hhide); cbn zeta; rewrite ?Ev, ?Ej;
    unfold DOM.setLocation, focus_, DOM.focus, DOM.setActiveElement;
    dom_simpl;
    rewrite Eg, ?Ef; reflexivity.
Qed.

(** *** The loop of isValid *)

Lemma lastFailedIn_snoc (log : list event) (e : event) :
  lastFailedIn (log ++ [e]) =
  match e with
  | Checked f false => f
  | _ => lastFailedIn log
  end.
Proof. unfold lastFailedIn. now rewrite foldl_snoc. Qed.

Lemma followsSkipRule_nil : followsSkipRule [].
Proof. intros before after e H. now destruct before. Qed.

Lemma followsSkipRule_snoc (log : list event) (e : event) :
  followsSkipRule log ->
  (isSkipped e = true <->
   fieldOf e = "" \/ fieldOf e = lastFailedIn log) ->
  followsSkipRule (log ++ [e]).
Proof.
  intros Hlog He before after e0 Heq.
  destruct after as [|x after _] using rev_ind.
  - apply (app_inj_tail log before e e0) in Heq as [-> ->]. exact He.
  - change (before ++ e0 :: after ++ [x])
      with (before ++ (e0 :: after) ++ [x]) in Heq.
    rewrite app_assoc in Heq.
    apply app_inj_tail in Heq as [-> _]. now apply (Hlog before after).
Qed.

Lemma fieldNames_shapes (this : Validation) (s s' : list DOM.element)
  (refs : list nat) :
  shape <$> s = shape <$> s' ->
  fieldNames this s refs = fieldNames this s' refs.
Proof.
  intros H. induction refs as [|i rest IH]; [reflexivity|].
  cbn [fieldNames]. pose proof (shapes_lookup s s' i H) as Hi.
  destruct (s !! i) as [e|], (s' !! i) as [e'|]; cbn in Hi;
    try discriminate; [|reflexivity].
  rewrite IH. f_equal. unfold fieldNameOf.
  destruct e, e'. injection Hi as -> -> ->. reflexivity.
Qed.

(** The loop keeps to the rule, and its variable [lastFailedField] is
    the field of the last failed check. *)
Lemma isValid_loop_follows_rule (this : Validation)
  (form : gmap string DOM.node) (refs : list nat) (vars : loopVars)
  (log : list event) (store : list DOM.element) :
  vars.(lastFailedField) = lastFailedIn log ->
  followsSkipRule log ->
  followsSkipRule
    (isValid_loop StringToNumber this form refs vars log store).1.2.
Proof.
  revert vars log store. induction refs as [|i rest IH];
    intros vars log store Hvar Hlog; [exact Hlog|].
  cbn [isValid_loop].
  destruct (store !! i) as [errorMsg|]; [|exact Hlog].
  set (f := getFieldName_ this (DOM.id errorMsg)
                          (Some (DOM.className errorMsg))).
  destruct (String.eqb f "") eqn:E1; cbn [negb andb].
  { apply IH; [now rewrite lastFailedIn_snoc|].
    apply followsSkipRule_snoc; [exact Hlog|]. cbn.
    apply String.eqb_eq in E1. tauto. }
  destruct (String.eqb f vars.(lastFailedField)) eqn:E2; cbn [negb].
  { apply IH; [now rewrite lastFailedIn_snoc|].
    apply followsSkipRule_snoc; [exact Hlog|]. cbn.
    apply String.eqb_eq in E2. rewrite <- Hvar. tauto. }
  apply String.eqb_neq in E1, E2.
  assert (Hchecked : forall b,
             followsSkipRule (log ++ [Checked f b])).
  { intros b. apply followsSkipRule_snoc; [exact Hlog|]. cbn.
    rewrite <- Hvar. split; [discriminate | tauto]. }
  destruct (check_ _ _ _ _ _) as [[|]|]; [| |exact Hlog].
  - apply IH; [now rewrite lastFailedIn_snoc | apply Hchecked].
  - apply IH; [now rewrite lastFailedIn_snoc | apply Hchecked].
Qed.

(** The log has one entry for each message the loop came to, in order,
    with the field name of that message. *)
Lemma isValid_loop_fields (this : Validation)
  (form : gmap string DOM.node) (refs : list nat) (vars : loopVars)
  (log : list event) (store : list DOM.element) :
  exists done : list string,
    fieldOf <$>
      (isValid_loop StringToNumber this form refs vars log store).1.2
    = (fieldOf <$> log) ++ done /\
    done `prefix_of` fieldNames this store refs.
Proof.
  revert vars log store. induction refs as [|i rest IH];
    intros vars log store.
  { exists []. split; [now rewrite app_nil_r | apply prefix_nil]. }
  cbn [isValid_loop fieldNames].
  destruct (store !! i) as [errorMsg|];
    [|exists []; split; [now rewrite app_nil_r | apply prefix_nil]].
  fold (fieldNameOf this errorMsg).
  set (f := fieldNameOf this errorMsg).
  assert (Hstep : forall vars' ev store',
             fieldOf ev = f -> shape <$> store' = shape <$> store ->
             exists done : list string,
               fieldOf <$>
                 (isValid_loop StringToNumber this form rest vars'
                               (log ++ [ev]) store').1.2
               = (fieldOf <$> log) ++ done /\
               done `prefix_of` f :: fieldNames this store rest).
  { intros vars' ev store' Hev Hshape.
    destruct (IH vars' (log ++ [ev]) store') as (done & H1 & H2).
    exists (f :: done). split.
    - rewrite H1, fmap_app, <- app_assoc. cbn. now rewrite Hev.
    - apply prefix_cons.
      now rewrite <- (fieldNames_shapes this store' store rest Hshape). }
  destruct (negb _ && negb _).
  - destruct (check_ _ _ _ _ _) as [[|]|].
    + apply Hstep; [reflexivity | apply display_shapes].
    + apply Hstep; [reflexivity | apply display_shapes].
    + exists []. split; [now rewrite app_nil_r | apply prefix_nil].
  - now apply Hstep.
Qed.

Lemma isValid_log (this : Validation) (doc : DOM.document) :
  let classes := [this.(errorClass); this.(prefix)] in
  let messages :=
    getElementsByClass_ classes (DOM.descendants doc) this.(errorTag) in
  (isValid StringToNumber this doc).1.2 =
  (isValid_loop StringToNumber this (DOM.elements doc) messages
     {| valid := true; firstErrorId := ""; lastFailedField := "" |} []
     (hideAllErrors_loop this messages (DOM.descendants doc))).1.2.
Proof.
  intros classes messages. unfold isValid, hideAllErrors.
  dom_simpl.
  fold classes. fold messages.
  rewrite (getElementsByClass_shapes classes
             (hideAllErrors_loop this messages (DOM.descendants doc))
             (DOM.descendants doc) this.(errorTag)
             (hideAllErrors_loop_shapes this messages _)).
  fold messages.
  destruct (isValid_loop _ _ _ _ _ _ _) as [[[vars|] log] store];
    [|reflexivity].
  cbn [fst snd]. destruct (valid vars); [reflexivity|].
  destruct (focus_ _ _) as [[|] doc']; reflexivity.
Qed.

(** C1, as amended.  In every call of [isValid] the log of the loop has
    one entry per error message it came to, in order; a message is passed
    over exactly when its field name is empty or is the field of the last
    check that failed before it.  So the message that follows a failed
    check of its own field is passed over, as is the one that follows a
    message of its own field that was passed over, and the message that
    follows a passed check of its own field is checked again. *)
Theorem isValid_skips_last_failed_field (this : Validation)
  (doc : DOM.document) :
  let log := (isValid StringToNumber this doc).1.2 in
  let messages :=
    getElementsByClass_ [this.(errorClass); this.(prefix)]
                        (DOM.descendants doc) this.(errorTag) in
  (fieldOf <$> log) `prefix_of`
    fieldNames this (DOM.descendants doc) messages /\
  followsSkipRule log /\
  (forall (i : nat) (f : string) (e' : event),
      log !! i = Some (Checked f false) -> log !! S i = Some e' ->
      fieldOf e' = f -> e' = Skipped f) /\
  (forall (i : nat) (f : string) (e' : event),
      log !! i = Some (Checked f true) -> log !! S i = Some e' ->
      fieldOf e' = f -> isSkipped e' = false) /\
  (forall (i : nat) (f : string) (e' : event),
      log !! i = Some (Skipped f) -> log !! S i = Some e' ->
      fieldOf e' = f -> isSkipped e' = true).
Proof.
  intros log messages.
  assert (Hrule : followsSkipRule log).
  { unfold log. rewrite isValid_log.
    apply isValid_loop_follows_rule;
      [reflexivity | apply followsSkipRule_nil]. }
  assert (Hnext : forall i e e',
             log !! i = Some e -> log !! S i = Some e' ->
             (isSkipped e = true <->
              fieldOf e = "" \/ fieldOf e = lastFailedIn (take i log)) /\
             (isSkipped e' = true <->
              fieldOf e' = "" \/
              fieldOf e' = lastFailedIn (take i log ++ [e]))).
  { intros i e e' Hi Hi'. split.
    - apply (Hrule (take i log) (drop (S i) log)).
      symmetry. now apply take_drop_middle.
    - rewrite <- (take_S_r log i e Hi).
      apply (Hrule (take (S i) log) (drop (S (S i)) log)).
      symmetry. now apply take_drop_middle. }
  split; [|split; [exact Hrule|split; [|split]]].
  - unfold log. rewrite isValid_log. fold messages.
    destruct (isValid_loop_fields this (DOM.elements doc) messages
                {| valid := true; firstErrorId := "";
                   lastFailedField := "" |} []
                (hideAllErrors_loop this messages (DOM.descendants doc)))
      as (done & H1 & H2).
    rewrite H1. cbn [fmap list_fmap app].
    now rewrite <- (fieldNames_shapes this _ _ messages
                      (hideAllErrors_loop_shapes this messages
                         (DOM.descendants doc))).
  - intros i f e' Hi Hi' Hf.
    destruct (Hnext i _ _ Hi Hi') as [_ H2].
    rewrite lastFailedIn_snoc, Hf in H2.
    assert (Hs : isSkipped e' = true) by (apply H2; now right).
    destruct e'; [cbn in Hf; now subst | discriminate].
  - intros i f e' Hi Hi' Hf.
    destruct (Hnext i _ _ Hi Hi') as [H1 H2].
    rewrite lastFailedIn_snoc, Hf in H2. cbn in H1.
    destruct (isSkipped e'); [|reflexivity].
    exfalso. destruct H1 as [_ H1].
    assert (H : true = true) by reflexivity.
    apply H2 in H. apply H1 in H. discriminate H.
  - intros i f e' Hi Hi' Hf.
    destruct (Hnext i _ _ Hi Hi') as [H1 H2].
    rewrite lastFailedIn_snoc, Hf in H2. cbn in H1.
    apply H2, H1. reflexivity.
Qed.

(** *** The patterns *)

Lemma bit_double_0 (X : N) : bit (N.double X) 0 = false.
Proof. unfold bit. rewrite N.double_spec. apply N.testbit_even_0. Qed.

Lemma bit_double_S (X : N) (n : nat) : bit (N.double X) (S n) = bit X n.
Proof.
  unfold bit. rewrite N.double_spec, Nat2N.inj_succ.
  apply N.testbit_even_succ. apply N.le_0_l.
Qed.

Lemma bit_lor (X Y : N) (n : nat) : bit (N.lor X Y) n = bit X n || bit Y n.
Proof. apply N.lor_spec. Qed.

Lemma bit_land (X Y : N) (n : nat) :
  bit (N.land X Y) n = bit X n && bit Y n.
Proof. apply N.land_spec. Qed.

Lemma bit_b2n (b : bool) (n : nat) :
  bit (N.b2n b) n = match n with O => b | S _ => false end.
Proof.
  unfold bit. destruct n as [|n].
  - apply N.b2n_bit0.
  - destruct b; cbn [N.b2n].
    + rewrite Nat2N.inj_succ. apply (N.bits_above_log2 1). cbn.
      apply N.lt_0_succ.
    + apply N.bits_0.
Qed.

(** The characters of [s] at the positions of [mask p s] satisfy [p]. *)
Lemma bit_mask (p : ascii -> bool) (s : string) (n : nat) :
  bit (RegExp.mask p s) n =
  match String.get n s with
  | Some c => p c
  | None => false
  end.
Proof.
  revert n. induction s as [|c s IH]; intros n; cbn [RegExp.mask String.get].
  - unfold bit. apply N.bits_0.
  - rewrite bit_lor, bit_b2n. destruct n as [|n].
    + now rewrite bit_double_0, orb_false_r.
    + now rewrite bit_double_S, IH.
Qed.

Lemma bit_advance (p : ascii -> bool) (s : string) (X : N) (n : nat) :
  bit (RegExp.advance p s X) n =
  match n with
  | O => false
  | S n' => bit X n' && match String.get n' s with
                        | Some c => p c
                        | None => false
                        end
  end.
Proof.
  unfold RegExp.advance. destruct n as [|n].
  - apply bit_double_0.
  - now rewrite bit_double_S, bit_land, bit_mask.
Qed.

Lemma goodPrefix_S (p : ascii -> bool) (n : nat) (s : string) :
  goodPrefix p (S n) s =
  goodPrefix p n s && match String.get n s with
                      | Some c => p c
                      | None => false
                      end.
Proof.
  revert s. induction n as [|n IH]; intros s.
  - destruct s as [|c s]; cbn; [reflexivity|]. now rewrite andb_true_r.
  - destruct s as [|c s]; [reflexivity|].
    change (goodPrefix p (S (S n)) (String c s))
      with (p c && goodPrefix p (S n) s).
    rewrite IH. cbn [goodPrefix String.get]. now rewrite andb_assoc.
Qed.

Lemma goodPrefix_length (p : ascii -> bool) (s : string) :
  goodPrefix p (String.length s) s =
  forallb p (list_ascii_of_string s).
Proof. induction s as [|c s IH]; cbn; [reflexivity|]. now rewrite IH. Qed.

Lemma reached_step (p : ascii -> bool) (s : string) (j : nat) (Y : N) :
  (1 <= j)%nat -> reached p s j Y ->
  reached p s (S j) (N.lor Y (RegExp.advance p s Y)).
Proof.
  intros Hj HY n. rewrite bit_lor, bit_advance, HY.
  destruct n as [|n]; [reflexivity|].
  rewrite HY, goodPrefix_S.
  destruct (goodPrefix p n s); [|now rewrite !andb_false_r].
  destruct (String.get n s) as [c|]; [|now rewrite !andb_false_r].
  destruct (p c); [|now rewrite !andb_false_r].
  rewrite !andb_true_r.
  apply eq_true_iff_eq.
  rewrite ?orb_true_iff, ?andb_true_iff, ?Nat.leb_le. lia.
Qed.

Lemma N_bits_eq (X Y : N) : (forall n, bit X n = bit Y n) -> X = Y.
Proof.
  intros H. apply N.bits_inj. intros n.
  specialize (H (N.to_nat n)). unfold bit in H. now rewrite N2Nat.id in H.
Qed.

Lemma reached_closure (p : ascii -> bool) (s : string) (fuel j : nat)
  (Y : N) :
  (1 <= j)%nat -> reached p s j Y ->
  reached p s (j + fuel) (RegExp.closure (RegExp.advance p s) fuel Y).
Proof.
  revert j Y. induction fuel as [|fuel IH]; intros j Y Hj HY.
  - now rewrite Nat.add_0_r.
  - cbn [RegExp.closure]. pose proof (reached_step p s j Y Hj HY) as Hstep.
    destruct (N.eqb_spec (N.lor Y (RegExp.advance p s Y)) Y) as [E|_].
    + rewrite E in Hstep. clear IH.
      assert (Hall : forall m, reached p s (j + m) Y).
      { induction m as [|m IHm]; [now rewrite Nat.add_0_r|].
        rewrite Nat.add_succ_r. rewrite <- E.
        apply reached_step; [lia | exact IHm]. }
      apply Hall.
    + replace (j + S fuel)%nat with (S j + fuel)%nat by lia.
      apply IH; [lia | exact Hstep].
Qed.

Lemma land_bit_nonzero (X : N) (n : nat) :
  negb (N.eqb (N.land X (N.shiftl 1 (N.of_nat n))) 0) = bit X n.
Proof.
  rewrite N.shiftl_1_l. unfold bit.
  destruct (N.testbit X (N.of_nat n)) eqn:E.
  - apply negb_true_iff, N.eqb_neq. intros H.
    assert (Hb : N.testbit (N.land X (2 ^ N.of_nat n)) (N.of_nat n) = true)
      by (rewrite N.land_spec, E, N.pow2_bits_true; reflexivity).
    rewrite H, N.bits_0 in Hb. discriminate Hb.
  - apply negb_false_iff, N.eqb_eq. apply N.bits_inj_0. intros m.
    rewrite N.land_spec.
    destruct (N.eq_dec (N.of_nat n) m) as [<-|Hne].
    + now rewrite E.
    + now rewrite (N.pow2_bits_false _ _ Hne), andb_false_r.
Qed.

(** The email-local pattern [^.{1,255}$] matches the strings of 1 to 255
    characters none of which is a line terminator. *)
Lemma email_local_matches (s : string) :
  RegExp.test Patterns.email_local s =
  (1 <=? String.length s)%nat && (String.length s <=? 255)%nat
  && forallb (fun c => negb (RegExp.lineTerminator c))
             (list_ascii_of_string s).
Proof.
  unfold RegExp.test, Patterns.email_local.
  cbn [RegExp.seqs RegExp.step Nat.iter nat_rect Nat.sub].
  set (p := fun c => negb (RegExp.lineTerminator c)).
  set (L := String.length s).
  assert (H0 : N.land (N.ones (N.of_nat (S L))) 1 = 1%N).
  { apply N_bits_eq. intros n. rewrite bit_land. unfold bit.
    destruct n as [|n].
    - rewrite N.ones_spec_low; [reflexivity|]. lia.
    - rewrite (N.bits_above_log2 1); [apply andb_false_r|]. cbn. lia. }
  rewrite H0.
  assert (H1 : reached p s 1 (RegExp.advance p s 1)).
  { intros n. rewrite bit_advance. destruct n as [|n]; [reflexivity|].
    rewrite goodPrefix_S. unfold bit at 1.
    destruct n as [|n].
    - cbn. destruct (String.get 0 s) as [c|]; [|reflexivity].
      reflexivity.
    - rewrite (N.bits_above_log2 1); [|cbn; lia]. reflexivity. }
  pose proof (reached_closure p s 254 1 _ (le_n 1) H1) as H255.
  rewrite land_bit_nonzero, H255. unfold L.
  rewrite goodPrefix_length. reflexivity.
Qed.

(** *** What hideAllErrors and isValid do to the page *)

Lemma bfilter_elem_of {A : Type} (f : A -> bool) (l : list A) (x : A) :
  x ∈ List.filter f l <-> x ∈ l /\ f x = true.
Proof. rewrite !list_elem_of_In. apply filter_In. Qed.

Lemma bfilter_NoDup {A : Type} (f : A -> bool) (l : list A) :
  NoDup l -> NoDup (List.filter f l).
Proof.
  induction 1 as [|x l Hx Hl IH]; cbn; [constructor|].
  destruct (f x); [|exact IH].
  constructor; [|exact IH]. rewrite bfilter_elem_of. tauto.
Qed.

(** [getElementsByClass_] returns each element it finds once, and only
    references to descendants that are there. *)
Lemma getElementsByClass_NoDup (classes : list string)
  (store : list DOM.element) (tagName : option string) :
  NoDup (getElementsByClass_ classes store tagName) /\
  (forall i, i ∈ getElementsByClass_ classes store tagName ->
             is_Some (store !! i)).
Proof.
  unfold getElementsByClass_, DOM.getElementsByTagName. split.
  - apply bfilter_NoDup, bfilter_NoDup, NoDup_seq.
  - intros i Hi. apply bfilter_elem_of in Hi as [_ Hi].
    destruct (store !! i); [eauto | discriminate].
Qed.

Lemma errorMessages_hidden (this : Validation) (doc : DOM.document) :
  errorMessages this (hideAllErrors this doc) = errorMessages this doc.
Proof.
  unfold errorMessages, hideAllErrors. dom_simpl.
  apply getElementsByClass_shapes, hideAllErrors_loop_shapes.
Qed.

(** X1.  [hideAllErrors] sets the display of every error message to
    none, leaves every other element, the controls, the focus and the
    location as they are, and a second call changes nothing more. *)
Theorem hideAllErrors_hides_every_message (this : Validation)
  (doc : DOM.document) :
  let doc' := hideAllErrors this doc in
  (forall i, i ∈ errorMessages this doc ->
     exists e, DOM.descendants doc !! i = Some e /\
               DOM.descendants doc' !! i = Some (DOM.setDisplay "none" e)) /\
  (forall i, i ∉ errorMessages this doc ->
     DOM.descendants doc' !! i = DOM.descendants doc !! i) /\
  DOM.elements doc' = DOM.elements doc /\
  DOM.activeElement doc' = DOM.activeElement doc /\
  DOM.location doc' = DOM.location doc /\
  hideAllErrors this doc' = doc'.
Proof.
  intros doc'. unfold doc'.
  assert (Hlook : forall i,
    DOM.descendants (hideAllErrors this doc) !! i =
    if bool_decide (i ∈ errorMessages this doc)
    then DOM.setDisplay "none" <$> DOM.descendants doc !! i
    else DOM.descendants doc !! i).
  { intros i. unfold hideAllErrors. dom_simpl.
    apply hideAllErrors_loop_lookup. }
  split; [|split; [|split; [|split; [|split]]]]; try reflexivity.
  - intros i Hi. rewrite Hlook, bool_decide_eq_true_2 by exact Hi.
    destruct (proj2 (getElementsByClass_NoDup _ _ _) i Hi) as [e He].
    exists e. now rewrite He.
  - intros i Hi. now rewrite Hlook, bool_decide_eq_false_2.
  - pose proof (errorMessages_hidden this doc) as Hm.
    unfold errorMessages in Hm.
    unfold hideAllErrors at 1. rewrite Hm.
    unfold hideAllErrors. dom_simpl. unfold DOM.setDescendants. dom_simpl.
    f_equal. apply list_eq. intros j.
    rewrite !hideAllErrors_loop_lookup.
    destruct (bool_decide _); [|reflexivity].
    now destruct (DOM.descendants doc !! j).
Qed.

(** [isValid] spelled out: the loop runs on the hidden messages, and the
    end of the call depends on its outcome. *)
Lemma isValid_unfold (this : Validation) (doc : DOM.document) :
  let messages := errorMessages this doc in
  let hidden := hideAllErrors_loop this messages (DOM.descendants doc) in
  isValid StringToNumber this doc =
  match isValid_loop StringToNumber this (DOM.elements doc) messages
          {| valid := true; firstErrorId := ""; lastFailedField := "" |}
          [] hidden with
  | (Throw, log, store) => (Throw, log, DOM.setDescendants store doc)
  | (Ok vars, log, store) =>
      let doc := DOM.setDescendants store doc in
      if vars.(valid) then (Ok true, log, doc)
      else
        let doc :=
          if this.(jump)
          then DOM.setLocation
                 (if negb (JS.len this.(anchor) =? 0)%Z then this.(anchor)
                  else "#" +:+ vars.(firstErrorId))
                 doc
          else doc in
        match focus_ (formGet_ (DOM.elements doc)
                        (getFieldName_ this vars.(firstErrorId) None))
                     doc with
        | (Throw, doc) => (Throw, log, doc)
        | (Ok _, doc) => (Ok false, log, doc)
        end
  end.
Proof.
  intros messages hidden. unfold isValid.
  pose proof (errorMessages_hidden this doc) as Hm.
  unfold errorMessages in Hm. rewrite Hm. fold (errorMessages this doc).
  fold messages. unfold hideAllErrors. fold (errorMessages this doc).
  fold messages. dom_simpl. fold hidden.
  destruct (isValid_loop _ _ _ _ _ _ _) as [[[vars|] log] store];
    reflexivity.
Qed.

Lemma focus_frame (field : option DOM.node) (doc : DOM.document) :
  DOM.elements (focus_ field doc).2 = DOM.elements doc /\
  DOM.descendants (focus_ field doc).2 = DOM.descendants doc /\
  DOM.location (focus_ field doc).2 = DOM.location doc.
Proof.
  destruct field as [[c|[|c items] v]|]; cbn [focus_ snd];
    unfold DOM.focus; try destruct (DOM.focusable c); repeat split.
Qed.

(** X2.  [isValid] changes the display of error messages, the focus and
    the location, and nothing else: the controls of the form, and the
    identifier, class name and tag of every element stay as they are,
    and an element that is no error message keeps its display too. *)
Theorem isValid_changes_displays_only (this : Validation)
  (doc : DOM.document) :
  let doc' := (isValid StringToNumber this doc).2 in
  DOM.elements doc' = DOM.elements doc /\
  shape <$> DOM.descendants doc' = shape <$> DOM.descendants doc /\
  (forall i, i ∉ errorMessages this doc ->
     DOM.descendants doc' !! i = DOM.descendants doc !! i).
Proof.
  intros doc'. unfold doc'. rewrite isValid_unfold. cbv zeta.
  set (messages := errorMessages this doc).
  set (hidden := hideAllErrors_loop this messages (DOM.descendants doc)).
  pose proof (isValid_loop_store this (DOM.elements doc) messages
                {| valid := true; firstErrorId := "";
                   lastFailedField := "" |} [] hidden) as [Hshape Hout].
  destruct (isValid_loop _ _ _ _ _ _ _) as [[o log] store].
  cbn [snd] in Hshape, Hout.
  assert (Hstore :
    shape <$> store = shape <$> DOM.descendants doc /\
    (forall i, i ∉ messages -> store !! i = DOM.descendants doc !! i)).
  { split.
    - rewrite Hshape. apply hideAllErrors_loop_shapes.
    - intros i Hi. rewrite (Hout i Hi). unfold hidden.
      now rewrite hideAllErrors_loop_lookup, bool_decide_eq_false_2. }
  destruct o as [vars|]; [|exact (conj eq_refl Hstore)].
  destruct (valid vars); [exact (conj eq_refl Hstore)|].
  match goal with
  | |- context [focus_ ?f ?d] =>
      pose proof (focus_frame f d) as (He & Hd & _);
      destruct (focus_ f d) as [[u|] d']
  end; cbn [snd] in *; rewrite He, Hd;
    destruct (jump this); exact (conj eq_refl Hstore).
Qed.

Lemma fmap_setDisplay_twice (d d' : string) (o : option DOM.element) :
  DOM.setDisplay d <$> (DOM.setDisplay d' <$> o) = DOM.setDisplay d <$> o.
Proof. now destruct o. Qed.

(** Once a check has failed, the loop keeps [valid] false and the first
    error as it is. *)
Lemma isValid_loop_after_failure (this : Validation)
  (form : gmap string DOM.node) (refs : list nat) (vars vars' : loopVars)
  (log log' : list event) (store store' : list DOM.element) :
  isValid_loop StringToNumber this form refs vars log store
  = (Ok vars', log', store') ->
  vars.(valid) = false ->
  vars'.(valid) = false /\ vars'.(firstErrorId) = vars.(firstErrorId).
Proof.
  revert vars log store. induction refs as [|i rest IH];
    intros vars log store Hloop Hvalid; cbn [isValid_loop] in Hloop.
  - injection Hloop as <- _ _. now split.
  - destruct (store !! i) as [errorMsg|]; [|discriminate Hloop].
    destruct (negb _ && negb _).
    + destruct (check_ _ _ _ _ _) as [[|]|]; [| |discriminate Hloop].
      * now apply (IH _ _ _ Hloop).
      * apply IH in Hloop as [H1 H2]; [|reflexivity].
        split; [exact H1|]. rewrite H2. unfold isValid_fail.
        cbn. now rewrite Hvalid.
    + now apply (IH _ _ _ Hloop).
Qed.

(** A loop that ends with [valid] still true has changed no variable and
    has at most hidden messages. *)
Lemma isValid_loop_all_passed (this : Validation)
  (form : gmap string DOM.node) (refs : list nat) (vars vars' : loopVars)
  (log log' : list event) (store store' : list DOM.element) :
  isValid_loop StringToNumber this form refs vars log store
  = (Ok vars', log', store') ->
  vars'.(valid) = true ->
  vars' = vars /\
  (forall j, store' !! j = store !! j \/
             store' !! j = DOM.setDisplay "none" <$> store !! j).
Proof.
  revert vars log store. induction refs as [|i rest IH];
    intros vars log store Hloop Hvalid; cbn [isValid_loop] in Hloop.
  - injection Hloop as <- _ <-. split; [reflexivity | now left].
  - destruct (store !! i) as [errorMsg|]; [|discriminate Hloop].
    destruct (negb _ && negb _).
    + destruct (check_ _ _ _ _ _) as [[|]|]; [| |discriminate Hloop].
      * destruct (IH _ _ _ Hloop Hvalid) as [H1 H2].
        split; [exact H1|]. intros j. specialize (H2 j).
        rewrite display_lookup in H2.
        destruct (decide (i = j)); [|exact H2].
        rewrite fmap_setDisplay_twice in H2. tauto.
      * apply isValid_loop_after_failure in Hloop as [H _];
          [congruence | reflexivity].
    + now apply (IH _ _ _ Hloop).
Qed.

(** X3.  A call of [isValid] that returns true leaves the page as
    [hideAllErrors] leaves it: every error message is hidden, and the
    focus and the location are not touched. *)
Theorem isValid_true_hides_every_message (this : Validation)
  (doc doc' : DOM.document) (log : list event) :
  isValid StringToNumber this doc = (Ok true, log, doc') ->
  doc' = hideAllErrors this doc.
Proof.
  rewrite isValid_unfold. cbv zeta.
  set (messages := errorMessages this doc).
  set (hidden := hideAllErrors_loop this messages (DOM.descendants doc)).
  pose proof (isValid_loop_store this (DOM.elements doc) messages
                {| valid := true; firstErrorId := "";
                   lastFailedField := "" |} [] hidden) as [_ Hout].
  destruct (isValid_loop _ _ _ _ _ _ _) as [[[vars|] log0] store] eqn:Eloop;
    [|discriminate].
  cbn [snd] in Hout.
  destruct (valid vars) eqn:Ev.
  - intros H. injection H as _ <-.
    unfold hideAllErrors. fold (errorMessages this doc). fold messages.
    fold hidden. f_equal.
    destruct (isValid_loop_all_passed _ _ _ _ _ _ _ _ _ Eloop Ev)
      as [_ Hall].
    apply list_eq. intros j.
    destruct (decide (j ∈ messages)) as [Hj|Hj]; [|now apply Hout].
    destruct (Hall j) as [H|H]; [exact H|]. rewrite H. unfold hidden.
    rewrite hideAllErrors_loop_lookup, bool_decide_eq_true_2 by exact Hj.
    apply fmap_setDisplay_twice.
  - destruct (focus_ _ _) as [[u|] d']; discriminate.
Qed.



(** *** Checks by control type *)

(** X5.  A control that stands alone under its name and is exempt from
    validation passes, whatever its value and the class names of the
    message are: a disabled control of any type but radio, a read-only
    text, password or textarea control, and a control of a type that
    [check_] has no case for (button, hidden, submit and so on).  No rule
    is evaluated, so that not even an unknown rule makes the check
    throw. *)
Theorem check_exempt_control_passes (this : Validation)
  (form : gmap string DOM.node) (fieldName className : string)
  (c : DOM.control) :
  formGet_ form fieldName = Some (DOM.Single c) ->
  (DOM.disabled c = true /\ DOM.type c <> "radio") \/
  (DOM.readonly c = true /\
   DOM.type c ∈ ["text"; "password"; "textarea"]) \/
  DOM.type c ∉ ["checkbox"; "text"; "password"; "select-one";
                "select-multiple"; "textarea"; "file"; "radio"] ->
  check_ StringToNumber this form fieldName className = Ok true.
Proof.
  intros Hget Hex. unfold check_. rewrite Hget.
  cbn [controlType]. unfold mbind, JS.outcome_bind.
  destruct Hex as [[Hd Hr]|[[Hro Hty]|Hty]].
  - destruct (String.eqb_spec (DOM.type c) "checkbox") as [_|_].
    { unfold checkCheckbox_. rewrite Hget, Hd. reflexivity. }
    destruct (String.eqb (DOM.type c) "text"
              || String.eqb (DOM.type c) "password").
    { unfold checkText_. rewrite Hget. cbn. rewrite Hd. reflexivity. }
    destruct (String.eqb (DOM.type c) "select-one"
              || String.eqb (DOM.type c) "select-multiple").
    { unfold checkSelect_. rewrite Hget. cbn. rewrite Hd. reflexivity. }
    destruct (String.eqb (DOM.type c) "textarea").
    { unfold checkTextArea_. rewrite Hget. cbn. rewrite Hd. reflexivity. }
    destruct (String.eqb (DOM.type c) "file").
    { unfold checkFileUpload_. rewrite Hget. cbn. rewrite Hd.
      reflexivity. }
    destruct (String.eqb_spec (DOM.type c) "radio") as [E|_];
      [contradiction | reflexivity].
  - assert (Hgo : forall className,
               checkText_ StringToNumber this form fieldName className
               = Ok true).
    { intros cn. unfold checkText_. rewrite Hget. cbn. rewrite Hro.
      destruct (DOM.disabled c); reflexivity. }
    assert (Hta : checkTextArea_ form fieldName = Ok true).
    { unfold checkTextArea_. rewrite Hget. cbn. rewrite Hro.
      destruct (DOM.disabled c); reflexivity. }
    rewrite !elem_of_cons in Hty.
    destruct Hty as [E|[E|[E|E]]]; try (rewrite E; cbn; auto; fail).
    now apply elem_of_nil in E.
  - rewrite !not_elem_of_cons in Hty.
    destruct Hty as (H1 & H2 & H3 & H4 & H5 & H6 & H7 & H8 & _).
    apply String.eqb_neq in H1, H2, H3, H4, H5, H6, H7, H8.
    now rewrite H1, H2, H3, H4, H5, H6, H7, H8.
Qed.

(** X7.  Controls that share a name.  Checkboxes pass exactly when one
    of them is checked and not disabled: unlike a checkbox that stands
    alone, which passes when it is disabled, a list of disabled
    checkboxes fails.  Radio buttons pass exactly when one of them is
    checked, disabled or not. *)
Theorem check_checkbox_and_radio_groups (this : Validation)
  (form : gmap string DOM.node) (fieldName className v : string)
  (c : DOM.control) (items : list DOM.control) :
  formGet_ form fieldName = Some (DOM.Group (c :: items) v) ->
  let result := check_ StringToNumber this form fieldName className in
  (DOM.type c = "checkbox" ->
   result =
   Ok (bool_decide
         (Exists (fun x => DOM.disabled x = false /\ DOM.checked x = true)
                 (c :: items))) /\
   (Forall (fun x => DOM.disabled x = true) (c :: items) ->
    result = Ok false)) /\
  (DOM.type c = "radio" ->
   result =
   Ok (bool_decide (Exists (fun x => DOM.checked x = true) (c :: items)))).
Proof.
  intros Hget result.
  assert (Hdecide : forall (f : DOM.control -> bool)
                      (P : DOM.control -> Prop)
                      `{!forall x, Decision (P x)} (l : list DOM.control),
             (forall x, f x = true <-> P x) ->
             existsb f l = bool_decide (Exists P l)).
  { intros f P HP l Hf. destruct (existsb f l) eqn:E; symmetry.
    - apply bool_decide_eq_true. apply existsb_exists in E.
      destruct E as (x & Hx & Hb). apply Exists_exists. exists x.
      apply list_elem_of_In in Hx. split; [exact Hx | now apply Hf].
    - apply bool_decide_eq_false. intros H. apply Exists_exists in H.
      destruct H as (x & Hx & HPx).
      assert (Hex : existsb f l = true).
      { apply existsb_exists. exists x. split.
        - now apply list_elem_of_In.
        - now apply Hf. }
      rewrite Hex in E. discriminate E. }
  split.
  - intros Hty.
    assert (Hcheck :
      result =
      Ok (existsb (fun x => negb (DOM.disabled x) && DOM.checked x)
                  (c :: items))).
    { unfold result, check_. rewrite Hget. cbn [controlType].
      unfold mbind, JS.outcome_bind. rewrite Hty.
      change (String.eqb "checkbox" "checkbox") with true. cbv iota.
      unfold checkCheckbox_. rewrite Hget. reflexivity. }
    split.
    + rewrite Hcheck. f_equal. apply Hdecide. intros x.
      rewrite andb_true_iff, negb_true_iff. reflexivity.
    + intros Hall. rewrite Hcheck. f_equal.
      apply not_true_is_false. intros H.
      apply existsb_exists in H. destruct H as (x & Hx & Hb).
      rewrite Forall_forall in Hall.
      apply list_elem_of_In in Hx.
      rewrite (Hall x Hx) in Hb. discriminate Hb.
  - intros Hty. unfold result, check_. rewrite Hget. cbn [controlType].
    unfold mbind, JS.outcome_bind. rewrite Hty.
    cbn [String.eqb Ascii.eqb Bool.eqb orb].
    unfold checkRadio_. rewrite Hget. f_equal. apply Hdecide.
    intros x. reflexivity.
Qed.

(** X8.  A select control that is not disabled passes exactly when the
    value of its selected option is not empty; the check throws exactly
    when no option is selected (the index is -1, or otherwise outside the
    options).  A list of controls whose first is a select always throws. *)
Theorem check_select (this : Validation)
  (form : gmap string DOM.node) (fieldName className : string)
  (c : DOM.control) :
  formGet_ form fieldName = Some (DOM.Single c) ->
  DOM.type c = "select-one" \/ DOM.type c = "select-multiple" ->
  DOM.disabled c = false ->
  let result := check_ StringToNumber this form fieldName className in
  (forall value : string,
      (0 <= DOM.selectedIndex c)%Z ->
      DOM.options c !! Z.to_nat (DOM.selectedIndex c) = Some value ->
      result = Ok (negb (String.eqb value ""))) /\
  (result = Throw <->
   ~ (0 <= DOM.selectedIndex c < Z.of_nat (length (DOM.options c)))%Z).
Proof.
  intros Hget Hty Hd result.
  assert (Hres : result =
    if (DOM.selectedIndex c <? 0)%Z then Throw
    else match DOM.options c !! Z.to_nat (DOM.selectedIndex c) with
         | Some value => Ok (hasValue_ value)
         | None => Throw
         end).
  { unfold result, check_. rewrite Hget. cbn [controlType].
    unfold mbind, JS.outcome_bind.
    destruct Hty as [E|E]; rewrite E; cbn;
      unfold checkSelect_; rewrite Hget; cbn; rewrite Hd; reflexivity. }
  split.
  - intros value H0 Hv. rewrite Hres, Hv.
    destruct (Z.ltb_spec (DOM.selectedIndex c) 0) as [Hlt|_]; [lia|].
    unfold hasValue_. now rewrite len_zero_eqb.
  - rewrite Hres.
    destruct (Z.ltb_spec (DOM.selectedIndex c) 0) as [Hlt|Hge].
    + split; [lia | reflexivity].
    + destruct (DOM.options c !! Z.to_nat (DOM.selectedIndex c)) as [value|]
        eqn:Ev.
      * apply lookup_lt_Some in Ev. split; [discriminate | lia].
      * apply lookup_ge_None in Ev. split; [lia | reflexivity].
Qed.

(** X22.  The class names of the message are read for text, password and
    file controls only: for a control of any other type the check gives
    the same result whatever the class names are.  A textarea that is
    neither disabled nor read-only passes exactly when its value is not
    empty, even under a class name that asks for more. *)
Theorem check_reads_class_names_for_text_only (this : Validation)
  (form : gmap string DOM.node) (fieldName type : string) :
  controlType (formGet_ form fieldName) = Ok type ->
  type ∉ ["text"; "password"; "file"] ->
  (forall className className' : string,
      check_ StringToNumber this form fieldName className
      = check_ StringToNumber this form fieldName className') /\
  (forall (c : DOM.control) (className : string),
      formGet_ form fieldName = Some (DOM.Single c) ->
      type = "textarea" ->
      DOM.disabled c = false -> DOM.readonly c = false ->
      check_ StringToNumber this form fieldName className
      = Ok (negb (String.eqb (DOM.value c) ""))).
Proof.
  intros Htype Hnot. rewrite !not_elem_of_cons in Hnot.
  destruct Hnot as (H1 & H2 & H3 & _).
  apply String.eqb_neq in H1, H2, H3.
  assert (Hcheck : forall className,
    check_ StringToNumber this form fieldName className =
    if String.eqb type "checkbox" then checkCheckbox_ form fieldName
    else if String.eqb type "select-one"
            || String.eqb type "select-multiple"
    then checkSelect_ form fieldName
    else if String.eqb type "textarea" then checkTextArea_ form fieldName
    else if String.eqb type "radio" then checkRadio_ form fieldName
    else Ok true).
  { intros className. unfold check_. rewrite Htype.
    unfold mbind, JS.outcome_bind. rewrite H1, H2, H3. reflexivity. }
  split.
  - intros className className'. now rewrite !Hcheck.
  - intros c className Hget -> Hd Hro. rewrite Hcheck.
    cbn [String.eqb Ascii.eqb Bool.eqb orb].
    unfold checkTextArea_. rewrite Hget. cbn. rewrite Hd, Hro.
    unfold hasValue_. now rewrite len_zero_eqb.
Qed.

(** *** Class names and rules *)

Lemma split_append (sep : ascii) (a b : string) :
  occurs sep a = false ->
  JS.split sep (a +:+ String sep b) = a :: JS.split sep b.
Proof.
  induction a as [|c a IH]; intros H.
  - rewrite append_nil. cbn. now rewrite Ascii.eqb_refl.
  - rewrite append_String. cbn in H. apply orb_false_iff in H as [Hc Ha].
    cbn [JS.split]. rewrite Hc, (IH Ha). reflexivity.
Qed.

Lemma split_hyphenated (segments : list string) :
  segments <> [] ->
  Forall (fun s => occurs "-" s = false) segments ->
  JS.split "-" (hyphenated segments) = segments.
Proof.
  induction segments as [|s rest IH]; intros Hne Hall; [congruence|].
  apply Forall_cons in Hall as [Hs Hrest].
  destruct rest as [|s' rest'].
  - cbn. now apply split_absent.
  - change (hyphenated (s :: s' :: rest'))
      with (s +:+ String "-" (hyphenated (s' :: rest'))).
    rewrite (split_append _ _ _ Hs), IH; [reflexivity|discriminate|exact Hrest].
Qed.

Lemma split_pieces (sep : ascii) (s : string) :
  Forall (fun piece => occurs sep piece = false) (JS.split sep s).
Proof.
  induction s as [|c s IH]; cbn.
  - repeat constructor.
  - destruct (Ascii.eqb c sep) eqn:Ec.
    + constructor; [reflexivity | exact IH].
    + destruct (JS.split sep s) as [|w ws].
      * repeat constructor. cbn. now rewrite Ec.
      * apply Forall_cons in IH as [Hw Hws].
        constructor; [cbn; now rewrite Ec, Hw | exact Hws].
Qed.

Lemma indexOf_prefix (p x : string) : JS.indexOf (p +:+ x) p = 0%Z.
Proof.
  unfold JS.indexOf.
  assert (H : String.prefix p (p +:+ x) = true).
  { apply String.prefix_correct. apply take_append. }
  revert H. destruct (p +:+ x); intros H; cbn [JS.indexOf_from];
    now rewrite H.
Qed.

Lemma filter_segments (l : list string) :
  Forall (fun s => isSegment s = true) l ->
  List.filter (fun a => negb (JS.len a =? 0)%Z) l = l.
Proof.
  induction 1 as [|s l Hs Hl IH]; [reflexivity|].
  cbn. rewrite len_zero_eqb, IH.
  unfold isSegment in Hs. apply andb_true_iff in Hs as [-> _]. reflexivity.
Qed.

Lemma segments_hyphen_free (l : list string) :
  Forall (fun s => isSegment s = true) l ->
  Forall (fun s => occurs "-" s = false) l.
Proof.
  intros H. eapply Forall_impl; [exact H|]. intros s Hs.
  unfold isSegment in Hs.
  apply andb_true_iff in Hs as [_ Hs]. now apply negb_true_iff in Hs.
Qed.

Lemma splitClassName_hyphenated (this : Validation) (m : string)
  (arguments : list string) :
  Forall (fun s => isSegment s = true) (m :: arguments) ->
  splitClassName_ this (this.(prefix) +:+ hyphenated (m :: arguments))
  = {| method := m; args := arguments |}.
Proof.
  intros Hall. unfold splitClassName_.
  rewrite indexOf_prefix. cbn [Z.leb Z.compare].
  rewrite substringFrom_append.
  rewrite split_hyphenated;
    [|discriminate | now apply segments_hyphen_free].
  rewrite (filter_segments _ Hall).
  destruct arguments; reflexivity.
Qed.

(** X9.  [splitClassName_] undoes the way a rule token is written: the
    prefix, then the method and its arguments joined by hyphens, gives
    back the method and the arguments, when none of them is empty or has
    a hyphen.  Whatever the class name, what it returns are such
    segments: no argument is empty or has a hyphen, and neither does the
    method, which is empty only when there is no argument either. *)
Theorem splitClassName_round_trip (this : Validation) :
  (forall (m : string) (arguments : list string),
      Forall (fun s => isSegment s = true) (m :: arguments) ->
      splitClassName_ this (this.(prefix) +:+ hyphenated (m :: arguments))
      = {| method := m; args := arguments |}) /\
  (forall className : string,
      let parts := splitClassName_ this className in
      Forall (fun s => isSegment s = true) parts.(args) /\
      (isSegment parts.(method) = true \/
       parts.(method) = "" /\ parts.(args) = [])).
Proof.
  split; [apply splitClassName_hyphenated|].
  intros className parts. unfold parts, splitClassName_.
  set (rest := if (0 <=? JS.indexOf className this.(prefix))%Z
               then JS.substringFrom className (JS.len this.(prefix))
               else className).
  assert (Hall : Forall (fun s => isSegment s = true)
                   (List.filter (fun a => negb (JS.len a =? 0)%Z)
                                (JS.split "-" rest))).
  { apply Forall_forall. intros s Hs. apply bfilter_elem_of in Hs as [Hs Hn].
    pose proof (split_pieces "-" rest) as Hp.
    rewrite Forall_forall in Hp. unfold isSegment.
    rewrite (Hp s Hs), <- len_zero_eqb, Hn. reflexivity. }
  destruct (List.filter _ (JS.split "-" rest)) as [|m [|a l]].
  - split; [constructor | right; split; reflexivity].
  - apply Forall_cons in Hall as [Hm _]. split; [constructor | now left].
  - apply Forall_cons in Hall as [Hm Hl]. split; [exact Hl | now left].
Qed.

Lemma split_nonempty (sep : ascii) (s : string) : JS.split sep s <> [].
Proof.
  destruct s as [|c s]; cbn; [discriminate|].
  destruct (Ascii.eqb c sep); [discriminate|].
  destruct (JS.split sep s); discriminate.
Qed.

Lemma split_app (sep : ascii) (a b : string) :
  JS.split sep (a +:+ String sep b) = JS.split sep a ++ JS.split sep b.
Proof.
  induction a as [|c a IH].
  - rewrite append_nil. cbn. now rewrite Ascii.eqb_refl.
  - rewrite append_String. cbn [JS.split]. rewrite IH.
    destruct (Ascii.eqb c sep); [reflexivity|].
    pose proof (split_nonempty sep a) as Hne.
    destruct (JS.split sep a); [congruence | reflexivity].
Qed.

Lemma validateHandler_loop_stops (this : Validation)
  (form : gmap string DOM.node) (before after : list string)
  (value : string) :
  validateHandler_loop StringToNumber this form
                       (before ++ "" :: after) value
  = validateHandler_loop StringToNumber this form before value.
Proof.
  revert value. induction before as [|c before IH]; intros value.
  - reflexivity.
  - cbn [app validateHandler_loop].
    destruct (String.eqb c ""); [reflexivity|].
    destruct (String.eqb _ this.(prefix)); [|apply IH].
    destruct (validateHandler_switch _ _ _ _ _) as [[valid value']|];
      [|reflexivity].
    cbn. destruct valid; [apply IH | reflexivity].
Qed.

(** X10.  The evaluation of a class name stops at the first empty name
    in it: what follows two spaces in a row is not evaluated, and neither
    is anything when the class name begins with a space, so that every
    value passes then. *)
Theorem validateHandler_stops_at_double_space (this : Validation)
  (form : gmap string DOM.node) (before after value : string) :
  validateHandler_ StringToNumber this form
                   (before +:+ "  " +:+ after) value
  = validateHandler_ StringToNumber this form before value /\
  validateHandler_ StringToNumber this form (String " " after) value
  = Ok true.
Proof.
  unfold validateHandler_. split.
  - change (before +:+ "  " +:+ after)
      with (before +:+ String " " (String " " after)).
    rewrite split_app.
    change (JS.split " " (String " " after))
      with ("" :: JS.split " " after).
    apply validateHandler_loop_stops.
  - reflexivity.
Qed.

(** X11.  A class name none of whose names begins with the prefix asks
    for no rule, and every value passes, the empty one too: a text,
    password or file control that is neither disabled nor read-only
    passes [check_] whatever it holds. *)
Theorem validateHandler_without_rule_token (this : Validation)
  (form : gmap string DOM.node) (className : string) :
  Forall (fun t => isRuleToken this t = false) (JS.split " " className) ->
  (forall value : string,
      validateHandler_ StringToNumber this form className value = Ok true) /\
  (forall (fieldName : string) (c : DOM.control),
      formGet_ form fieldName = Some (DOM.Single c) ->
      DOM.type c ∈ ["text"; "password"; "file"] ->
      check_ StringToNumber this form fieldName className = Ok true).
Proof.
  intros Hall.
  assert (Hv : forall value,
             validateHandler_ StringToNumber this form className value
             = Ok true).
  { intros value. unfold validateHandler_.
    induction Hall as [|t l Ht Hl IH]; [reflexivity|].
    cbn [validateHandler_loop].
    destruct (String.eqb t ""); [reflexivity|].
    rewrite substring_eqb_prefix. unfold isRuleToken in Ht.
    rewrite Ht. exact IH. }
  split; [exact Hv|].
  intros fieldName c Hget Hty. unfold check_. rewrite Hget.
  cbn [controlType]. unfold mbind, JS.outcome_bind.
  assert (Htext : checkText_ StringToNumber this form fieldName className
                  = Ok true).
  { unfold checkText_. rewrite Hget. cbn.
    destruct (DOM.disabled c); [reflexivity|].
    destruct (DOM.readonly c); [reflexivity | apply Hv]. }
  assert (Hfile : checkFileUpload_ StringToNumber this form fieldName
                                   className = Ok true).
  { unfold checkFileUpload_. rewrite Hget. cbn.
    destruct (DOM.disabled c); [reflexivity | apply Hv]. }
  rewrite !elem_of_cons in Hty.
  destruct Hty as [E|[E|[E|E]]]; try (rewrite E; cbn; auto; fail).
  now apply elem_of_nil in E.
Qed.

(** X12.  The rule match (or eq, or equal) compares the value with that
    of the control the form has under the name that is the first
    argument of the rule; further arguments are not read, so that a
    control whose name has a hyphen cannot be named. *)
Theorem match_rule_reads_first_argument (this : Validation)
  (form : gmap string DOM.node) (m name : string) (more : list string)
  (value : string) (field : DOM.node) :
  m ∈ ["match"; "eq"; "equal"] ->
  Forall (fun s => isSegment s = true) (name :: more) ->
  formGet_ form name = Some field ->
  validateHandler_switch StringToNumber this form
    (splitClassName_ this
       (this.(prefix) +:+ hyphenated (m :: name :: more))) value
  = Ok (String.eqb value
          match field with
          | DOM.Single c => DOM.value c
          | DOM.Group _ v => v
          end, value).
Proof.
  intros Hm Hall Hget.
  rewrite splitClassName_hyphenated.
  2:{ constructor; [|exact Hall].
      rewrite !elem_of_cons in Hm.
      destruct Hm as [->|[->|[->|Hm]]]; try reflexivity.
      now apply elem_of_nil in Hm. }
  assert (Hsw : forall m', m' ∈ ["match"; "eq"; "equal"] ->
    validateHandler_switch StringToNumber this form
      {| method := m'; args := name :: more |} value =
    (other ← fieldValue (formGet_ form name);
     Ok (isEqual_ value other, value))).
  { intros m' Hm'. rewrite !elem_of_cons in Hm'.
    destruct Hm' as [->|[->|[->|Hm']]]; try reflexivity.
    now apply elem_of_nil in Hm'. }
  rewrite (Hsw m Hm), Hget.
  destruct field as [c|items v]; reflexivity.
Qed.

(** X13.  The bounds of the rule len reach [isValidLength_] as the
    strings of the class name, and two strings are compared by their
    characters: when the maximum sorts before the minimum as a string, as
    "10" does before "2", no value passes, whatever its length.  Without
    any bound no value passes either. *)
Theorem len_rule_compares_bounds_as_strings (this : Validation)
  (form : gmap string DOM.node) (min max value : string) :
  isSegment min = true -> isSegment max = true ->
  String.ltb max min = true ->
  ruleFails StringToNumber this form value
            (this.(prefix) +:+ hyphenated ["len"; min; max]) /\
  ruleFails StringToNumber this form value (this.(prefix) +:+ "len").
Proof.
  intros Hmin Hmax Hlt. unfold ruleFails. split.
  - rewrite splitClassName_hyphenated by (repeat constructor; assumption).
    cbn. unfold isValidLength_.
    unfold isSegment in Hmax. apply andb_true_iff in Hmax as [Hne _].
    cbn [JS.falsy]. apply negb_true_iff in Hne. rewrite Hne.
    unfold JS.le at 1. cbn [JS.lessThan]. rewrite Hlt. reflexivity.
  - change (this.(prefix) +:+ "len")
      with (this.(prefix) +:+ hyphenated ["len"]).
    rewrite (splitClassName_hyphenated this "len" []) by
      (repeat constructor).
    reflexivity.
Qed.

(** *** The patterns of the constructor *)

Lemma run_iter (p : ascii -> bool) (s : string) (k : nat) :
  run p s k k (Nat.iter k (RegExp.advance p s) 1%N).
Proof.
  induction k as [|k IH]; intros n.
  - cbn [Nat.iter nat_rect]. unfold bit. destruct n as [|n].
    + reflexivity.
    + rewrite (N.bits_above_log2 1); [reflexivity | cbn; lia].
  - cbn [Nat.iter nat_rect]. rewrite bit_advance.
    destruct n as [|n]; [reflexivity|].
    fold (Nat.iter k (RegExp.advance p s) 1%N).
    rewrite (IH n), goodPrefix_S.
    change (S k <=? S n)%nat with (k <=? n)%nat.
    change (S n <=? S k)%nat with (n <=? k)%nat.
    now rewrite !andb_assoc.
Qed.

Lemma run_step (p : ascii -> bool) (s : string) (lo j : nat) (Y : N) :
  (lo <= j)%nat -> run p s lo j Y ->
  run p s lo (S j) (N.lor Y (RegExp.advance p s Y)).
Proof.
  intros Hj HY n. rewrite bit_lor, bit_advance, HY.
  destruct n as [|n].
  - rewrite orb_false_r. destruct lo; reflexivity.
  - rewrite HY, goodPrefix_S.
    destruct (goodPrefix p n s); [|now rewrite !andb_false_r].
    destruct (String.get n s) as [c|]; [|now rewrite !andb_false_r].
    destruct (p c); [|now rewrite !andb_false_r].
    rewrite !andb_true_r.
    apply eq_true_iff_eq.
    rewrite ?orb_true_iff, ?andb_true_iff, ?Nat.leb_le. lia.
Qed.

Lemma run_closure (p : ascii -> bool) (s : string) (fuel lo j : nat)
  (Y : N) :
  (lo <= j)%nat -> run p s lo j Y ->
  run p s lo (j + fuel) (RegExp.closure (RegExp.advance p s) fuel Y).
Proof.
  revert j Y. induction fuel as [|fuel IH]; intros j Y Hj HY.
  - now rewrite Nat.add_0_r.
  - cbn [RegExp.closure]. pose proof (run_step p s lo j Y Hj HY) as Hstep.
    destruct (N.eqb_spec (N.lor Y (RegExp.advance p s Y)) Y) as [E|_].
    + rewrite E in Hstep. clear IH.
      assert (Hall : forall m, run p s lo (j + m) Y).
      { induction m as [|m IHm]; [now rewrite Nat.add_0_r|].
        rewrite Nat.add_succ_r. rewrite <- E.
        apply run_step; [lia | exact IHm]. }
      apply Hall.
    + replace (j + S fuel)%nat with (S j + fuel)%nat by lia.
      apply IH; [lia | exact Hstep].
Qed.

Lemma ones_land_1 (n : nat) : N.land (N.ones (N.of_nat (S n))) 1 = 1%N.
Proof.
  apply N_bits_eq. intros m. rewrite bit_land. unfold bit.
  destruct m as [|m].
  - rewrite N.ones_spec_low; [reflexivity|]. lia.
  - rewrite (N.bits_above_log2 1); [apply andb_false_r|]. cbn. lia.
Qed.

(** An anchored pattern [^[...]{lo,hi}$] matches the strings of [lo] to
    [hi] characters of the class, and [^[...]{lo,}$] those of [lo]
    characters or more. *)
Lemma anchored_class_matches (ranges : list (ascii * ascii)) (lo : nat)
  (hi : option nat) (s : string) :
  RegExp.test
    (RegExp.seqs [RegExp.Bol; RegExp.Rep (RegExp.Cls ranges) lo hi;
                  RegExp.Eol]) s =
  (lo <=? String.length s)%nat &&
  match hi with
  | Some h => (String.length s <=? lo + (h - lo))%nat
  | None => true
  end &&
  allChars (fun c => existsb (RegExp.inRange c) ranges) s.
Proof.
  unfold RegExp.test, allChars.
  cbn [RegExp.seqs RegExp.step].
  set (p := fun c => existsb (RegExp.inRange c) ranges).
  set (L := String.length s).
  rewrite ones_land_1.
  change (RegExp.step (RegExp.Cls ranges) s) with (RegExp.advance p s).
  set (more := match hi with Some h => (h - lo)%nat | None => S L end).
  pose proof (run_closure p s more lo lo _ (le_n lo) (run_iter p s lo))
    as Hrun.
  rewrite land_bit_nonzero, Hrun. unfold L at 3.
  rewrite goodPrefix_length. f_equal. f_equal.
  unfold more. destruct hi as [h|]; [reflexivity|].
  apply Nat.leb_le. lia.
Qed.

Lemma digits_class (c : ascii) :
  existsb (RegExp.inRange c) Patterns.digits = isDigit c.
Proof. destruct c as [[] [] [] [] [] [] [] []]; reflexivity. Qed.

Lemma alpha_class (c : ascii) :
  existsb (RegExp.inRange c) (Patterns.letters ++ Patterns.accented)
  = isLetter c || isAccented c.
Proof. destruct c as [[] [] [] [] [] [] [] []]; reflexivity. Qed.

Lemma alphanum_class (c : ascii) :
  existsb (RegExp.inRange c)
          (Patterns.letters ++ Patterns.digits ++ Patterns.accented)
  = isLetter c || isDigit c || isAccented c.
Proof. destruct c as [[] [] [] [] [] [] [] []]; reflexivity. Qed.

Lemma phone_class (c : ascii) :
  existsb (RegExp.inRange c)
          (Patterns.digits ++
           [Patterns.one "."; Patterns.one "("; Patterns.one ")";
            Patterns.one "+"; Patterns.one " "; Patterns.one "-"]%char)
  = isPhoneChar c.
Proof. destruct c as [[] [] [] [] [] [] [] []]; reflexivity. Qed.

Lemma allChars_ext (p q : ascii -> bool) (s : string) :
  (forall c, p c = q c) -> allChars p s = allChars q s.
Proof.
  intros H. unfold allChars.
  induction (list_ascii_of_string s) as [|c l IH]; [reflexivity|].
  cbn. now rewrite H, IH.
Qed.

Lemma length_zero_eqb (s : string) :
  (1 <=? String.length s)%nat = negb (String.eqb s "").
Proof. destruct s; reflexivity. Qed.

(** X14.  What the patterns of the constructor accept.  alpha, alphanum
    and num: the strings that are not empty and are made of letters
    (with the accented ones), of letters and digits, of digits; phone:
    the strings of 10 to 25 digits and characters of [.()+ -], in any
    arrangement; email-local: 1 to 255 characters, no line terminator
    among them. *)
Theorem constructor_patterns (value : string) :
  let n := String.length value in
  isValidRegExp_ forms_Validation value "alpha"
  = Ok (negb (String.eqb value "")
        && allChars (fun c => isLetter c || isAccented c) value) /\
  isValidRegExp_ forms_Validation value "alphanum"
  = Ok (negb (String.eqb value "")
        && allChars (fun c => isLetter c || isDigit c || isAccented c)
                    value) /\
  isValidRegExp_ forms_Validation value "num"
  = Ok (negb (String.eqb value "") && allChars isDigit value) /\
  isValidRegExp_ forms_Validation value "phone"
  = Ok ((10 <=? n)%nat && (n <=? 25)%nat && allChars isPhoneChar value) /\
  isValidRegExp_ forms_Validation value "email-local"
  = Ok ((1 <=? n)%nat && (n <=? 255)%nat
        && allChars (fun c => negb (RegExp.lineTerminator c)) value).
Proof.
  intros n. unfold isValidRegExp_.
  change (forms_Validation.(validationExp) !! "alpha")
    with (Some Patterns.alpha).
  change (forms_Validation.(validationExp) !! "alphanum")
    with (Some Patterns.alphanum).
  change (forms_Validation.(validationExp) !! "num")
    with (Some Patterns.num).
  change (forms_Validation.(validationExp) !! "phone")
    with (Some Patterns.phone).
  change (forms_Validation.(validationExp) !! "email-local")
    with (Some Patterns.email_local).
  unfold Patterns.alpha, Patterns.alphanum, Patterns.num, Patterns.phone,
    RegExp.plus.
  rewrite !anchored_class_matches, email_local_matches.
  rewrite !andb_true_r, length_zero_eqb.
  rewrite (allChars_ext _ _ value alpha_class),
    (allChars_ext _ _ value alphanum_class),
    (allChars_ext _ _ value digits_class),
    (allChars_ext _ _ value phone_class).
  repeat split; try reflexivity.
  rewrite <- length_zero_eqb. reflexivity.
Qed.

(** *** E-mail addresses and file names *)

Lemma occurs_last (c : ascii) (s : string) :
  occurs c s = true ->
  exists a e : string, s = a +:+ String c e /\ occurs c e = false.
Proof.
  induction s as [|c' s IH]; intros H; [discriminate H|].
  cbn in H. destruct (occurs c s) eqn:Es.
  - destruct (IH eq_refl) as (a & e & -> & He).
    exists (String c' a), e. now rewrite append_String.
  - rewrite orb_false_r in H. apply Ascii.eqb_eq in H as ->.
    exists "", s. now rewrite append_nil.
Qed.

Lemma isValidEmail_at (this : Validation) (local domain : string) :
  occurs "@" domain = false ->
  isValidEmail_ this (local +:+ String "@" domain) =
  (d ← isValidRegExp_ this domain "domain";
   if negb d then Ok false else isValidRegExp_ this local "email-local").
Proof.
  intros Hno. unfold isValidEmail_.
  set (value := local +:+ String "@" domain).
  assert (Hocc : occurs "@" value = true).
  { unfold value. rewrite occurs_append. cbn. apply orb_true_r. }
  pose proof (indexOf_from_present "@" value 0 Hocc) as Hidx.
  change (char "@") with "@" in Hidx. fold (JS.indexOf value "@") in Hidx.
  replace (JS.indexOf value "@" =? -1)%Z with false
    by (symmetry; apply Z.eqb_neq; lia).
  rewrite (lastIndexOf_append "@" local domain Hno : 
             JS.lastIndexOf value "@" = JS.len local).
  assert (Hdom : JS.substringFrom value (JS.len local + 1) = domain).
  { unfold value.
    replace (local +:+ String "@" domain)
      with ((local +:+ char "@") +:+ domain)
      by (rewrite append_assoc; reflexivity).
    replace (JS.len local + 1)%Z with (JS.len (local +:+ char "@"))
      by (rewrite len_append; reflexivity).
    apply substringFrom_append. }
  rewrite Hdom. unfold value. now rewrite substring_append_l.
Qed.

(** X15.  With the patterns of the constructor [isValidEmail_] never
    throws, and what it accepts is a local part of 1 to 255 characters
    without a line terminator, then the last "@" of the value, then a
    domain the domain pattern matches.  That pattern has a plain dot
    before the top-level domain (the backslash written before it is lost
    in the string literal), so that any character stands for it.  Without
    a domain pattern in the table, every value that has an "@" throws. *)
Theorem isValidEmail_of_constructor (value : string) :
  (exists b : bool, isValidEmail_ forms_Validation value = Ok b) /\
  (isValidEmail_ forms_Validation value = Ok true <->
   exists local domain : string,
     value = local +:+ String "@" domain /\
     occurs "@" domain = false /\
     (1 <= String.length local <= 255)%nat /\
     allChars (fun c => negb (RegExp.lineTerminator c)) local = true /\
     RegExp.test Patterns.domain domain = true) /\
  isValidEmail_ forms_Validation "user@examplecom" = Ok true /\
  (forall this : Validation,
      this.(validationExp) !! "domain" = None ->
      occurs "@" value = true ->
      isValidEmail_ this value = Throw).
Proof.
  assert (Hat : forall local domain, occurs "@" domain = false ->
    isValidEmail_ forms_Validation (local +:+ String "@" domain) =
    Ok (RegExp.test Patterns.domain domain &&
        ((1 <=? String.length local)%nat &&
         (String.length local <=? 255)%nat &&
         allChars (fun c => negb (RegExp.lineTerminator c)) local))).
  { intros local domain Hno. rewrite (isValidEmail_at _ _ _ Hno).
    replace (isValidRegExp_ forms_Validation domain "domain")
      with (Ok (RegExp.test Patterns.domain domain) : JS.outcome bool)
      by reflexivity.
    unfold mbind, JS.outcome_bind.
    destruct (RegExp.test Patterns.domain domain); [|reflexivity].
    cbn [negb andb].
    replace (isValidRegExp_ forms_Validation local "email-local")
      with (Ok (RegExp.test Patterns.email_local local) : JS.outcome bool)
      by reflexivity.
    now rewrite email_local_matches. }
  split; [|split; [|split]].
  - destruct (occurs "@" value) eqn:Eo.
    + destruct (occurs_last _ _ Eo) as (local & domain & -> & Hno).
      rewrite (Hat _ _ Hno). eauto.
    + exists false. unfold isValidEmail_, JS.indexOf.
      change "@" with (char "@").
      now rewrite (indexOf_from_absent "@" value 0 Eo).
  - split.
    + intros Hv. destruct (occurs "@" value) eqn:Eo.
      * destruct (occurs_last _ _ Eo) as (local & domain & -> & Hno).
        rewrite (Hat _ _ Hno) in Hv. injection Hv as Hv.
        rewrite !andb_true_iff, !Nat.leb_le in Hv.
        destruct Hv as (Hd & (H1 & H2) & Hc).
        exists local, domain. repeat split; try assumption.
        destruct (String.length local); [discriminate H1 | lia].
      * unfold isValidEmail_, JS.indexOf in Hv.
        change "@" with (char "@") in Hv.
        rewrite (indexOf_from_absent "@" value 0 Eo) in Hv.
        discriminate Hv.
    + intros (local & domain & -> & Hno & [H1 H2] & Hc & Hd).
      rewrite (Hat _ _ Hno), Hd, Hc.
      apply Nat.leb_le in H1, H2. now rewrite H1, H2.
  - vm_compute. reflexivity.
  - intros this Hnone Eo.
    destruct (occurs_last _ _ Eo) as (local & domain & -> & Hno).
    rewrite (isValidEmail_at _ _ _ Hno).
    replace (isValidRegExp_ this domain "domain")
      with (Throw : JS.outcome bool)
      by (unfold isValidRegExp_; now rewrite Hnone).
    reflexivity.
Qed.

Lemma lowerChar_idempotent (c : ascii) :
  JS.lowerChar (JS.lowerChar c) = JS.lowerChar c.
Proof. destruct c as [[] [] [] [] [] [] [] []]; reflexivity. Qed.

Lemma lowerChar_dot (c : ascii) :
  Ascii.eqb (JS.lowerChar c) "." = Ascii.eqb c ".".
Proof. destruct c as [[] [] [] [] [] [] [] []]; reflexivity. Qed.

Lemma toLowerCase_idempotent (s : string) :
  JS.toLowerCase (JS.toLowerCase s) = JS.toLowerCase s.
Proof.
  induction s as [|c s IH]; cbn; [reflexivity|].
  now rewrite lowerChar_idempotent, IH.
Qed.

Lemma toLowerCase_length (s : string) :
  String.length (JS.toLowerCase s) = String.length s.
Proof. induction s as [|c s IH]; cbn; [reflexivity | now rewrite IH]. Qed.

Lemma toLowerCase_substring (s : string) (n m : nat) :
  String.substring n m (JS.toLowerCase s)
  = JS.toLowerCase (String.substring n m s).
Proof.
  revert n m. induction s as [|c s IH]; intros n m.
  - destruct n, m; reflexivity.
  - destruct n as [|n].
    + destruct m as [|m]; [reflexivity|]. cbn. now rewrite IH.
    + cbn. apply IH.
Qed.

Lemma toLowerCase_lastIndexOf_dot (s : string) (i : Z) :
  JS.lastIndexOf_from "." (JS.toLowerCase s) i
  = JS.lastIndexOf_from "." s i.
Proof.
  assert (Hdot : forall t : string,
             String.prefix "." t =
             match t with
             | EmptyString => false
             | String c' _ => Ascii.eqb c' "."
             end) by (intros t; apply (prefix_char ".")).
  revert i. induction s as [|c s IH]; intros i; [reflexivity|].
  cbn [JS.toLowerCase JS.lastIndexOf_from]. rewrite IH, !Hdot.
  now rewrite lowerChar_dot.
Qed.

Lemma toLowerCase_getFileExtension (value : string) :
  getFileExtension_ (JS.toLowerCase value)
  = JS.toLowerCase (getFileExtension_ value).
Proof.
  unfold getFileExtension_, JS.lastIndexOf.
  rewrite toLowerCase_lastIndexOf_dot, !substringFrom_eq.
  unfold JS.clamp, JS.len. rewrite toLowerCase_length.
  apply toLowerCase_substring.
Qed.

(** X16.  The file rule does not look at the case of the file name: a
    name and its lower-case form get the same verdict, and so do two
    names with the same extension. *)
Theorem isValidFileExtension_ignores_case (this : Validation)
  (value : string) (filetype : option string) :
  isValidFileExtension_ this (JS.toLowerCase value) filetype
  = isValidFileExtension_ this value filetype /\
  (forall name name' ext : string,
      occurs "." ext = false ->
      isValidFileExtension_ this (name +:+ String "." ext) filetype
      = isValidFileExtension_ this
          (name' +:+ String "." (JS.toLowerCase ext)) filetype).
Proof.
  split.
  - unfold isValidFileExtension_.
    now rewrite toLowerCase_getFileExtension, toLowerCase_idempotent.
  - intros name name' ext Hno. unfold isValidFileExtension_.
    assert (Hno' : occurs "." (JS.toLowerCase ext) = false).
    { clear name name'. induction ext as [|c ext IH]; [reflexivity|].
      cbn in Hno |- *. apply orb_false_iff in Hno as [Hc He].
      now rewrite lowerChar_dot, Hc, (IH He). }
    rewrite (getFileExtension_after_last_dot _ _ Hno),
      (getFileExtension_after_last_dot _ _ Hno').
    now rewrite toLowerCase_idempotent.
Qed.

(** *** The error messages of a form *)

Lemma ascending_cons (x : nat) (l : list nat) :
  ascending l -> (forall y, y ∈ l -> (x < y)%nat) -> ascending (x :: l).
Proof.
  intros Hl Hx a b u v Ha Hb Hab.
  destruct b as [|b]; [lia|]. cbn in Hb.
  destruct a as [|a].
  - cbn in Ha. injection Ha as <-. apply Hx.
    now apply list_elem_of_lookup_2 in Hb.
  - cbn in Ha. apply (Hl a b); [assumption..|lia].
Qed.

Lemma ascending_seq (start n : nat) : ascending (seq start n).
Proof.
  intros a b x y Ha Hb Hab.
  apply lookup_seq in Ha as [-> _]. apply lookup_seq in Hb as [-> _]. lia.
Qed.

Lemma ascending_tail (x : nat) (l : list nat) :
  ascending (x :: l) ->
  ascending l /\ (forall y, y ∈ l -> (x < y)%nat).
Proof.
  intros H. split.
  - intros a b u v Ha Hb Hab. apply (H (S a) (S b)); [assumption..|lia].
  - intros y Hy. apply list_elem_of_lookup_1 in Hy as [b Hb].
    apply (H 0%nat (S b)); [reflexivity | exact Hb | lia].
Qed.

Lemma ascending_filter (f : nat -> bool) (l : list nat) :
  ascending l -> ascending (List.filter f l).
Proof.
  induction l as [|x l IH]; intros H; [exact H|].
  apply ascending_tail in H as [Hl Hx]. cbn.
  destruct (f x); [|now apply IH].
  apply ascending_cons; [now apply IH|].
  intros y Hy. apply bfilter_elem_of in Hy as [Hy _]. now apply Hx.
Qed.

(** X17.  For class names made of letters, digits, spaces and hyphens,
    which the pattern reads as literal text, [getElementsByClass_]
    returns the descendants of the asked tag (compared without regard to
    case; all of them when no tag, the empty tag or "*" is asked) whose
    class name the pattern matches: each of them once, and in the order
    of the document. *)
Theorem getElementsByClass_in_document_order (classes : list string)
  (store : list DOM.element) (tagName : option string) :
  Forall (fun name => allChars isClassChar name = true) classes ->
  let found := getElementsByClass_ classes store tagName in
  ascending found /\ NoDup found /\
  (forall i : nat,
      i ∈ found <->
      exists e : DOM.element,
        store !! i = Some e /\
        (forall tag : string,
            tagName = Some tag ->
            tag = "" \/ tag = "*" \/
            JS.toLowerCase (DOM.tagName e) = JS.toLowerCase tag) /\
        RegExp.test (Patterns.classExpr classes) (DOM.className e) = true).
Proof.
  intros _. cbv zeta. split; [|split].
  - apply ascending_filter, ascending_filter, ascending_seq.
  - apply bfilter_NoDup, bfilter_NoDup, NoDup_seq.
  - intros i. unfold getElementsByClass_, DOM.getElementsByTagName.
    rewrite !bfilter_elem_of. split.
    + intros [[_ Htag] Hcls].
      destruct (store !! i) as [e|]; [|discriminate Hcls].
      exists e. split; [reflexivity|]. split; [|exact Hcls].
      intros tag ->.
      destruct (String.eqb_spec tag "") as [E|_]; [now left|].
      right. apply orb_true_iff in Htag as [H|H];
        apply String.eqb_eq in H; [now left | now right].
    + intros (e & He & Htag & Hcls). rewrite He. split; [|exact Hcls].
      split.
      * apply list_elem_of_In, in_seq. apply lookup_lt_Some in He. lia.
      * destruct tagName as [tag|]; [|reflexivity].
        destruct (String.eqb_spec tag "") as [E|Hne]; [reflexivity|].
        destruct (Htag tag eq_refl) as [H|[H|H]]; [contradiction| |].
        -- rewrite H. reflexivity.
        -- apply orb_true_iff. right. now apply String.eqb_eq.
Qed.

(** *** The result of isValid and its log *)

Lemma allPassed_snoc (log : list event) (e : event) :
  allPassed (log ++ [e]) =
  allPassed log && match e with
                   | Checked _ false => false
                   | _ => true
                   end.
Proof. unfold allPassed. rewrite forallb_app. cbn. now rewrite andb_true_r. Qed.

Lemma isValid_loop_verdict (this : Validation)
  (form : gmap string DOM.node) (refs : list nat) (vars vars' : loopVars)
  (log log' : list event) (store store' : list DOM.element) :
  isValid_loop StringToNumber this form refs vars log store
  = (Ok vars', log', store') ->
  vars.(valid) = allPassed log ->
  vars'.(valid) = allPassed log' /\
  fieldOf <$> log' = (fieldOf <$> log) ++ fieldNames this store refs.
Proof.
  revert vars log store. induction refs as [|i rest IH];
    intros vars log store Hloop Hvalid; cbn [isValid_loop] in Hloop.
  - injection Hloop as <- <- _. cbn. now rewrite app_nil_r.
  - cbn [fieldNames]. destruct (store !! i) as [errorMsg|];
      [|discriminate Hloop].
    fold (fieldNameOf this errorMsg) in Hloop.
    assert (Hnames : forall show,
               fieldNames this (display_ this i show store) rest
               = fieldNames this store rest).
    { intros show. apply fieldNames_shapes, display_shapes. }
    assert (Hsnoc : forall (e : event) (names : list string),
               fieldOf e = fieldNameOf this errorMsg ->
               (fieldOf <$> (log ++ [e])) ++ names
               = (fieldOf <$> log) ++ fieldNameOf this errorMsg :: names).
    { intros e names He. rewrite fmap_app, <- app_assoc. cbn.
      now rewrite He. }
    destruct (negb _ && negb _).
    + destruct (check_ _ _ _ _ _) as [[|]|]; [| |discriminate Hloop].
      * apply IH in Hloop as [H1 H2];
          [|now rewrite allPassed_snoc, andb_true_r].
        split; [exact H1|]. rewrite H2, Hnames. now apply Hsnoc.
      * apply IH in Hloop as [H1 H2];
          [|now rewrite allPassed_snoc, andb_false_r].
        split; [exact H1|]. rewrite H2, Hnames. now apply Hsnoc.
    + apply IH in Hloop as [H1 H2];
        [|now rewrite allPassed_snoc, andb_true_r].
      split; [exact H1|]. rewrite H2. now apply Hsnoc.
Qed.

(** X18.  When [isValid] returns, its loop has gone through every error
    message of the form, in order, and the result is true exactly when
    no check failed. *)
Theorem isValid_result_is_log_verdict (this : Validation)
  (doc doc' : DOM.document) (result : bool) (log : list event) :
  isValid StringToNumber this doc = (Ok result, log, doc') ->
  result = allPassed log /\
  fieldOf <$> log
  = fieldNames this (DOM.descendants doc) (errorMessages this doc).
Proof.
  rewrite isValid_unfold. cbv zeta.
  set (messages := errorMessages this doc).
  set (hidden := hideAllErrors_loop this messages (DOM.descendants doc)).
  destruct (isValid_loop _ _ _ _ _ _ _) as [[[vars|] log0] store] eqn:Eloop;
    [|discriminate].
  apply isValid_loop_verdict in Eloop as [Hv Hf]; [|reflexivity].
  cbn [fmap list_fmap app] in Hf.
  rewrite (fieldNames_shapes this hidden (DOM.descendants doc)) in Hf
    by apply hideAllErrors_loop_shapes.
  destruct (valid vars) eqn:Ev.
  - intros H. injection H as <- <- _. now split.
  - destruct (focus_ _ _) as [[u|] d']; [|discriminate].
    intros H. injection H as <- <- _. now split.
Qed.

(** *** Field names without a class name, and the required rule *)

(** X19.  Called without a class name, as [isValid] does to find the
    control to focus, [getFieldName_] only strips the suffix: for a
    message with an index it gives a name that keeps the index, which is
    not the name the message was checked under. *)
Theorem getFieldName_without_class_name (this : Validation) :
  this.(prefix) +:+ this.(multiClass) <> "" ->
  (forall errorId : string,
      getFieldName_ this errorId None
      = JS.substring errorId 0 (JS.len errorId - JS.len this.(suffix))) /\
  (forall className base index : string,
      this.(prefix) +:+ this.(multiClass) ∈ JS.split " " className ->
      occurs "-" index = false ->
      let errorId := (base +:+ String "-" index) +:+ this.(suffix) in
      getFieldName_ this errorId (Some className) = base /\
      getFieldName_ this errorId None = base +:+ String "-" index).
Proof.
  intros Hmarker.
  assert (Hnone : forall errorId : string,
             getFieldName_ this errorId None
             = JS.substring errorId 0
                 (JS.len errorId - JS.len this.(suffix))).
  { intros errorId. unfold getFieldName_.
    change (JS.split " " (default "" None)) with [""].
    cbn [getFieldName_loop].
    destruct (String.eqb_spec "" (this.(prefix) +:+ this.(multiClass)))
      as [E|_]; [|reflexivity].
    now rewrite <- E in Hmarker. }
  split; [exact Hnone|].
  intros className base index Hin Hidx errorId. split.
  - unfold getFieldName_.
    change (default "" (Some className)) with className.
    rewrite getFieldName_loop_spec.
    apply existsb_eqb_elem_of in Hin. rewrite Hin.
    unfold errorId. rewrite suffix_stripped.
    now apply last_hyphen_cut.
  - rewrite Hnone. unfold errorId. apply suffix_stripped.
Qed.

(** X20.  The rule tokens made of the prefix and "required" or "error"
    (or the error class, when that is not the name of a rule before it in
    the switch) pass exactly the values that are not empty; the token of
    the multiple-message marker passes every value. *)
Theorem required_rule_needs_value (this : Validation)
  (form : gmap string DOM.node) (value : string) :
  let verdict (m : string) :=
    validateHandler_switch StringToNumber this form
      (splitClassName_ this (this.(prefix) +:+ m)) value in
  (forall m : string,
      m ∈ ["required"; "error"] ->
      verdict m = Ok (negb (String.eqb value ""), value)) /\
  (isSegment this.(errorClass) = true ->
   this.(errorClass) ∉ ["email"; "file"; "upload"; "len"; "match"; "eq";
                        "equal"] ->
   verdict this.(errorClass) = Ok (negb (String.eqb value ""), value)) /\
  (isSegment this.(multiClass) = true ->
   this.(multiClass) ∉ ["email"; "file"; "upload"; "len"; "match"; "eq";
                        "equal"; "required"; "error"; this.(errorClass)] ->
   verdict this.(multiClass) = Ok (true, value)).
Proof.
  intros verdict.
  assert (Hsplit : forall m, isSegment m = true ->
             verdict m =
             validateHandler_switch StringToNumber this form
               {| method := m; args := [] |} value).
  { intros m Hm. unfold verdict.
    change (this.(prefix) +:+ m)
      with (this.(prefix) +:+ hyphenated [m]).
    rewrite splitClassName_hyphenated; [reflexivity|].
    repeat constructor. exact Hm. }
  split; [|split].
  - intros m Hm. rewrite !elem_of_cons in Hm.
    destruct Hm as [->|[->|Hm]]; [| |now apply elem_of_nil in Hm];
      rewrite Hsplit by reflexivity; cbn; unfold hasValue_;
      now rewrite len_zero_eqb.
  - intros Hseg Hnot. rewrite (Hsplit _ Hseg).
    rewrite !not_elem_of_cons in Hnot.
    destruct Hnot as (H1 & H2 & H3 & H4 & H5 & H6 & H7 & _).
    apply String.eqb_neq in H1, H2, H3, H4, H5, H6, H7.
    unfold validateHandler_switch. cbn [method args].
    rewrite H1, H2, H3, H4, H5, H6, H7, String.eqb_refl, !orb_true_r.
    cbn [orb]. unfold hasValue_. now rewrite len_zero_eqb.
  - intros Hseg Hnot. rewrite (Hsplit _ Hseg).
    rewrite !not_elem_of_cons in Hnot.
    destruct Hnot as (H1 & H2 & H3 & H4 & H5 & H6 & H7 & H8 & H9 & H10 & _).
    apply String.eqb_neq in H1, H2, H3, H4, H5, H6, H7, H8, H9, H10.
    unfold validateHandler_switch. cbn [method args].
    rewrite H1, H2, H3, H4, H5, H6, H7, H8, H9, H10, String.eqb_refl.
    reflexivity.
Qed.

(** *** When isValid returns true *)

Lemma isValid_loop_true_passes (this : Validation)
  (form : gmap string DOM.node) (refs : list nat) (vars vars' : loopVars)
  (log log' : list event) (store store' : list DOM.element) :
  isValid_loop StringToNumber this form refs vars log store
  = (Ok vars', log', store') ->
  vars'.(valid) = true -> vars.(lastFailedField) = "" ->
  forall (i : nat) (e : DOM.element),
    i ∈ refs -> store !! i = Some e ->
    messagePasses StringToNumber this form e.
Proof.
  revert vars log store. induction refs as [|i rest IH];
    intros vars log store Hloop Hvalid Hlast j e Hj He;
    [now apply elem_of_nil in Hj|].
  cbn [isValid_loop] in Hloop.
  destruct (store !! i) as [errorMsg|] eqn:Ei; [|discriminate Hloop].
  fold (fieldNameOf this errorMsg) in Hloop. rewrite Hlast in Hloop.
  assert (Hrest : forall show,
             j ∈ rest ->
             (forall e', display_ this i show store !! j = Some e' ->
                         messagePasses StringToNumber this form e') ->
             messagePasses StringToNumber this form e).
  { intros show Hin H. specialize (H (if decide (i = j)
        then DOM.setDisplay (if show then this.(errorDisplay) else "none") e
        else e)).
    rewrite display_lookup, He in H.
    destruct (decide (i = j)); apply H; reflexivity. }
  assert (Hhere : messagePasses StringToNumber this form errorMsg ->
                  (j ∈ rest -> messagePasses StringToNumber this form e) ->
                  messagePasses StringToNumber this form e).
  { intros Hpass Hother. apply elem_of_cons in Hj as [->|Hj].
    - rewrite Ei in He. now injection He as <-.
    - now apply Hother. }
  destruct (String.eqb_spec (fieldNameOf this errorMsg) "") as [Ef|Ef].
  - cbn [negb andb] in Hloop. apply Hhere; [now left|]. intros Hin.
    now apply (IH _ _ _ Hloop Hvalid Hlast j e Hin He).
  - cbn [negb andb] in Hloop.
    destruct (check_ _ _ _ _ _) as [[|]|] eqn:Ec; [| |discriminate Hloop].
    + apply Hhere; [now right|]. intros Hin. apply (Hrest false Hin).
      intros e' He'. now apply (IH _ _ _ Hloop Hvalid Hlast j e' Hin He').
    + apply isValid_loop_after_failure in Hloop as [H _];
        [congruence | reflexivity].
Qed.

Lemma isValid_loop_passes_true (this : Validation)
  (form : gmap string DOM.node) (refs : list nat) (vars : loopVars)
  (log : list event) (store : list DOM.element) :
  (forall i : nat, i ∈ refs ->
     exists e : DOM.element,
       store !! i = Some e /\ messagePasses StringToNumber this form e) ->
  vars.(lastFailedField) = "" ->
  exists (log' : list event) (store' : list DOM.element),
    isValid_loop StringToNumber this form refs vars log store
    = (Ok vars, log', store').
Proof.
  revert log store. induction refs as [|i rest IH];
    intros log store Hall Hlast; [cbn; eauto|].
  cbn [isValid_loop].
  destruct (Hall i) as (errorMsg & Ei & Hpass);
    [apply elem_of_cons; now left|].
  rewrite Ei. fold (fieldNameOf this errorMsg). rewrite Hlast.
  assert (Hrest : forall show (j : nat), j ∈ rest ->
             exists e : DOM.element,
               display_ this i show store !! j = Some e /\
               messagePasses StringToNumber this form e).
  { intros show j Hj.
    destruct (Hall j) as (e & He & Hp); [apply elem_of_cons; now right|].
    rewrite display_lookup, He.
    destruct (decide (i = j)); eexists; (split; [reflexivity|exact Hp]). }
  destruct (String.eqb_spec (fieldNameOf this errorMsg) "") as [Ef|Ef].
  - cbn [negb andb]. apply IH; [|exact Hlast].
    intros j Hj. apply Hall, elem_of_cons. now right.
  - cbn [negb andb]. destruct Hpass as [Hpass|Hpass]; [contradiction|].
    rewrite Hpass. apply IH; [apply Hrest | exact Hlast].
Qed.

(** X21.  [isValid] returns true exactly when every error message of the
    form has nothing to show: it names no field (its identifier is the
    suffix, or shorter), or the check of its field under its class names
    returns true.  A check that throws, or returns false, rules the
    result true out. *)
Theorem isValid_true_iff_every_message_passes (this : Validation)
  (doc : DOM.document) :
  (isValid StringToNumber this doc).1.1 = Ok true <->
  forall (i : nat) (e : DOM.element),
    i ∈ errorMessages this doc ->
    DOM.descendants doc !! i = Some e ->
    messagePasses StringToNumber this (DOM.elements doc) e.
Proof.
  rewrite isValid_unfold. cbv zeta.
  set (messages := errorMessages this doc).
  set (hidden := hideAllErrors_loop this messages (DOM.descendants doc)).
  set (vars0 := {| valid := true; firstErrorId := "";
                   lastFailedField := "" |}).
  assert (Hhidden : forall i e, i ∈ messages ->
             DOM.descendants doc !! i = Some e ->
             hidden !! i = Some (DOM.setDisplay "none" e)).
  { intros i e Hi He. unfold hidden.
    rewrite hideAllErrors_loop_lookup, bool_decide_eq_true_2 by exact Hi.
    now rewrite He. }
  split.
  - destruct (isValid_loop _ _ _ _ _ _ _) as [[[vars|] log0] store]
      eqn:Eloop; [|discriminate].
    destruct (valid vars) eqn:Ev.
    + intros _ i e Hi He.
      apply (isValid_loop_true_passes _ _ _ _ _ _ _ _ _ Eloop Ev eq_refl
               i (DOM.setDisplay "none" e) Hi (Hhidden i e Hi He)).
    + destruct (focus_ _ _) as [[u|] d']; discriminate.
  - intros Hall.
    destruct (isValid_loop_passes_true this (DOM.elements doc) messages
                vars0 [] hidden) as (log' & store' & ->);
      [|reflexivity|reflexivity].
    intros i Hi.
    destruct (proj2 (getElementsByClass_NoDup _ _ _) i Hi) as [e He].
    exists (DOM.setDisplay "none" e). split; [now apply Hhidden|].
    apply (Hall i e Hi He).
Qed.

(** *** The pattern of getElementsByClass_ *)

Lemma bit_advance_S (p : ascii -> bool) (s : string) (X : N) (n : nat) :
  bit (RegExp.advance p s X) (S n) = bit X n && charOk p s n.
Proof. now rewrite bit_advance. Qed.

Lemma bit_advance_0 (p : ascii -> bool) (s : string) (X : N) :
  bit (RegExp.advance p s X) 0 = false.
Proof. now rewrite bit_advance. Qed.

Lemma nonzero_bit (X : N) :
  negb (N.eqb X 0) = true <-> exists n : nat, bit X n = true.
Proof.
  rewrite negb_true_iff, N.eqb_neq. split.
  - intros H. exists (N.to_nat (N.log2 X)). unfold bit.
    rewrite N2Nat.id. now apply N.bit_log2.
  - intros [n Hn] ->. unfold bit in Hn. rewrite N.bits_0 in Hn.
    discriminate Hn.
Qed.

Lemma bit_ones (m n : nat) :
  bit (N.ones (N.of_nat (S m))) n = (n <=? m)%nat.
Proof.
  unfold bit. destruct (Nat.leb_spec n m) as [H|H].
  - apply N.ones_spec_low. lia.
  - apply N.ones_spec_high. lia.
Qed.

Lemma bit_1 (n : nat) : bit 1 n = (n =? 0)%nat.
Proof.
  unfold bit. destruct n as [|n]; [reflexivity|].
  rewrite (N.bits_above_log2 1); [reflexivity | cbn; lia].
Qed.

(** Where a literal can end: after its characters, from a start. *)
Lemma step_lit (w s : string) (X : N) (j : nat) :
  bit (RegExp.step (RegExp.lit w) s X) j = true <->
  exists i : nat,
    bit X i = true /\ j = (i + String.length w)%nat /\
    occursAt w s i = true.
Proof.
  revert X j. induction w as [|a w IH]; intros X j.
  - cbn. split.
    + intros H. exists j. rewrite Nat.add_0_r. auto.
    + intros (i & Hi & -> & _). now rewrite Nat.add_0_r.
  - cbn [RegExp.lit RegExp.step]. rewrite IH. split.
    + intros (i & Hi & -> & Hw). destruct i as [|i];
        [now rewrite bit_advance_0 in Hi|].
      rewrite bit_advance_S in Hi. apply andb_true_iff in Hi as [Hi Ha].
      exists i. split; [exact Hi|]. split; [cbn; lia|].
      cbn [occursAt]. now rewrite Ha, Hw.
    + intros (i & Hi & -> & Hw). cbn [occursAt] in Hw.
      apply andb_true_iff in Hw as [Ha Hw].
      exists (S i). rewrite bit_advance_S, Hi, Ha.
      split; [reflexivity|]. split; [cbn; lia | exact Hw].
Qed.

Lemma closure_sound (p : ascii -> bool) (s : string) (fuel : nat) (X : N)
  (n : nat) :
  bit (RegExp.closure (RegExp.advance p s) fuel X) n = true ->
  exists m d : nat,
    bit X m = true /\ n = (m + d)%nat /\ (d <= fuel)%nat /\
    rangeOk p s m d = true.
Proof.
  revert X. induction fuel as [|fuel IH]; intros X H.
  - exists n, 0%nat. rewrite Nat.add_0_r. auto.
  - cbn [RegExp.closure] in H.
    destruct (N.eqb _ X).
    + exists n, 0%nat. rewrite Nat.add_0_r. repeat split; [exact H | lia].
    + apply IH in H as (m & d & Hm & -> & Hd & Hr).
      rewrite bit_lor in Hm. apply orb_true_iff in Hm as [Hm|Hm].
      * exists m, d. repeat split; [exact Hm | lia | exact Hr].
      * destruct m as [|m]; [now rewrite bit_advance_0 in Hm|].
        rewrite bit_advance_S in Hm. apply andb_true_iff in Hm as [Hm Hc].
        exists m, (S d). split; [exact Hm|]. split; [lia|].
        split; [lia|]. cbn [rangeOk]. now rewrite Hc, Hr.
Qed.

Lemma closed_reach (p : ascii -> bool) (s : string) (Y : N) (m d : nat) :
  N.lor Y (RegExp.advance p s Y) = Y ->
  bit Y m = true -> rangeOk p s m d = true ->
  bit Y (m + d) = true.
Proof.
  intros Hstable. revert m. induction d as [|d IH]; intros m Hm Hr.
  - now rewrite Nat.add_0_r.
  - cbn [rangeOk] in Hr. apply andb_true_iff in Hr as [Hc Hr].
    replace (m + S d)%nat with (S m + d)%nat by lia.
    apply IH; [|exact Hr].
    rewrite <- Hstable, bit_lor, bit_advance_S, Hm, Hc.
    apply orb_true_r.
Qed.

Lemma closure_complete (p : ascii -> bool) (s : string) (fuel : nat)
  (X : N) (m d : nat) :
  bit X m = true -> (d <= fuel)%nat -> rangeOk p s m d = true ->
  bit (RegExp.closure (RegExp.advance p s) fuel X) (m + d) = true.
Proof.
  revert X m d. induction fuel as [|fuel IH]; intros X m d Hm Hd Hr.
  - replace d with 0%nat by lia. now rewrite Nat.add_0_r.
  - cbn [RegExp.closure].
    destruct (N.eqb_spec (N.lor X (RegExp.advance p s X)) X) as [E|_].
    + now apply (closed_reach p s).
    + destruct d as [|d].
      * apply (IH _ m 0%nat); [|lia|reflexivity].
        rewrite bit_lor, Hm. reflexivity.
      * cbn [rangeOk] in Hr. apply andb_true_iff in Hr as [Hc Hr].
        replace (m + S d)%nat with (S m + d)%nat by lia.
        apply IH; [|lia|exact Hr].
        rewrite bit_lor, bit_advance_S, Hm, Hc. apply orb_true_r.
Qed.

Lemma charOk_tail (p : ascii -> bool) (c : ascii) (s : string) (i : nat) :
  charOk p (String c s) (S i) = charOk p s i.
Proof. reflexivity. Qed.

Lemma rangeOk_tail (p : ascii -> bool) (c : ascii) (s : string)
  (m d : nat) :
  rangeOk p (String c s) (S m) d = rangeOk p s m d.
Proof.
  revert m. induction d as [|d IH]; intros m; [reflexivity|].
  cbn [rangeOk]. now rewrite charOk_tail, IH.
Qed.

Lemma occursAt_tail (w : string) (c : ascii) (s : string) (i : nat) :
  occursAt w (String c s) (S i) = occursAt w s i.
Proof.
  revert i. induction w as [|a w IH]; intros i; [reflexivity|].
  cbn [occursAt]. now rewrite charOk_tail, IH.
Qed.

Lemma rangeOk_all (p : ascii -> bool) (s : string) :
  rangeOk p s 0 (String.length s) = allChars p s.
Proof.
  unfold allChars. induction s as [|c s IH]; [reflexivity|].
  cbn [String.length rangeOk list_ascii_of_string forallb].
  now rewrite rangeOk_tail, IH.
Qed.

Lemma rangeOk_length (p : ascii -> bool) (s : string) (d : nat) :
  rangeOk p s 0 d = true -> (d <= String.length s)%nat.
Proof.
  revert s. induction d as [|d IH]; intros s H; [lia|].
  cbn [rangeOk] in H. apply andb_true_iff in H as [Hc H].
  destruct s as [|c s]; [discriminate Hc|].
  rewrite rangeOk_tail in H. apply IH in H. cbn. lia.
Qed.

Lemma length_append (a b : string) :
  String.length (a +:+ b) = (String.length a + String.length b)%nat.
Proof.
  induction a as [|c a IH]; rewrite ?append_nil, ?append_String;
    [reflexivity|]. cbn. now rewrite IH.
Qed.

Lemma occursAt_prefix (w b : string) : occursAt w (w +:+ b) 0 = true.
Proof.
  induction w as [|a w IH]; [reflexivity|].
  rewrite append_String. cbn [occursAt]. rewrite occursAt_tail, IH.
  unfold charOk. cbn. now rewrite Ascii.eqb_refl.
Qed.

Lemma occursAt_join (a w b : string) :
  occursAt w (a +:+ w +:+ b) (String.length a) = true.
Proof.
  induction a as [|c a IH].
  - rewrite append_nil. apply occursAt_prefix.
  - rewrite append_String. cbn [String.length]. now rewrite occursAt_tail.
Qed.

Lemma occursAt_start (w s : string) :
  occursAt w s 0 = true -> exists b : string, s = w +:+ b.
Proof.
  revert s. induction w as [|a w IH]; intros s H.
  - exists s. now rewrite append_nil.
  - cbn [occursAt] in H. apply andb_true_iff in H as [Hc H].
    destruct s as [|c s]; [discriminate Hc|].
    unfold charOk in Hc. cbn in Hc. apply Ascii.eqb_eq in Hc as <-.
    rewrite occursAt_tail in H. destruct (IH s H) as [b ->].
    exists b. now rewrite append_String.
Qed.

Lemma occursAt_split (w s : string) (i : nat) :
  (i <= String.length s)%nat -> occursAt w s i = true ->
  exists a b : string, s = a +:+ w +:+ b /\ String.length a = i.
Proof.
  revert s. induction i as [|i IH]; intros s Hi H.
  - destruct (occursAt_start w s H) as [b ->].
    exists "", b. now rewrite append_nil.
  - destruct s as [|c s]; [cbn in Hi; lia|].
    rewrite occursAt_tail in H. cbn in Hi.
    destruct (IH s ltac:(lia) H) as (a & b & -> & <-).
    exists (String c a), b. now rewrite append_String.
Qed.

Lemma rangeOk_prefix (p : ascii -> bool) (a rest : string) :
  rangeOk p (a +:+ rest) 0 (String.length a) = allChars p a.
Proof.
  unfold allChars. induction a as [|c a IH]; [reflexivity|].
  rewrite append_String.
  cbn [String.length rangeOk list_ascii_of_string forallb].
  now rewrite rangeOk_tail, IH.
Qed.

Lemma rangeOk_suffix (p : ascii -> bool) (x b : string) :
  rangeOk p (x +:+ b) (String.length x) (String.length b) = allChars p b.
Proof.
  induction x as [|c x IH].
  - rewrite append_nil. apply rangeOk_all.
  - rewrite append_String. cbn [String.length]. now rewrite rangeOk_tail.
Qed.

Lemma classChars_class (c : ascii) :
  existsb (RegExp.inRange c) Patterns.classChars = isClassChar c.
Proof. destruct c as [[] [] [] [] [] [] [] []]; reflexivity. Qed.

(** X23.  Which class names [getElementsByClass_] takes for those of an
    error message, when asked (as [isValid] and [hideAllErrors] ask) for
    an error class and a prefix.  The names are joined with a bar, which
    in the pattern separates two alternatives that each keep one anchor
    only: the class name matches when it has the error class after
    nothing but letters, digits, spaces and hyphens, whatever follows it,
    or the prefix before nothing but such characters, whatever comes
    before it.  (An error class and a prefix made of such characters are
    literal text in the pattern.) *)
Theorem classExpr_matches (errorClass prefix className : string) :
  allChars isClassChar errorClass = true ->
  allChars isClassChar prefix = true ->
  RegExp.test (Patterns.classExpr [errorClass; prefix]) className = true
  <->
  (exists before after : string,
      className = before +:+ errorClass +:+ after /\
      allChars isClassChar before = true) \/
  (exists before after : string,
      className = before +:+ prefix +:+ after /\
      allChars isClassChar after = true).
Proof.
  intros _ _.
  set (s := className). set (L := String.length s).
  set (p := fun c => existsb (RegExp.inRange c) Patterns.classChars).
  set (A := RegExp.step (RegExp.lit errorClass) s
              (RegExp.closure (RegExp.advance p s) (S L)
                 (N.land (N.ones (N.of_nat (S L))) 1))).
  set (C := RegExp.closure (RegExp.advance p s) (S L)
              (RegExp.step (RegExp.lit prefix) s
                 (N.ones (N.of_nat (S L))))).
  change (RegExp.test (Patterns.classExpr [errorClass; prefix]) s)
    with (negb (N.eqb (N.lor A (N.land C (N.shiftl 1 (N.of_nat L)))) 0)).
  assert (Hp : forall x, allChars p x = allChars isClassChar x)
    by (intros x; apply allChars_ext, classChars_class).
  assert (HA : (exists n, bit A n = true) <->
               exists before after : string,
                 s = before +:+ errorClass +:+ after /\
                 allChars isClassChar before = true).
  { unfold A. rewrite ones_land_1. split.
    - intros [n Hn]. apply step_lit in Hn as (i & Hi & _ & Hw).
      apply closure_sound in Hi as (m & d & Hm & -> & _ & Hr).
      rewrite bit_1 in Hm. apply Nat.eqb_eq in Hm as ->.
      cbn [Nat.add] in Hw.
      pose proof (rangeOk_length _ _ _ Hr) as Hd.
      destruct (occursAt_split _ _ _ Hd Hw) as (a & b & Hs & <-).
      exists a, b. split; [exact Hs|].
      rewrite <- Hp, <- (rangeOk_prefix p a (errorClass +:+ b)), <- Hs.
      exact Hr.
    - intros (a & b & Hs & Ha).
      exists (String.length a + String.length errorClass)%nat.
      apply step_lit. exists (String.length a).
      split; [|split; [reflexivity | rewrite Hs; apply occursAt_join]].
      apply (closure_complete p s (S L) 1 0%nat (String.length a)).
      + reflexivity.
      + unfold L. rewrite Hs, length_append. lia.
      + rewrite Hs, rangeOk_prefix, Hp. exact Ha. }
  assert (HC : bit C L = true <->
               exists before after : string,
                 s = before +:+ prefix +:+ after /\
                 allChars isClassChar after = true).
  { split.
    - intros H. unfold C in H.
      apply closure_sound in H as (m & d & Hm & HL & _ & Hr).
      apply step_lit in Hm as (i & Hi & -> & Hw).
      rewrite bit_ones in Hi. apply Nat.leb_le in Hi.
      destruct (occursAt_split _ _ _ Hi Hw) as (a & b & Hs & <-).
      exists a, b. split; [exact Hs|].
      assert (Hd : d = String.length b).
      { unfold L in HL. rewrite Hs, !length_append in HL. lia. }
      rewrite <- Hp, <- (rangeOk_suffix p (a +:+ prefix) b).
      rewrite length_append, append_assoc, <- Hs, <- Hd. exact Hr.
    - intros (a & b & Hs & Hb).
      assert (HL : L = ((String.length a + String.length prefix)
                        + String.length b)%nat)
        by (unfold L; rewrite Hs, !length_append; lia).
      rewrite HL. unfold C. apply closure_complete.
      + apply step_lit. exists (String.length a).
        split; [|split; [reflexivity | rewrite Hs; apply occursAt_join]].
        rewrite bit_ones. apply Nat.leb_le.
        unfold L. rewrite Hs, length_append. lia.
      + unfold L. rewrite Hs, !length_append. lia.
      + rewrite <- length_append, Hs, <- append_assoc, rangeOk_suffix, Hp.
        exact Hb. }
  rewrite <- HA, <- HC, <- land_bit_nonzero, !nonzero_bit. split.
  - intros [n Hn]. rewrite bit_lor in Hn.
    apply orb_true_iff in Hn as [Hn|Hn]; eauto.
  - intros [[n Hn]|[n Hn]]; exists n; rewrite bit_lor, Hn;
      [reflexivity | apply orb_true_r].
Qed.

(** *** The url pattern *)

(** X24.  The url pattern of the constructor accepts exactly "http://"
    or "https://" followed by one character or more, none of them a line
    terminator: nothing is asked of what follows the two slashes. *)
Theorem url_pattern_accepts (value : string) :
  isValidRegExp_ forms_Validation value "url" = Ok true <->
  exists scheme rest : string,
    (scheme = "http://" \/ scheme = "https://") /\
    value = scheme +:+ rest /\ rest <> "" /\
    allChars (fun c => negb (RegExp.lineTerminator c)) rest = true.
Proof.
  set (s := value). set (L := String.length s).
  set (dot := fun c => negb (RegExp.lineTerminator c)).
  set (X1 := RegExp.step (RegExp.lit "http") s
               (N.land (N.ones (N.of_nat (S L))) 1)).
  set (X2 := RegExp.closure (RegExp.advance (Ascii.eqb "s") s) 1 X1).
  set (X3 := RegExp.step (RegExp.lit "://") s X2).
  set (D := RegExp.closure (RegExp.advance dot s) (S L)
              (RegExp.advance dot s X3)).
  change (isValidRegExp_ forms_Validation s "url")
    with (Ok (negb (N.eqb (N.land D (N.shiftl 1 (N.of_nat L))) 0))
          : JS.outcome bool).
  rewrite land_bit_nonzero.
  assert (Hscheme : forall (scheme rest : string) (d : nat),
             s = scheme +:+ rest ->
             rangeOk dot s (String.length scheme) (S d) = true ->
             L = (String.length scheme + S d)%nat ->
             rest <> "" /\ allChars dot rest = true).
  { intros scheme rest d Hs Hr HL.
    assert (Hd : S d = String.length rest)
      by (unfold L in HL; rewrite Hs, length_append in HL; lia).
    split; [intros ->; discriminate Hd|].
    rewrite <- (rangeOk_suffix dot scheme rest), <- Hs, <- Hd. exact Hr. }
  split.
  - intros H. injection H as H. unfold D in H.
    apply closure_sound in H as (m & d & Hm & HL & _ & Hr).
    destruct m as [|m]; [now rewrite bit_advance_0 in Hm|].
    rewrite bit_advance_S in Hm. apply andb_true_iff in Hm as [Hm Hc].
    assert (Hr' : rangeOk dot s m (S d) = true)
      by (cbn [rangeOk]; now rewrite Hc, Hr).
    clear Hc Hr. unfold X3 in Hm.
    apply step_lit in Hm as (i & Hi & -> & Hw3). unfold X2 in Hi.
    apply closure_sound in Hi as (m2 & d2 & Hm2 & -> & Hd2 & Hr2).
    unfold X1 in Hm2. rewrite ones_land_1 in Hm2.
    apply step_lit in Hm2 as (i0 & Hi0 & -> & Hw1).
    rewrite bit_1 in Hi0. apply Nat.eqb_eq in Hi0 as ->.
    cbn [String.length Nat.add] in *.
    destruct d2 as [|[|d2]]; [| |lia]; cbn [Nat.add] in *.
    + assert (Hw : occursAt "http://" s 0 = true).
      { cbn [occursAt] in Hw1, Hw3 |- *.
        repeat (apply andb_true_iff in Hw1 as [? Hw1]).
        repeat (apply andb_true_iff in Hw3 as [? Hw3]).
        repeat (apply andb_true_iff; split); assumption. }
      destruct (occursAt_start _ _ Hw) as [rest Hs].
      exists "http://", rest. split; [now left|]. split; [exact Hs|].
      apply (Hscheme "http://" rest d Hs Hr'). cbn. lia.
    + assert (Hw : occursAt "https://" s 0 = true).
      { cbn [occursAt rangeOk] in Hw1, Hw3, Hr2 |- *.
        repeat (apply andb_true_iff in Hw1 as [? Hw1]).
        repeat (apply andb_true_iff in Hw3 as [? Hw3]).
        repeat (apply andb_true_iff in Hr2 as [? Hr2]).
        repeat (apply andb_true_iff; split); assumption. }
      destruct (occursAt_start _ _ Hw) as [rest Hs].
      exists "https://", rest. split; [now right|]. split; [exact Hs|].
      apply (Hscheme "https://" rest d Hs Hr'). cbn. lia.
  - intros (scheme & rest & Hsch & Hs & Hne & Hrest). f_equal.
    assert (Hlen : L = (String.length scheme + String.length rest)%nat)
      by (unfold L; rewrite Hs; apply length_append).
    assert (Hrange : rangeOk dot s (String.length scheme)
                             (String.length rest) = true)
      by (rewrite Hs, rangeOk_suffix; exact Hrest).
    destruct rest as [|c rest]; [congruence|].
    cbn [String.length rangeOk] in Hlen, Hrange.
    apply andb_true_iff in Hrange as [Hc Hr].
    assert (H3 : bit X3 (String.length scheme) = true).
    { unfold X3. apply step_lit.
      exists (String.length scheme - 3)%nat.
      assert (H2 : bit X2 (String.length scheme - 3) = true).
      { unfold X2.
        assert (H1 : bit X1 4 = true).
        { unfold X1. rewrite ones_land_1. apply step_lit. exists 0%nat.
          split; [reflexivity|]. split; [reflexivity|].
          rewrite Hs. destruct Hsch as [-> | ->]; reflexivity. }
        destruct Hsch as [-> | ->].
        - apply (closure_complete _ s 1 X1 4 0 H1); [lia | reflexivity].
        - apply (closure_complete _ s 1 X1 4 1 H1); [lia|].
          rewrite Hs. reflexivity. }
      split; [exact H2|]. rewrite Hs.
      destruct Hsch as [-> | ->]; split; reflexivity. }
    unfold D. rewrite Hlen.
    replace (String.length scheme + S (String.length rest))%nat
      with (S (String.length scheme) + String.length rest)%nat by lia.
    apply closure_complete; [|lia|exact Hr].
    now rewrite bit_advance_S, H3, Hc.
Qed.

End Properties.

(** ** Instances *)


(** The field names of a plain and of an indexed message. *)
Lemma getFieldName_strips_then_cuts_witness :
  getFieldName_ forms_Validation "email-err" (Some "v-error v-email")
    = "email" /\
  getFieldName_ forms_Validation "serial-0-err" (Some "v-error v-m")
    = "serial".
Proof.
  pose proof (getFieldName_strips_then_cuts forms_Validation
                "v-error v-email") as [_ [H1 _]].
  pose proof (getFieldName_strips_then_cuts forms_Validation
                "v-error v-m") as [_ [_ [H2 _]]].
  split.
  - apply (H1 "email"). vm_compute. intros H.
    repeat (apply elem_of_cons in H as [H|H]; [discriminate H|]).
    now apply elem_of_nil in H.
  - apply (H2 "serial" "0"); [|reflexivity].
    vm_compute. apply elem_of_cons. right. apply elem_of_cons. now left.
Defined.

(** A checked radio button alone under its name does not validate. *)
Lemma lone_radio_never_valid_witness :
  checkRadio_ Examples.agreeForm "agree" = Ok false /\
  check_ JS.decimalToNumber forms_Validation Examples.agreeForm "agree"
         "v-error" = Ok false.
Proof.
  apply (lone_radio_never_valid JS.decimalToNumber forms_Validation
           Examples.agreeForm "agree" "v-error"
           (Examples.input "radio" "yes" true)).
  - vm_compute. reflexivity.
  - reflexivity.
Defined.

(** An upload whose value ends with an escaped quote. *)
Lemma file_rule_checks_extension_witness :
  validateHandler_switch JS.decimalToNumber forms_Validation ∅
    {| method := "upload"; args := ["image"] |}
    ("photo.JPG\" +:+ JS.doubleQuote)
  = Ok (true, "photo.JPG").
Proof.
  destruct (file_rule_checks_extension JS.decimalToNumber forms_Validation
              ∅ "upload" "image" [] ("photo.JPG\" +:+ JS.doubleQuote))
    as [H _]; [now right|].
  exact (H "photo.JPG" "\"%char eq_refl).
Defined.

(** The class v-caps of the script's own comment has no rule. *)
Lemma unknown_rule_throws_witness :
  validateHandler_switch JS.decimalToNumber forms_Validation ∅
    (splitClassName_ forms_Validation "v-caps") "ABC" = Throw /\
  validateHandler_ JS.decimalToNumber forms_Validation ∅ "v-caps" "ABC"
    = Throw.
Proof.
  destruct (unknown_rule_throws JS.decimalToNumber forms_Validation ∅
              "v-caps" "ABC") as [H1 H2];
    [vm_compute; reflexivity | vm_compute; reflexivity |].
  split; [exact H1|].
  apply H2; [discriminate | reflexivity | reflexivity].
Defined.

(** A value without an at sign, and one with two. *)
Lemma isValidEmail_splits_at_last_at_witness :
  isValidEmail_ forms_Validation "example.com" = Ok false /\
  isValidEmail_ forms_Validation ("a@b" +:+ String "@" "example.com") =
  Ok (RegExp.test Patterns.domain "example.com"
      && RegExp.test Patterns.email_local "a@b").
Proof.
  destruct (isValidEmail_splits_at_last_at forms_Validation) as (H1 & H2 & _).
  split.
  - apply H1. reflexivity.
  - apply H2; [vm_compute; reflexivity | vm_compute; reflexivity
              | reflexivity].
Defined.

(** C2, as the specification words it: a tab is whitespace, so the class
    names of "x<tab>v-required" would be x and v-required, and the empty
    value would fail the second.  The script splits at spaces only,
    finds one class name that does not begin with the prefix, and
    returns true. *)
Lemma validateHandler_splits_at_spaces_only :
  validateHandler_ JS.decimalToNumber forms_Validation ∅
    ("x" +:+ Examples.tab +:+ "v-required") "" = Ok true /\
  evaluate JS.decimalToNumber forms_Validation ∅
    ("x" +:+ Examples.tab +:+ "v-required") "" = Ok false.
Proof. split; reflexivity. Qed.

(** The loop of the handler also ends at an empty class name, which a
    doubled or leading space makes: the rule token after it is not
    evaluated. *)
Example validateHandler_stops_at_empty_class_name :
  validateHandler_ JS.decimalToNumber forms_Validation ∅
    "x  v-required" "" = Ok true /\
  validateHandler_ JS.decimalToNumber forms_Validation ∅
    "x v-required" "" = Ok false.
Proof. split; reflexivity. Qed.

(** The class that is not a rule is passed over, v-num fails on "12a",
    and the unknown rule after it is not reached. *)
Lemma validateHandler_every_rule_token_witness :
  validateHandler_ JS.decimalToNumber forms_Validation ∅
    "field v-required v-num v-undefined" "12a" = Ok false.
Proof.
  destruct (validateHandler_every_rule_token JS.decimalToNumber
              forms_Validation ∅ "field v-required v-num v-undefined" "12a")
    as (_ & _ & H); [reflexivity|].
  apply (H ["v-required"] ["v-undefined"] "v-num").
  - reflexivity.
  - repeat constructor.
  - reflexivity.
Defined.

(** The arguments of a len class name reach [isValidLength_] as strings,
    and [min <= max] on two strings compares them as strings: "2" is
    above "10", so the class v-len-2-10 fails every value, while
    v-len-2-5 accepts "abc". *)
Example validateHandler_len_compares_strings :
  validateHandler_ JS.decimalToNumber forms_Validation ∅
    "v-len-2-10" "abc" = Ok false /\
  validateHandler_ JS.decimalToNumber forms_Validation ∅
    "v-len-2-5" "abc" = Ok true.
Proof. split; reflexivity. Qed.

(** A class name that is the bare prefix parses to the empty method,
    which the switch has no case for: the default case looks it up in the
    table and throws. *)
Example validateHandler_bare_prefix_throws :
  splitClassName_ forms_Validation "v-" = {| method := ""; args := [] |} /\
  validateHandler_ JS.decimalToNumber forms_Validation ∅ "v-" "abc" = Throw.
Proof. split; reflexivity. Qed.

(** C1, as the specification words it: the two messages of the serial
    number field follow one another, the first is checked and passes, and
    the second is checked all the same. *)
Lemma isValid_checks_again_after_pass :
  (isValid JS.decimalToNumber forms_Validation Examples.serialPage).1.2
    = [Checked "serial" true; Checked "serial" false] /\
  ~ skipsRepeats
      (isValid JS.decimalToNumber forms_Validation Examples.serialPage).1.2.
Proof.
  assert (E : (isValid JS.decimalToNumber forms_Validation
                       Examples.serialPage).1.2
              = [Checked "serial" true; Checked "serial" false])
    by (vm_compute; reflexivity).
  split; [exact E|]. rewrite E. intros H.
  specialize (H 0%nat (Checked "serial" true) (Checked "serial" false)
                eq_refl eq_refl eq_refl).
  discriminate H.
Qed.

(** After the failed check of the empty serial field its next message is
    passed over; after the passed check of "abc" the next one is checked. *)
Lemma isValid_skips_last_failed_field_witness :
  Skipped "serial" = Skipped "serial" /\
  isSkipped (Checked "serial" false) = false.
Proof.
  pose proof (isValid_skips_last_failed_field JS.decimalToNumber
                forms_Validation Examples.emptySerialPage)
    as (_ & _ & Hfail & _ & _).
  pose proof (isValid_skips_last_failed_field JS.decimalToNumber
                forms_Validation Examples.serialPage)
    as (_ & _ & _ & Hpass & _).
  split.
  - apply (Hfail 0%nat "serial" (Skipped "serial"));
      [vm_compute; reflexivity | vm_compute; reflexivity | reflexivity].
  - apply (Hpass 0%nat "serial" (Checked "serial" false));
      [vm_compute; reflexivity | vm_compute; reflexivity | reflexivity].
Defined.

(** When the first message that fails carries the multi-class marker,
    the last step of [isValid] derives the field name without the class
    name, keeps the index ("serial-1"), finds no control of that name
    and throws in [focus_]. *)
Example isValid_throws_on_indexed_message :
  getFieldName_ forms_Validation "serial-1-err" None = "serial-1" /\
  (isValid JS.decimalToNumber forms_Validation Examples.serialPage).1.1
    = Throw.
Proof. split; vm_compute; reflexivity. Qed.

(** ** Instances of the further statements *)

(** The numeric serial number passes both its messages. *)
Lemma isValid_true_hides_every_message_witness :
  (isValid JS.decimalToNumber forms_Validation
           MoreExamples.numericSerialPage).2
  = hideAllErrors forms_Validation MoreExamples.numericSerialPage.
Proof.
  apply (isValid_true_hides_every_message JS.decimalToNumber
           forms_Validation MoreExamples.numericSerialPage _
           (isValid JS.decimalToNumber forms_Validation
                    MoreExamples.numericSerialPage).1.2).
  vm_compute. reflexivity.
Defined.


(** A disabled checkbox passes, even under a rule that does not exist. *)
Lemma check_exempt_control_passes_witness :
  check_ JS.decimalToNumber forms_Validation Controls.form
         "agree" "v-error v-nosuchrule" = Ok true.
Proof.
  apply (check_exempt_control_passes JS.decimalToNumber forms_Validation
           Controls.form "agree" "v-error v-nosuchrule"
           Controls.disabledBox).
  - reflexivity.
  - left. split; [reflexivity|]. intros H. discriminate H.
Defined.

(** Two disabled checkboxes under one name fail, though one is checked. *)
Lemma check_checkbox_and_radio_groups_witness :
  check_ JS.decimalToNumber forms_Validation Controls.form
         "topics" "v-error" = Ok false.
Proof.
  pose proof (check_checkbox_and_radio_groups JS.decimalToNumber
                forms_Validation Controls.form "topics" "v-error" ""
                Controls.disabledCheckedBox [Controls.disabledBox]
                eq_refl) as H.
  cbv zeta in H. destruct H as [H _].
  destruct (H eq_refl) as [_ Hall]. apply Hall.
  repeat constructor.
Defined.

(** The dropdown with its second option selected passes. *)
Lemma check_select_witness :
  check_ JS.decimalToNumber forms_Validation Controls.form
         "country" "v-error" = Ok true.
Proof.
  pose proof (check_select JS.decimalToNumber forms_Validation
                Controls.form "country" "v-error" Controls.dropdown
                eq_refl (or_introl eq_refl) eq_refl) as H.
  cbv zeta in H. destruct H as [H _].
  apply (H "fr"); [discriminate | reflexivity].
Defined.

(** An empty text field passes under the class name "error", which has
    no prefix. *)
Lemma validateHandler_without_rule_token_witness :
  validateHandler_ JS.decimalToNumber forms_Validation Controls.form
                   "error" "" = Ok true /\
  check_ JS.decimalToNumber forms_Validation Controls.form
         "nickname" "error" = Ok true.
Proof.
  pose proof (validateHandler_without_rule_token JS.decimalToNumber
                forms_Validation Controls.form "error") as H.
  destruct H as [Hv Hc]; [repeat constructor|].
  split; [apply Hv|].
  apply (Hc "nickname" (Examples.input "text" "" false)).
  - reflexivity.
  - apply (list_elem_of_lookup_2 _ 0%nat). reflexivity.
Defined.

(** The value is compared with the control "password"; the argument
    "again" is not read. *)
Lemma match_rule_reads_first_argument_witness :
  validateHandler_switch JS.decimalToNumber forms_Validation Controls.form
    (splitClassName_ forms_Validation
       (forms_Validation.(prefix)
        +:+ hyphenated ["match"; "password"; "again"])) "secret"
  = Ok (true, "secret").
Proof.
  apply (match_rule_reads_first_argument JS.decimalToNumber
           forms_Validation Controls.form "match" "password" ["again"]
           "secret"
           (DOM.Single (Examples.input "password" "secret" false))).
  - apply (list_elem_of_lookup_2 _ 0%nat). reflexivity.
  - repeat constructor.
  - reflexivity.
Defined.

(** The bounds 2 and 10: "10" sorts before "2", and a value of three
    characters fails. *)
Lemma len_rule_compares_bounds_as_strings_witness :
  ruleFails JS.decimalToNumber forms_Validation Controls.form "abc"
            (forms_Validation.(prefix) +:+ hyphenated ["len"; "2"; "10"]).
Proof.
  apply (len_rule_compares_bounds_as_strings JS.decimalToNumber
           forms_Validation Controls.form "2" "10" "abc");
    reflexivity.
Defined.

(** The e-mail page: one failed check, and the result false. *)
Lemma isValid_result_is_log_verdict_witness :
  false = allPassed (isValid JS.decimalToNumber forms_Validation
                             MoreExamples.emailPage).1.2 /\
  fieldOf <$> (isValid JS.decimalToNumber forms_Validation
                       MoreExamples.emailPage).1.2
  = fieldNames forms_Validation
      (DOM.descendants MoreExamples.emailPage)
      (errorMessages forms_Validation MoreExamples.emailPage).
Proof.
  apply (isValid_result_is_log_verdict JS.decimalToNumber
           forms_Validation MoreExamples.emailPage
           (isValid JS.decimalToNumber forms_Validation
                    MoreExamples.emailPage).2).
  vm_compute. reflexivity.
Defined.

(** The second message of the serial number field: checked under
    "serial", focused under "serial-1". *)
Lemma getFieldName_without_class_name_witness :
  getFieldName_ forms_Validation
    (("serial" +:+ String "-" "1") +:+ forms_Validation.(suffix))
    (Some "v-error v-m v-num") = "serial" /\
  getFieldName_ forms_Validation
    (("serial" +:+ String "-" "1") +:+ forms_Validation.(suffix))
    None = "serial" +:+ String "-" "1".
Proof.
  assert (H : forms_Validation.(prefix) +:+ forms_Validation.(multiClass)
              <> "") by (intros H; vm_compute in H; discriminate H).
  apply (proj2 (getFieldName_without_class_name forms_Validation H)
               "v-error v-m v-num" "serial" "1").
  - apply (list_elem_of_lookup_2 _ 1%nat). reflexivity.
  - reflexivity.
Defined.

(** The dropdown is checked in the same way under any class names. *)
Lemma check_reads_class_names_for_text_only_witness :
  check_ JS.decimalToNumber forms_Validation Controls.form
         "country" "v-error v-email"
  = check_ JS.decimalToNumber forms_Validation Controls.form
           "country" "v-nosuchrule".
Proof.
  apply (check_reads_class_names_for_text_only JS.decimalToNumber
           forms_Validation Controls.form "country" "select-one").
  - reflexivity.
  - rewrite !not_elem_of_cons. repeat split; try discriminate.
    apply not_elem_of_nil.
Defined.

(** With the error class "error" and the prefix "v-", the class name
    "terrors!" is that of an error message. *)
Lemma classExpr_matches_witness :
  RegExp.test (Patterns.classExpr ["error"; "v-"]) "terrors!" = true.
Proof.
  apply (proj2 (classExpr_matches "error" "v-" "terrors!"
                  eq_refl eq_refl)).
  left. exists "t", "s!". split; reflexivity.
Defined.

(** Asked for the empty tag, the search looks at every element, and
    finds the message of the e-mail page. *)
Lemma getElementsByClass_in_document_order_witness :
  1%nat ∈ getElementsByClass_ ["error"; "v-"]
            (DOM.descendants MoreExamples.emailPage) (Some "").
Proof.
  assert (Hnames : Forall (fun name => allChars isClassChar name = true)
                          ["error"; "v-"]) by (repeat constructor).
  pose proof (getElementsByClass_in_document_order ["error"; "v-"]
                (DOM.descendants MoreExamples.emailPage) (Some "") Hnames)
    as H.
  cbv zeta in H. destruct H as (_ & _ & Hin). apply Hin.
  exists (Examples.message "email-err" "v-error v-email").
  split; [reflexivity|]. split.
  - intros tag Htag. injection Htag as <-. now left.
  - vm_compute. reflexivity.
Defined.
